(** * ProteinInteraPredict: the masking/tokenization engine and the batch collators

    A shallow embedding of [DatasetClass.py] and of the dataset and collator
    cells of [pre_training_bert_model_on_new_tokens.py].

    Conventions of the embedding
    - a 1-D integer tensor is a [list Z], a stacked 2-D tensor a list of rows;
    - a Python [dict] with string keys is a [gmap string _];
    - Python floats are the rationals they denote ([Q]); only comparisons of
      floats occur in the code, and a threshold such as [mask_probability]
      stands for the value the comparison is made against;
    - the process-wide random generator is an explicit stream of entropy
      words that every drawing function consumes and returns;
    - a raised exception is the [Raise] branch of [result]. *)

From Stdlib Require Import ZArith QArith Lia Ascii String.
From stdpp Require Import base option list strings gmap.

Local Open Scope Z_scope.

(** ** Exceptions and the error monad *)

Inductive exn : Type :=
| KeyError (key : string)
| IndexError
| ValueError
| RuntimeError.

Inductive result (A : Type) : Type :=
| Ok (a : A)
| Raise (e : exn).
Arguments Ok {A} a.
Arguments Raise {A} e.

#[global] Instance result_ret : MRet result := λ A a, Ok a.
#[global] Instance result_bind : MBind result := λ A B f m,
  match m with
  | Ok a => f a
  | Raise e => Raise e
  end.

Fixpoint rmapM {A B} (f : A → result B) (l : list A) : result (list B) :=
  match l with
  | [] => Ok []
  | a :: l' => b ← f a ; bs ← rmapM f l' ; Ok (b :: bs)
  end.

Definition is_ok {A} (m : result A) : Prop := ∃ a, m = Ok a.

Definition is_okb {A} (m : result A) : bool :=
  match m with
  | Ok _ => true
  | Raise _ => false
  end.

(** [d[key]] on a dict: [KeyError] when the key is absent. *)
Definition getitem_dict {V} (d : gmap string V) (key : string) : result V :=
  match d !! key with
  | Some v => Ok v
  | None => Raise (KeyError key)
  end.

(** ** Floats as rationals *)

Definition Qltb (a b : Q) : bool :=
  Qnum a * Z.pos (Qden b) <? Qnum b * Z.pos (Qden a).

(** ** The random generator

    The generator state is the stream of entropy words still to be consumed.
    [random.random()] builds a double from 53 random bits, [torch.rand] a
    single-precision float from 24 random bits; both lie in [0, 1). *)

Definition Rng : Type := nat → N.

Definition advance (n : nat) (g : Rng) : Rng := λ i, g (n + i)%nat.

Definition unit_float (bits : N) (w : N) : Q :=
  Z.of_N (w mod 2 ^ bits) # Z.to_pos (2 ^ Z.of_N bits).

(** [random.random()] *)
Definition random (g : Rng) : Q * Rng := (unit_float 53 (g 0%nat), advance 1 g).

(** [torch.rand((n,))] *)
Definition torch_rand (n : nat) (g : Rng) : list Q * Rng :=
  (map (λ i, unit_float 24 (g i)) (seq 0 n), advance n g).

(** [torch.randint(low, high, (n,))]: an error unless [low < high]. *)
Definition torch_randint (low high : Z) (n : nat) (g : Rng) : result (list Z * Rng) :=
  if low <? high
  then Ok (map (λ i, low + Z.of_N (g i) mod (high - low)) (seq 0 n), advance n g)
  else Raise RuntimeError.

(** ** The tokenizer capability

    The tokenizer is the [transformers] BERT tokenizer, external to the
    repository.  Its vocabulary-dependent parts are the fields of a record;
    the encoding pipeline built on them (special tokens, truncation on the
    right, padding on the right) is defined below. *)

Record Tokenizer : Type := {
  tokenize : string → list string;
  convert_tokens_to_ids : string → Z;
  mask_token : string;
  cls_token_id : Z;
  sep_token_id : Z;
  pad_token_id : Z;
  vocab_size : Z;
  model_max_length : Z;
}.

Section Encoding.
Context (tk : Tokenizer).

(** A single sequence receives [[CLS]] in front and [[SEP]] behind. *)
Definition num_special_tokens_to_add : Z := 2.

Definition build_inputs_with_special_tokens (ids : list Z) : list Z :=
  cls_token_id tk :: ids ++ [sep_token_id tk].

(** Tokens are removed from the right; when the sequence is not longer than
    the number of tokens to remove, the library logs an error and leaves
    the sequence as it is. *)
Definition truncate_sequences (ids : list Z) (num_tokens_to_remove : Z) : list Z :=
  if num_tokens_to_remove <=? 0 then ids
  else if num_tokens_to_remove <? Z.of_nat (length ids)
       then take (length ids - Z.to_nat num_tokens_to_remove) ids
       else ids.

(** [padding='max_length'] appends the pad id, with attention mask 0;
    [padding=False] appends nothing. *)
Definition pad (padding : bool) (ids : list Z) (max_length : Z) : list Z * list Z :=
  let difference :=
    if padding then Z.to_nat (max_length - Z.of_nat (length ids)) else 0%nat in
  (ids ++ replicate difference (pad_token_id tk),
   replicate (length ids) 1 ++ replicate difference 0).

(** [add_special_tokens=True, truncation=True] *)
Definition prepare_for_model (padding : bool) (ids : list Z) (max_length : Z)
  : list Z * list Z :=
  let total_len := Z.of_nat (length ids) + num_special_tokens_to_add in
  let ids :=
    if max_length <? total_len
    then truncate_sequences ids (total_len - max_length)
    else ids in
  pad padding (build_inputs_with_special_tokens ids) max_length.

(** [tokenizer.encode_plus(text, ...)] on a string. *)
Definition encode_plus (padding : bool) (text : string) (max_length : Z)
  : list Z * list Z :=
  prepare_for_model padding (map (convert_tokens_to_ids tk) (tokenize tk text)) max_length.

(** [tokenizer(words, is_split_into_words=True, ...)] on a list of words:
    every word is tokenized on its own and the pieces are chained.  The
    library rejects an empty list of words with [ValueError], where
    [encode_plus] on the empty string returns the two special tokens. *)
Definition get_input_ids (words : list string) : list Z :=
  map (convert_tokens_to_ids tk) (concat (map (tokenize tk) words)).

Definition encode_words (padding : bool) (words : list string) (max_length : Z)
  : result (list Z * list Z) :=
  match words with
  | [] => Raise ValueError
  | _ => Ok (prepare_for_model padding (get_input_ids words) max_length)
  end.

(** [tokenizer.convert_tokens_to_ids([tokenizer.mask_token])[0]] *)
Definition mask_token_id : Z := convert_tokens_to_ids tk (mask_token tk).

End Encoding.

(** ** Data frames

    A frame has named columns and rows of cells; [iloc] takes Python indices
    (negative ones count from the end), [row[col]] raises [KeyError] for a
    column the frame does not have. *)

Record DataFrame : Type := {
  columns : list string;
  rows : list (list string);
}.

Definition iloc (df : DataFrame) (idx : Z) : result (gmap string string) :=
  let n := Z.of_nat (length (rows df)) in
  let i := if idx <? 0 then idx + n else idx in
  if (0 <=? i) && (i <? n)
  then match rows df !! Z.to_nat i with
       | Some cells => Ok (list_to_map (zip (columns df) cells))
       | None => Raise IndexError
       end
  else Raise IndexError.

(** The text of one pair: entity marker, first sequence, separator, second
    entity marker, second sequence. *)
Definition render_pair (a b : string) : string :=
  "[ENTITY1] " +:+ a +:+ " [SEP] [ENTITY2] " +:+ b.

(** The label sentinel excluded from the loss. *)
Definition IGNORE : Z := -100.

(** ** Tensor operations *)

Definition len (t : list Z) : Z := Z.of_nat (length t).

(** [torch.full((n,), v)]: a negative size is an error. *)
Definition torch_full (n : Z) (v : Z) : result (list Z) :=
  if n <? 0 then Raise RuntimeError else Ok (replicate (Z.to_nat n) v).

(** [torch.stack]: needs at least one tensor, and all of one size. *)
Definition torch_stack (ts : list (list Z)) : result (list (list Z)) :=
  match ts with
  | [] => Raise RuntimeError
  | t :: ts' =>
      if forallb (λ t', (length t' =? length t)%nat) ts' then Ok ts
      else Raise RuntimeError
  end.

(** [x[m]]: the entries of [x] where the boolean mask holds, in order. *)
Fixpoint masked_select (x : list Z) (m : list bool) : list Z :=
  match x, m with
  | xi :: x', mi :: m' =>
      if mi then xi :: masked_select x' m' else masked_select x' m'
  | _, _ => []
  end.

(** [x[m] = vals]: the positions where the mask holds receive the values,
    in order. *)
Fixpoint masked_store (x : list Z) (m : list bool) (vals : list Z) : list Z :=
  match x, m with
  | xi :: x', mi :: m' =>
      if mi then
        match vals with
        | v :: vals' => v :: masked_store x' m' vals'
        | [] => xi :: masked_store x' m' []
        end
      else xi :: masked_store x' m' vals
  | _, _ => x
  end.

(** [x[m] = v] for a scalar [v]. *)
Fixpoint masked_fill (x : list Z) (m : list bool) (v : Z) : list Z :=
  match x, m with
  | xi :: x', mi :: m' => (if mi then v else xi) :: masked_fill x' m' v
  | _, _ => x
  end.

(** [max(...)] of Python: [ValueError] on an empty sequence. *)
Definition py_max (l : list Z) : result Z :=
  match l with
  | [] => Raise ValueError
  | x :: l' => Ok (foldl Z.max x l')
  end.

(** [sub in s] on strings. *)
Fixpoint str_contains (sub s : string) : bool :=
  String.prefix sub s ||
  match s with
  | EmptyString => false
  | String _ s' => str_contains sub s'
  end.

Fixpoint rfoldl {A B} (f : A → B → result A) (a : A) (l : list B) : result A :=
  match l with
  | [] => Ok a
  | b :: l' => a' ← f a b ; rfoldl f a' l'
  end.

(** [torch.nn.utils.rnn.pad_sequence(seqs, batch_first=True, padding_value)]:
    every sequence is padded on the right to the longest one; an empty list
    of sequences is an error. *)
Definition max_len (seqs : list (list Z)) : nat :=
  foldr (λ s m, Nat.max (length s) m) 0%nat seqs.

Definition pad_rows (padding_value : Z) (seqs : list (list Z)) : list (list Z) :=
  map (λ s, s ++ replicate (max_len seqs - length s) padding_value) seqs.

Definition pad_sequence (seqs : list (list Z)) (padding_value : Z)
  : result (list (list Z)) :=
  match seqs with
  | [] => Raise RuntimeError
  | _ => Ok (pad_rows padding_value seqs)
  end.

(** [s[:n]] on a string. *)
Fixpoint str_take (n : nat) (s : string) : string :=
  match n, s with
  | S n', String c s' => String c (str_take n' s')
  | _, _ => EmptyString
  end.

(** ** DatasetClass.py *)

Module DatasetClass.

Record ProteinInteractionDataset : Type := {
  dataframe : DataFrame;
  tokenizer : Tokenizer;
  max_length : Z;
  mask_probability : Q;
}.

(** [__init__]: stores its arguments. *)
Definition init (df : DataFrame) (tk : Tokenizer) (max_length : Z) (p : Q)
  : result ProteinInteractionDataset :=
  Ok {| dataframe := df; tokenizer := tk; max_length := max_length;
        mask_probability := p |}.

Section Methods.
Context (self : ProteinInteractionDataset).

Definition tokenize_sequence (sequence : string) : list Z * list Z :=
  encode_plus (tokenizer self) true sequence (max_length self).

(** One iteration of the masking loop over [tokens]. *)
Definition mask_step (st : list string * list Z * Rng) (token : string)
  : list string * list Z * Rng :=
  let '(masked_tokens, labels, g) := st in
  let '(u, g') := random g in
  if Qltb u (mask_probability self)
  then (masked_tokens ++ [mask_token (tokenizer self)],
        labels ++ [convert_tokens_to_ids (tokenizer self) token], g')
  else (masked_tokens ++ [token], labels ++ [IGNORE], g').

(** The call of the tokenizer on the list of decided tokens raises
    [ValueError] when the sequence has no token at all. *)
Definition mask_and_tokenize_sequence (sequence : string) (g : Rng)
  : result ((list Z * list Z * list Z) * Rng) :=
  let tokens := tokenize (tokenizer self) sequence in
  let '(masked_tokens, labels, g') := foldl mask_step ([], [], g) tokens in
  '(input_ids, attention_mask) ←
    encode_words (tokenizer self) true masked_tokens (max_length self) ;
  let labels :=
    labels ++ replicate (Z.to_nat (max_length self - len labels)) IGNORE in
  Ok ((input_ids, attention_mask, labels), g').

(** [__len__]: the number of rows of the frame. *)
Definition __len__ : Z := Z.of_nat (length (rows (dataframe self))).

Definition getitem (idx : Z) (g : Rng) : result (gmap string (list Z) * Rng) :=
  row ← iloc (dataframe self) idx ;
  sa ← getitem_dict row "Sequence_A" ;
  sb ← getitem_dict row "Sequence_B" ;
  let global_seq := render_pair sa sb in
  ma ← getitem_dict row "masked_sequence_A" ;
  mb ← getitem_dict row "masked_sequence_B" ;
  let local_seq := render_pair ma mb in
  let '(input_ids_global, attention_mask_global) := tokenize_sequence global_seq in
  '((input_ids_local, attention_mask_local, labels_local), g') ←
    mask_and_tokenize_sequence local_seq g ;
  Ok (<["input_ids_global" := input_ids_global]>
      (<["attention_mask_global" := attention_mask_global]>
      (<["input_ids_local" := input_ids_local]>
      (<["attention_mask_local" := attention_mask_local]>
      (<["labels_local" := labels_local]> ∅)))), g').

End Methods.

(** The collator of this file: one length for the whole batch, taken over
    the global and the local ids together. *)
Definition joint_len (item : gmap string (list Z)) : result Z :=
  a ← getitem_dict item "input_ids_global" ;
  b ← getitem_dict item "input_ids_local" ;
  Ok (Z.max (len a) (len b)).

Definition collate_keys : list string :=
  ["input_ids_global"; "attention_mask_global"; "labels_global";
   "input_ids_local"; "attention_mask_local"].

Definition fill_value (key : string) : Z :=
  if str_contains "mask" key || str_contains "input_ids" key then 0 else -100.

Definition pad_item (max_length : Z) (key : string) (item : gmap string (list Z))
  : result (list Z) :=
  t ← getitem_dict item key ;
  padding ← torch_full (max_length - len t) (fill_value key) ;
  Ok (t ++ padding).

Definition collate_key (batch : list (gmap string (list Z))) (max_length : Z)
    (padded_batch : gmap string (list (list Z))) (key : string)
  : result (gmap string (list (list Z))) :=
  padded_vector ← rmapM (pad_item max_length key) batch ;
  stacked ← torch_stack padded_vector ;
  Ok (<[key := stacked]> padded_batch).

Definition collate_fn (batch : list (gmap string (list Z)))
  : result (gmap string (list (list Z))) :=
  lens ← rmapM joint_len batch ;
  max_length ← py_max lens ;
  rfoldl (collate_key batch max_length) ∅ collate_keys.

End DatasetClass.

(** ** pre_training_bert_model_on_new_tokens.py *)

Module PreTraining.

Record ProteinInteractionDataset : Type := {
  dataframe : DataFrame;
  tokenizer : Tokenizer;
  mask_probability : Q;
  modes : list string;
}.

(** [__init__]: [modes if modes else ['global_masked']]. *)
Definition init (df : DataFrame) (tk : Tokenizer) (p : Q)
    (modes : option (list string)) : result ProteinInteractionDataset :=
  Ok {| dataframe := df; tokenizer := tk; mask_probability := p;
        modes := match modes with
                 | Some (m :: ms) => m :: ms
                 | _ => ["global_masked"]
                 end |}.

Section Methods.
Context (self : ProteinInteractionDataset).

(** [__len__]: the number of rows of the frame. *)
Definition __len__ : Z := Z.of_nat (length (rows (dataframe self))).

(** No [max_length] is passed: truncation is to the tokenizer's own
    [model_max_length], and nothing is padded. *)
Definition tokenize_sequence (sequence : string) : list Z * list Z :=
  encode_plus (tokenizer self) false sequence (model_max_length (tokenizer self)).

Definition random_mask_sequence (sequence : string) (g : Rng)
  : result ((list Z * list Z * list Z) * Rng) :=
  let tokens := tokenize (tokenizer self) sequence in
  let input_ids := map (convert_tokens_to_ids (tokenizer self)) tokens in
  let shape := length input_ids in
  let labels := replicate shape IGNORE in
  let '(r1, g1) := torch_rand shape g in
  let mask_indices := map (λ u, Qltb u (mask_probability self)) r1 in
  let labels := masked_store labels mask_indices (masked_select input_ids mask_indices) in
  let '(r2, g2) := torch_rand shape g1 in
  let actual_mask := zip_with andb mask_indices (map (λ v, Qltb v (8 # 10)) r2) in
  let input_ids := masked_fill input_ids actual_mask (mask_token_id (tokenizer self)) in
  '(random_tokens, g3) ← torch_randint 2 (vocab_size (tokenizer self)) shape g2 ;
  let rest := zip_with andb mask_indices (map negb actual_mask) in
  let input_ids := masked_store input_ids rest (masked_select random_tokens rest) in
  Ok ((input_ids, replicate (length input_ids) 1, labels), g3).

Definition getitem (idx : Z) (g : Rng) : result (gmap string (list Z) * Rng) :=
  row ← iloc (dataframe self) idx ;
  '(data, g) ←
    (if bool_decide ("global_masked" ∈ modes self) then
       sa ← getitem_dict row "Sequence_A" ;
       sb ← getitem_dict row "Sequence_B" ;
       '((input_ids, attention_mask, labels), g') ←
         random_mask_sequence (render_pair sa sb) g ;
       Ok (<["labels_global_masked" := labels]>
           (<["attention_mask_global_masked" := attention_mask]>
           (<["input_ids_global_masked" := input_ids]> ∅)), g')
     else Ok (∅, g)) ;
  data ←
    (if bool_decide ("local" ∈ modes self) then
       sa ← getitem_dict row "Sequence_A" ;
       sb ← getitem_dict row "Sequence_B" ;
       let '(input_ids, attention_mask) := tokenize_sequence (render_pair sa sb) in
       Ok (<["attention_mask_local" := attention_mask]>
           (<["input_ids_local" := input_ids]> data))
     else Ok data) ;
  Ok (data, g).

End Methods.

(** [[item.get(key, ...) for item in batch if key in item]] *)
Definition collect (key : string) (batch : list (gmap string (list Z)))
  : list (list Z) :=
  omap (λ item : gmap string (list Z), item !! key) batch.

Definition collate_mode (batch : list (gmap string (list Z)))
    (batched_data : gmap string (list (list Z))) (mode : string)
  : result (gmap string (list (list Z))) :=
  let input_ids := collect ("input_ids_" +:+ mode) batch in
  let attention_masks := collect ("attention_mask_" +:+ mode) batch in
  let labels := collect ("labels_" +:+ mode) batch in
  match input_ids with
  | [] => Ok batched_data
  | _ =>
      ids ← pad_sequence input_ids 0 ;
      let batched_data := <["input_ids_" +:+ mode := ids]> batched_data in
      masks ← pad_sequence attention_masks 0 ;
      let batched_data := <["attention_mask_" +:+ mode := masks]> batched_data in
      match labels with
      | [] => Ok batched_data
      | _ =>
          lbls ← pad_sequence labels (-100) ;
          Ok (<["labels_" +:+ mode := lbls]> batched_data)
      end
  end.

Definition collate_modes : list string := ["global_masked"; "local"].

Definition collate_fn (batch : list (gmap string (list Z)))
  : result (gmap string (list (list Z))) :=
  rfoldl (collate_mode batch) ∅ collate_modes.

(** The cell-level step of the preprocessing loop:
    [x[:500] if len(x) > 500 else x]. *)
Definition truncate_cell (x : string) : string :=
  if (500 <? String.length x)%nat then str_take 500 x else x.

(** [df[col] = df[col].apply(f)]: the column is found by name ([KeyError]
    when the frame has none) and every row gets its cell replaced. *)
Definition apply_column (f : string → string) (df : DataFrame) (col : string)
  : result DataFrame :=
  match list_find (λ c, c = col) (columns df) with
  | Some (j, _) => Ok {| columns := columns df; rows := map (alter f j) (rows df) |}
  | None => Raise (KeyError col)
  end.

(** The four columns of the loop, in its order. *)
Definition columns_to_truncate : list string :=
  ["masked_sequence_A"; "masked_sequence_B"; "Sequence_A"; "Sequence_B"].

(** [for col in columns: pairs_df[col] = pairs_df[col].apply(...)] *)
Definition truncate_columns (df : DataFrame) : result DataFrame :=
  rfoldl (apply_column truncate_cell) df columns_to_truncate.

End PreTraining.

(** An example of [DatasetClass.py] is a dictionary that some access to some
    dataset returned. *)
Definition produced (item : gmap string (list Z)) : Prop :=
  ∃ self idx g g', DatasetClass.getitem self idx g = Ok (item, g').

(** The [i]-th word of the generator, read as a [bits]-bit draw, falls below
    the threshold [p]. *)
Definition draw_below (bits : N) (p : Q) (g : Rng) (i : nat) : bool :=
  Qltb (unit_float bits (g i)) p.

(** Every token, handed back to the tokenizer as a word, comes out as
    itself (ProtBERT: one token per residue letter or marker). *)
Definition retokenizes_to_itself (tk : Tokenizer) (tokens : list string) : Prop :=
  Forall (λ t, tokenize tk t = [t]) (mask_token tk :: tokens).

(** The three kinds of key of a mode in the pre-training collator, each with
    its padding value. *)
Definition channel_kinds : list (string * Z) :=
  [("input_ids_", 0); ("attention_mask_", 0); ("labels_", -100)].

(** The padding value by key: -100 under the label keys, 0 under the
    others. *)
Definition padding_value_of (key : string) : Z :=
  if String.prefix "labels_" key then -100 else 0.

(** The rows a collator returned under a key, if it returned. *)
Definition batch_lookup (r : result (gmap string (list (list Z)))) (key : string)
  : option (list (list Z)) :=
  match r with
  | Ok out => out !! key
  | Raise _ => None
  end.

(** The columns the two datasets read. *)
Definition required_columns : list string :=
  ["Sequence_A"; "Sequence_B"; "masked_sequence_A"; "masked_sequence_B"].

Definition in_range (df : DataFrame) (idx : Z) : Prop :=
  - Z.of_nat (length (rows df)) ≤ idx < Z.of_nat (length (rows df)).

(** ** Concrete inputs

    A whitespace tokenizer over the ProtBERT vocabulary (30 entries, ids 0
    to 4 reserved for [[PAD]], [[UNK]], [[CLS]], [[SEP]], [[MASK]]) with the
    two entity markers added behind it, as the notebook sets it up. *)

Fixpoint split_words (cur s : string) : list string :=
  match s with
  | EmptyString => if decide (cur = "") then [] else [cur]
  | String c s' =>
      if Ascii.eqb c " "%char
      then (if decide (cur = "") then split_words "" s' else cur :: split_words "" s')
      else split_words (cur +:+ String c EmptyString) s'
  end.

Definition prot_vocab : list (string * Z) :=
  [("[PAD]", 0); ("[UNK]", 1); ("[CLS]", 2); ("[SEP]", 3); ("[MASK]", 4);
   ("L", 5); ("A", 6); ("G", 7); ("V", 8); ("E", 9); ("S", 10); ("I", 11);
   ("K", 12); ("R", 13); ("D", 14); ("T", 15); ("P", 16); ("N", 17);
   ("Q", 18); ("F", 19); ("Y", 20); ("M", 21); ("H", 22); ("C", 23);
   ("W", 24); ("X", 25); ("U", 26); ("B", 27); ("Z", 28); ("O", 29);
   ("[ENTITY1]", 30); ("[ENTITY2]", 31)].

Definition prot_lookup (token : string) : Z :=
  match list_find (λ e : string * Z, e.1 = token) prot_vocab with
  | Some (_, (_, id)) => id
  | None => 1
  end.

Definition prot_tokenizer : Tokenizer :=
  {| tokenize := split_words "";
     convert_tokens_to_ids := prot_lookup;
     mask_token := "[MASK]";
     cls_token_id := 2;
     sep_token_id := 3;
     pad_token_id := 0;
     vocab_size := 30;
     model_max_length := 4 |}.

Definition pairs_df : DataFrame :=
  {| columns := required_columns;
     rows := [["M K"; "L T"; "M [MASK]"; "L T"]] |}.

(** A frame without its [Sequence_A] column. *)
Definition headless_df : DataFrame :=
  {| columns := ["Sequence_B"; "masked_sequence_A"; "masked_sequence_B"];
     rows := [["L T"; "M [MASK]"; "L T"]] |}.

(** Generators: all-zero entropy draws 0.0 every time, so every comparison
    [draw < p] with a positive [p] succeeds; [g_high] draws just below 1. *)
Definition g_zero : Rng := λ _, 0%N.
Definition g_high : Rng := λ _, (2 ^ 53 - 1)%N.

Definition ds_small : DatasetClass.ProteinInteractionDataset :=
  {| DatasetClass.dataframe := pairs_df;
     DatasetClass.tokenizer := prot_tokenizer;
     DatasetClass.max_length := 4;
     DatasetClass.mask_probability := 15 # 100 |}.

Definition ds_wide : DatasetClass.ProteinInteractionDataset :=
  {| DatasetClass.dataframe := pairs_df;
     DatasetClass.tokenizer := prot_tokenizer;
     DatasetClass.max_length := 12;
     DatasetClass.mask_probability := 15 # 100 |}.

Definition ds_unmasked : DatasetClass.ProteinInteractionDataset :=
  {| DatasetClass.dataframe := pairs_df;
     DatasetClass.tokenizer := prot_tokenizer;
     DatasetClass.max_length := 12;
     DatasetClass.mask_probability := 0 |}.

Definition pt_default : PreTraining.ProteinInteractionDataset :=
  {| PreTraining.dataframe := pairs_df;
     PreTraining.tokenizer := prot_tokenizer;
     PreTraining.mask_probability := 15 # 100;
     PreTraining.modes := ["global_masked"] |}.

Definition pt_unmasked : PreTraining.ProteinInteractionDataset :=
  {| PreTraining.dataframe := pairs_df;
     PreTraining.tokenizer := prot_tokenizer;
     PreTraining.mask_probability := 0;
     PreTraining.modes := ["global_masked"] |}.

Definition pair_text : string := "[ENTITY1] M K [SEP] [ENTITY2] L T".

(** The example that [ds_wide] returns for row 0 under [g_zero]. *)
Definition item_wide : gmap string (list Z) :=
  match DatasetClass.getitem ds_wide 0 g_zero with
  | Ok (item, _) => item
  | Raise _ => ∅
  end.

(** Hand-built examples for the collators. *)
Definition item_short_global : gmap string (list Z) :=
  <["input_ids_global" := [2; 21; 3]]>
  (<["attention_mask_global" := [1; 1; 1]]>
  (<["labels_global" := [-100; 21; -100]]>
  (<["input_ids_local" := [2; 4; 12; 5; 3]]>
  (<["attention_mask_local" := [1; 1; 1; 1; 1]]> ∅)))).

Definition item_global_only : gmap string (list Z) :=
  <["input_ids_global" := [2; 21; 3]]>
  (<["attention_mask_global" := [1; 1; 1]]>
  (<["labels_global" := [-100; 21; -100]]> ∅)).

Definition item_masked (ids labels : list Z) : gmap string (list Z) :=
  <["input_ids_global_masked" := ids]>
  (<["attention_mask_global_masked" := replicate (length ids) 1]>
  (<["labels_global_masked" := labels]> ∅)).

Definition item_local (ids : list Z) : gmap string (list Z) :=
  <["input_ids_local" := ids]>
  (<["attention_mask_local" := replicate (length ids) 1]> ∅).

Definition mixed_batch : list (gmap string (list Z)) :=
  [item_masked [30; 4; 12] [-100; 21; -100];
   item_local [2; 30; 21; 3];
   item_masked [30; 21; 12; 3; 31] [-100; -100; -100; -100; -100]].

(** An example of the pre-training dataset is a dictionary that some access
    to some dataset returned. *)
Definition pt_produced (item : gmap string (list Z)) : Prop :=
  ∃ self idx g g', PreTraining.getitem self idx g = Ok (item, g').

(** Every row has a cell for every column. *)
Definition rectangular (df : DataFrame) : Prop :=
  Forall (λ cells : list string, (length (columns df) ≤ length cells)%nat) (rows df).

(** The keys the two operations of the pre-training dataset write. *)
Definition global_masked_keys : list string :=
  ["input_ids_global_masked"; "attention_mask_global_masked"; "labels_global_masked"].

Definition local_keys : list string := ["input_ids_local"; "attention_mask_local"].

(** The keys [__getitem__] of [DatasetClass.py] writes. *)
Definition dataset_keys : list string :=
  ["input_ids_global"; "attention_mask_global"; "input_ids_local";
   "attention_mask_local"; "labels_local"].

(** More concrete inputs: a sequence of 600 residues, a frame that holds it,
    datasets that mask always, a generator that counts. *)
Definition long_seq : string := string_of_list_ascii (replicate 600 "M"%char).

Definition long_df : DataFrame :=
  {| columns := ["Id"; "Sequence_A"; "Sequence_B"; "masked_sequence_A";
                 "masked_sequence_B"];
     rows := [["p1"; long_seq; "L T"; long_seq; "L T"]] |}.

Definition ds_always : DatasetClass.ProteinInteractionDataset :=
  {| DatasetClass.dataframe := pairs_df;
     DatasetClass.tokenizer := prot_tokenizer;
     DatasetClass.max_length := 12;
     DatasetClass.mask_probability := 1 |}.

Definition pt_always : PreTraining.ProteinInteractionDataset :=
  {| PreTraining.dataframe := pairs_df;
     PreTraining.tokenizer := prot_tokenizer;
     PreTraining.mask_probability := 1;
     PreTraining.modes := ["global_masked"] |}.

Definition pt_both : PreTraining.ProteinInteractionDataset :=
  {| PreTraining.dataframe := pairs_df;
     PreTraining.tokenizer := prot_tokenizer;
     PreTraining.mask_probability := 15 # 100;
     PreTraining.modes := ["global_masked"; "local"] |}.

Definition pt_half : PreTraining.ProteinInteractionDataset :=
  {| PreTraining.dataframe := pairs_df;
     PreTraining.tokenizer := prot_tokenizer;
     PreTraining.mask_probability := 1 # 2;
     PreTraining.modes := ["global_masked"] |}.

Definition ds_half : DatasetClass.ProteinInteractionDataset :=
  {| DatasetClass.dataframe := pairs_df;
     DatasetClass.tokenizer := prot_tokenizer;
     DatasetClass.max_length := 12;
     DatasetClass.mask_probability := 1 # 2 |}.

(** The examples that [pt_both] and [pt_default] return for row 0. *)
Definition item_pt_both : gmap string (list Z) :=
  match PreTraining.getitem pt_both 0 g_zero with
  | Ok (item, _) => item
  | Raise _ => ∅
  end.

Definition item_pt_default : gmap string (list Z) :=
  match PreTraining.getitem pt_default 0 g_high with
  | Ok (item, _) => item
  | Raise _ => ∅
  end.

(** An example whose attention mask is longer than all its ids, and one
    that has ids of a mode but not its mask. *)
Definition item_long_mask : gmap string (list Z) :=
  <["attention_mask_global" := [1; 1; 1; 1; 1; 1; 1]]> item_short_global.

Definition item_ids_only : gmap string (list Z) :=
  <["input_ids_local" := [2; 30; 3]]> ∅.

(** A dataset whose [max_length] has no room for a token beside the two
    special tokens. *)
Definition ds_two : DatasetClass.ProteinInteractionDataset :=
  {| DatasetClass.dataframe := pairs_df;
     DatasetClass.tokenizer := prot_tokenizer;
     DatasetClass.max_length := 2;
     DatasetClass.mask_probability := 15 # 100 |}.

(** WordPiece in miniature: the word [ab] splits into [a] and the
    continuation piece [##b]; a piece handed back as a word of its own is
    split at its punctuation. *)
Definition piece_word (w : string) : list string :=
  if decide (w = "ab") then ["a"; "##b"]
  else if decide (w = "##b") then ["#"; "#"; "b"]
  else [w].

Definition piece_vocab : list (string * Z) :=
  [("[PAD]", 0); ("[UNK]", 1); ("[CLS]", 2); ("[SEP]", 3); ("[MASK]", 4);
   ("a", 5); ("##b", 6); ("#", 7); ("b", 8)].

Definition piece_lookup (token : string) : Z :=
  match list_find (λ e : string * Z, e.1 = token) piece_vocab with
  | Some (_, (_, id)) => id
  | None => 1
  end.

Definition piece_tokenizer : Tokenizer :=
  {| tokenize := λ s, concat (map piece_word (split_words "" s));
     convert_tokens_to_ids := piece_lookup;
     mask_token := "[MASK]";
     cls_token_id := 2;
     sep_token_id := 3;
     pad_token_id := 0;
     vocab_size := 9;
     model_max_length := 512 |}.

Definition ds_piece : DatasetClass.ProteinInteractionDataset :=
  {| DatasetClass.dataframe := pairs_df;
     DatasetClass.tokenizer := piece_tokenizer;
     DatasetClass.max_length := 8;
     DatasetClass.mask_probability := 0 |}.

(** A vocabulary of two entries, which leaves no id from 2 on to draw. *)
Definition two_word_tokenizer : Tokenizer :=
  {| tokenize := split_words "";
     convert_tokens_to_ids := λ t, if decide (t = "[MASK]") then 1 else 0;
     mask_token := "[MASK]";
     cls_token_id := 0;
     sep_token_id := 0;
     pad_token_id := 0;
     vocab_size := 2;
     model_max_length := 512 |}.

Definition pt_two_words : PreTraining.ProteinInteractionDataset :=
  {| PreTraining.dataframe := pairs_df;
     PreTraining.tokenizer := two_word_tokenizer;
     PreTraining.mask_probability := 0;
     PreTraining.modes := ["global_masked"] |}.

Example split_pair_text :
  tokenize prot_tokenizer pair_text = ["[ENTITY1]"; "M"; "K"; "[SEP]"; "[ENTITY2]"; "L"; "T"].
Proof. reflexivity. Qed.

(** * Properties *)

(** ** The operations on the concrete inputs *)

Example render_pair_MK_LT :
  render_pair "MK" "LT" = "[ENTITY1] MK [SEP] [ENTITY2] LT".
Proof. reflexivity. Qed.

(** Draws of 0.0 mask every token; the labels start at index 0, the mask
    ids at index 1, behind the classifier id. *)
Example all_masked_run :
  (r ← DatasetClass.mask_and_tokenize_sequence ds_wide pair_text g_zero ; Ok r.1)
  = Ok ([2; 4; 4; 4; 4; 4; 4; 4; 3; 0; 0; 0],
     [1; 1; 1; 1; 1; 1; 1; 1; 1; 0; 0; 0],
     [30; 21; 12; 3; 31; 5; 15; -100; -100; -100; -100; -100]).
Proof. vm_compute. reflexivity. Qed.

(** Draws just below 1 mask nothing. *)
Example nothing_masked_run :
  (r ← DatasetClass.mask_and_tokenize_sequence ds_wide pair_text g_high ; Ok r.1)
  = Ok ([2; 30; 21; 12; 3; 31; 5; 15; 3; 0; 0; 0],
     [1; 1; 1; 1; 1; 1; 1; 1; 1; 0; 0; 0],
     replicate 12 IGNORE).
Proof. vm_compute. reflexivity. Qed.

(** Four ids fit two of the seven tokens; the labels stay seven long. *)
Example short_max_length_run :
  (r ← DatasetClass.mask_and_tokenize_sequence ds_small pair_text g_high ; Ok r.1)
  = Ok ([2; 30; 21; 3], [1; 1; 1; 1], replicate 7 IGNORE).
Proof. vm_compute. reflexivity. Qed.

(** A sequence without a token: the plain tokenization returns the two
    special tokens and the padding, the masking operation raises. *)
Example token_free_run :
  DatasetClass.tokenize_sequence ds_small "" = ([2; 3; 0; 0], [1; 1; 0; 0])
  ∧ DatasetClass.mask_and_tokenize_sequence ds_small "" g_zero = Raise ValueError.
Proof. split; reflexivity. Qed.

(** With a [max_length] of 2 nothing is cut: the library removes tokens
    only when some token is left. *)
Example max_length_two_run :
  DatasetClass.tokenize_sequence ds_two pair_text
  = ([2; 30; 21; 12; 3; 31; 5; 15; 3], replicate 9 1).
Proof. vm_compute. reflexivity. Qed.

Example three_way_run :
  (r ← PreTraining.random_mask_sequence pt_default pair_text g_zero ; Ok r.1)
  = Ok ([4; 4; 4; 4; 4; 4; 4], replicate 7 1, [30; 21; 12; 3; 31; 5; 15]).
Proof. vm_compute. reflexivity. Qed.

(** ** The error monad *)

Lemma rmapM_length {A B} (f : A → result B) (l : list A) (bs : list B) :
  rmapM f l = Ok bs → length bs = length l.
Proof.
  revert bs. induction l as [|a l IH]; intros bs; simpl.
  - intros [= <-]. reflexivity.
  - destruct (f a) as [b|e]; simpl; [|discriminate].
    destruct (rmapM f l) as [bs'|e]; simpl; [|discriminate].
    intros [= <-]. simpl. f_equal. apply IH. reflexivity.
Qed.

Lemma rmapM_lookup {A B} (f : A → result B) (l : list A) (bs : list B) i a :
  rmapM f l = Ok bs → l !! i = Some a → ∃ b, f a = Ok b ∧ bs !! i = Some b.
Proof.
  revert bs i. induction l as [|a' l IH]; intros bs i; simpl; [intros _ [=]|].
  destruct (f a') as [b|e] eqn:Hf; simpl; [|discriminate].
  destruct (rmapM f l) as [bs'|e]; simpl; [|discriminate].
  intros [= <-]. destruct i as [|i]; simpl.
  - intros [= <-]. eauto.
  - intros Hi. apply (IH bs' i); [reflexivity | exact Hi].
Qed.

Lemma rmapM_raise {A B} (f : A → result B) (l : list A) (P : exn → Prop) :
  (∀ a, a ∈ l → ∀ e, f a = Raise e → P e) →
  (∃ a, a ∈ l ∧ ¬ is_ok (f a)) →
  ∃ e, rmapM f l = Raise e ∧ P e.
Proof.
  induction l as [|a l IH]; intros HP [x [Hx Hbad]].
  - inversion Hx.
  - simpl. destruct (f a) as [b|e] eqn:Hf; simpl.
    + destruct IH as [e [He HPe]].
      * intros a' Ha'. apply HP. right. exact Ha'.
      * exists x. split; [|exact Hbad].
        inversion Hx; subst; [|assumption].
        exfalso. apply Hbad. exists b. exact Hf.
      * rewrite He. simpl. eauto.
    + exists e. split; [reflexivity|]. apply (HP a); [left | exact Hf].
Qed.

(** ** Draws *)

Lemma Qltb_lt (a b : Q) : Qltb a b = true ↔ (a < b)%Q.
Proof. unfold Qltb, Qlt. apply Z.ltb_lt. Qed.

Lemma unit_float_nonneg bits w : (0 <= unit_float bits w)%Q.
Proof.
  unfold unit_float, Qle. cbn [Qnum Qden]. rewrite Z.mul_1_r. apply N2Z.is_nonneg.
Qed.

(** A draw is never below probability zero. *)
Lemma Qltb_unit_float_zero bits w (p : Q) :
  (p == 0)%Q → Qltb (unit_float bits w) p = false.
Proof.
  intros Hp. destruct (Qltb (unit_float bits w) p) eqn:E; [|reflexivity].
  apply Qltb_lt in E. rewrite Hp in E.
  pose proof (unit_float_nonneg bits w) as H0.
  exfalso. apply (Qlt_irrefl 0). eapply Qle_lt_trans; eassumption.
Qed.

(** Against a threshold [m / 2^bits] on the grid of the draws, the event
    [draw < threshold] is the event that the [bits]-bit word is below [m]:
    [m] of the [2^bits] equally likely words. *)
Lemma Qltb_unit_float_grid (bits : N) (w : N) (m : Z) :
  Qltb (unit_float bits w) (m # Z.to_pos (2 ^ Z.of_N bits))
  = (Z.of_N (w mod 2 ^ bits) <? m).
Proof.
  unfold Qltb, unit_float. cbn [Qnum Qden].
  destruct (Z.ltb_spec (Z.of_N (w mod 2 ^ bits)) m) as [H|H].
  - apply Z.ltb_lt. apply Z.mul_lt_mono_pos_r; [reflexivity | exact H].
  - apply Z.ltb_ge. apply Z.mul_le_mono_nonneg_r; [discriminate | exact H].
Qed.

Lemma Qltb_Qeq_r (a p q : Q) : (p == q)%Q → Qltb a p = Qltb a q.
Proof.
  intros Hpq. apply Bool.eq_iff_eq_true. rewrite !Qltb_lt, Hpq. reflexivity.
Qed.

(** A threshold that is [m / 2^bits] as a rational selects [m] of the
    [2^bits] words. *)
Lemma Qltb_unit_float_share (bits : N) (w : N) (m : Z) (p : Q) :
  (p == m # Z.to_pos (2 ^ Z.of_N bits))%Q →
  Qltb (unit_float bits w) p = (Z.of_N (w mod 2 ^ bits) <? m).
Proof.
  intros Hp. rewrite (Qltb_Qeq_r _ _ _ Hp). apply Qltb_unit_float_grid.
Qed.

(** The threshold 0.8 against a 24-bit draw: 13421773 of the 16777216 words
    fall below it, which is 0.8 up to [2^-24]. *)
Lemma Qltb_unit_float_mask_share (w : N) :
  Qltb (unit_float 24 w) (8 # 10) = (Z.of_N (w mod 2 ^ 24) <? 13421773).
Proof.
  unfold Qltb, unit_float. cbn [Qnum Qden].
  change (Z.pos (Z.to_pos (2 ^ Z.of_N 24))) with 16777216.
  destruct (Z.ltb_spec (Z.of_N (w mod 2 ^ 24)) 13421773) as [H|H].
  - apply Z.ltb_lt. lia.
  - apply Z.ltb_ge. lia.
Qed.

(** ** The encoding pipeline *)

Section EncodingFacts.
Context (tk : Tokenizer).

Lemma pad_lengths_agree padding (ids : list Z) L :
  length (pad tk padding ids L).1 = length (pad tk padding ids L).2.
Proof. unfold pad. simpl. rewrite !length_app, !length_replicate. reflexivity. Qed.

Lemma prepare_lengths_agree padding (ids : list Z) L :
  length (prepare_for_model tk padding ids L).1
  = length (prepare_for_model tk padding ids L).2.
Proof. unfold prepare_for_model. apply pad_lengths_agree. Qed.

(** With room for the two special tokens and one more, truncation and
    padding have a closed form: the first [L - 2] ids between [[CLS]] and
    [[SEP]], then pad ids up to [L]. *)
Lemma prepare_for_model_closed (ids : list Z) L :
  3 ≤ L →
  (prepare_for_model tk true ids L).1
  = cls_token_id tk :: take (Z.to_nat (L - 2)) ids
    ++ sep_token_id tk :: replicate (Z.to_nat (L - 2 - len ids)) (pad_token_id tk).
Proof.
  intros HL. unfold prepare_for_model, num_special_tokens_to_add, len.
  destruct (Z.ltb_spec L (Z.of_nat (length ids) + 2)) as [Hlong|Hshort].
  - unfold truncate_sequences.
    destruct (Z.leb_spec (Z.of_nat (length ids) + 2 - L) 0) as [?|_]; [lia|].
    destruct (Z.ltb_spec (Z.of_nat (length ids) + 2 - L) (Z.of_nat (length ids)))
      as [_|?]; [|lia].
    replace (length ids - Z.to_nat (Z.of_nat (length ids) + 2 - L))%nat
      with (Z.to_nat (L - 2)) by lia.
    unfold pad, build_inputs_with_special_tokens. cbn [fst].
    rewrite length_cons, length_app, length_take. cbn [length].
    replace (Z.to_nat (L - Z.of_nat (S (Z.to_nat (L - 2) `min` length ids + 1))))
      with 0%nat by lia.
    replace (Z.to_nat (L - 2 - Z.of_nat (length ids))) with 0%nat by lia.
    cbn [replicate]. rewrite app_nil_r. reflexivity.
  - unfold pad, build_inputs_with_special_tokens. cbn [fst].
    rewrite take_ge by lia.
    rewrite length_cons, length_app. cbn [length].
    replace (Z.to_nat (L - Z.of_nat (S (length ids + 1))))
      with (Z.to_nat (L - 2 - Z.of_nat (length ids))) by lia.
    cbn [app]. rewrite <- app_assoc. reflexivity.
Qed.

Lemma prepare_for_model_length (ids : list Z) L :
  3 ≤ L → len (prepare_for_model tk true ids L).1 = L.
Proof.
  intros HL. rewrite prepare_for_model_closed by exact HL. unfold len.
  rewrite length_cons, length_app, length_take, length_cons, length_replicate.
  lia.
Qed.

Lemma prepare_for_model_head (ids : list Z) L :
  3 ≤ L → (prepare_for_model tk true ids L).1 !! 0%nat = Some (cls_token_id tk).
Proof. intros HL. rewrite prepare_for_model_closed by exact HL. reflexivity. Qed.

(** An id that survives truncation sits one place to the right. *)
Lemma prepare_for_model_shift (ids : list Z) L (i : nat) x :
  Z.of_nat i + 3 ≤ L → ids !! i = Some x →
  (prepare_for_model tk true ids L).1 !! S i = Some x.
Proof.
  intros Hi Hx. rewrite prepare_for_model_closed by lia. cbn [lookup list_lookup].
  change (?l !! i) with (l !! i).
  rewrite lookup_app_l.
  - rewrite lookup_take_lt by lia. exact Hx.
  - rewrite length_take. apply lookup_lt_Some in Hx. lia.
Qed.

Lemma encode_words_nonempty padding (words : list string) L :
  words ≠ [] →
  encode_words tk padding words L
  = Ok (prepare_for_model tk padding (get_input_ids tk words) L).
Proof. destruct words; [congruence|reflexivity]. Qed.

End EncodingFacts.

(** ** The masking loop of [mask_and_tokenize_sequence] *)

Section MaskLoop.
Context (self : DatasetClass.ProteinInteractionDataset).

Lemma mask_step_eq (mt0 : list string) (lb0 : list Z) (g0 : Rng) (t : string) :
  DatasetClass.mask_step self (mt0, lb0, g0) t
  = if draw_below 53 (DatasetClass.mask_probability self) g0 0
    then (mt0 ++ [mask_token (DatasetClass.tokenizer self)],
          lb0 ++ [convert_tokens_to_ids (DatasetClass.tokenizer self) t],
          advance 1 g0)
    else (mt0 ++ [t], lb0 ++ [IGNORE], advance 1 g0).
Proof. reflexivity. Qed.

Lemma mask_loop_spec (tokens : list string) :
  ∀ (mt0 : list string) (lb0 : list Z) (g0 : Rng),
    let r := foldl (DatasetClass.mask_step self) (mt0, lb0, g0) tokens in
    r.1.1 = mt0 ++ imap (λ i t,
              if draw_below 53 (DatasetClass.mask_probability self) g0 i
              then mask_token (DatasetClass.tokenizer self) else t) tokens
    ∧ r.1.2 = lb0 ++ imap (λ i t,
              if draw_below 53 (DatasetClass.mask_probability self) g0 i
              then convert_tokens_to_ids (DatasetClass.tokenizer self) t
              else IGNORE) tokens
    ∧ ∀ j, r.2 j = g0 (length tokens + j)%nat.
Proof.
  induction tokens as [|t tokens IH]; intros mt0 lb0 g0.
  - simpl. rewrite !app_nil_r. auto.
  - cbn [foldl]. rewrite mask_step_eq.
    destruct (draw_below 53 (DatasetClass.mask_probability self) g0 0) eqn:E;
      [ specialize (IH (mt0 ++ [mask_token (DatasetClass.tokenizer self)])
                       (lb0 ++ [convert_tokens_to_ids (DatasetClass.tokenizer self) t])
                       (advance 1 g0))
      | specialize (IH (mt0 ++ [t]) (lb0 ++ [IGNORE]) (advance 1 g0)) ];
      destruct IH as (H1 & H2 & H3); cbn zeta; rewrite H1, H2;
      rewrite !imap_cons, E, <- !app_assoc; repeat split;
      intros j; rewrite H3; unfold advance; f_equal.
Qed.

(** The tokens after the per-token decisions, and the labels before
    padding, position by position: what the operation returns for a
    sequence with a token. *)
Lemma mask_and_tokenize_closed (sequence : string) (g : Rng) :
  let tk := DatasetClass.tokenizer self in
  let p := DatasetClass.mask_probability self in
  let L := DatasetClass.max_length self in
  let tokens := tokenize tk sequence in
  let masked := imap (λ i t, if draw_below 53 p g i then mask_token tk else t) tokens in
  let labels := imap (λ i t, if draw_below 53 p g i
                             then convert_tokens_to_ids tk t else IGNORE) tokens in
  tokens ≠ [] →
  ∃ g', DatasetClass.mask_and_tokenize_sequence self sequence g
        = Ok (((prepare_for_model tk true (get_input_ids tk masked) L).1,
               (prepare_for_model tk true (get_input_ids tk masked) L).2,
               labels ++ replicate (Z.to_nat (L - len labels)) IGNORE), g')
        ∧ ∀ j, g' j = g (length tokens + j)%nat.
Proof.
  intros tk p L tokens masked labels Hne.
  unfold DatasetClass.mask_and_tokenize_sequence.
  pose proof (mask_loop_spec tokens [] [] g) as H. cbn zeta in H.
  fold tk tokens in H |- *.
  destruct (foldl (DatasetClass.mask_step self) ([], [], g) tokens) as [[mt lb] g'].
  cbn [fst snd] in H. destruct H as (H1 & H2 & H3). cbn [app] in H1, H2.
  subst mt lb. fold p masked labels L.
  exists g'. split; [|exact H3].
  rewrite encode_words_nonempty.
  - cbn. destruct (prepare_for_model tk true (get_input_ids tk masked) L). reflexivity.
  - subst masked. destruct tokens; [congruence|]. rewrite imap_cons. discriminate.
Qed.

(** A sequence without a token: the tokenizer is called on an empty list
    of words and raises. *)
Lemma mask_and_tokenize_token_free (sequence : string) (g : Rng) :
  tokenize (DatasetClass.tokenizer self) sequence = [] →
  DatasetClass.mask_and_tokenize_sequence self sequence g = Raise ValueError.
Proof.
  intros He. unfold DatasetClass.mask_and_tokenize_sequence. rewrite He. reflexivity.
Qed.

Lemma mask_and_tokenize_returns (sequence : string) (g : Rng) :
  tokenize (DatasetClass.tokenizer self) sequence ≠ [] →
  ∃ r g', DatasetClass.mask_and_tokenize_sequence self sequence g = Ok (r, g').
Proof.
  intros Hne. destruct (mask_and_tokenize_closed sequence g Hne) as (g' & Heq & _).
  eauto.
Qed.

(** Whatever the operation returns has that form. *)
Lemma mask_and_tokenize_inv (sequence : string) (g : Rng)
    (r : list Z * list Z * list Z) (g' : Rng) :
  let tk := DatasetClass.tokenizer self in
  let p := DatasetClass.mask_probability self in
  let L := DatasetClass.max_length self in
  let tokens := tokenize tk sequence in
  let masked := imap (λ i t, if draw_below 53 p g i then mask_token tk else t) tokens in
  let labels := imap (λ i t, if draw_below 53 p g i
                             then convert_tokens_to_ids tk t else IGNORE) tokens in
  DatasetClass.mask_and_tokenize_sequence self sequence g = Ok (r, g') →
  tokens ≠ []
  ∧ r = ((prepare_for_model tk true (get_input_ids tk masked) L).1,
         (prepare_for_model tk true (get_input_ids tk masked) L).2,
         labels ++ replicate (Z.to_nat (L - len labels)) IGNORE)
  ∧ ∀ j, g' j = g (length tokens + j)%nat.
Proof.
  intros tk p L tokens masked labels H.
  destruct (decide (tokens = [])) as [He|Hne].
  - rewrite (mask_and_tokenize_token_free sequence g He) in H. discriminate.
  - split; [exact Hne|].
    destruct (mask_and_tokenize_closed sequence g Hne) as (g1 & Heq & Hg).
    rewrite Heq in H. injection H as <- <-. split; [reflexivity | exact Hg].
Qed.

End MaskLoop.

(** ** Boolean-mask indexing *)

Lemma masked_store_length (x : list Z) : ∀ m vals,
  length (masked_store x m vals) = length x.
Proof.
  induction x as [|xi x IH]; intros [|mi m] vals; simpl; try reflexivity.
  destruct mi; [destruct vals|]; simpl; rewrite IH; reflexivity.
Qed.

Lemma masked_fill_length (x : list Z) : ∀ m v,
  length (masked_fill x m v) = length x.
Proof.
  induction x as [|xi x IH]; intros [|mi m] v; simpl; try reflexivity.
  rewrite IH. reflexivity.
Qed.

Lemma masked_fill_lookup (x : list Z) : ∀ (m : list bool) (v : Z) (i : nat) (xi : Z) (mi : bool),
  x !! i = Some xi → m !! i = Some mi →
  masked_fill x m v !! i = Some (if mi then v else xi).
Proof.
  induction x as [|x0 x IH]; intros [|m0 m] v [|i] xi mi; simpl;
    try discriminate.
  - intros [= <-] [= <-]. reflexivity.
  - intros Hx Hm. apply IH; assumption.
Qed.

(** [x[m] = y[m]] is the position-wise choice between [y] and [x]. *)
Lemma masked_store_select_lookup (x : list Z) :
  ∀ (m : list bool) (y : list Z) (i : nat) (xi : Z) (mi : bool) (yi : Z),
  x !! i = Some xi → m !! i = Some mi → y !! i = Some yi →
  masked_store x m (masked_select y m) !! i = Some (if mi then yi else xi).
Proof.
  induction x as [|x0 x IH]; intros [|m0 m] [|y0 y] [|i] xi mi yi; simpl;
    try discriminate.
  - intros [= <-] [= <-] [= <-]. destruct m0; reflexivity.
  - intros Hx Hm Hy. destruct m0; simpl; apply IH; assumption.
Qed.

(** ** Drawing *)

Lemma torch_rand_lookup (n : nat) (g : Rng) (i : nat) :
  (i < n)%nat → (torch_rand n g).1 !! i = Some (unit_float 24 (g i)).
Proof.
  intros Hi. unfold torch_rand. cbn [fst].
  rewrite list_lookup_fmap, lookup_seq_lt by exact Hi. reflexivity.
Qed.

Lemma torch_rand_length (n : nat) (g : Rng) : length (torch_rand n g).1 = n.
Proof. unfold torch_rand. cbn [fst]. rewrite length_map, length_seq. reflexivity. Qed.

Lemma torch_randint_ok (low high : Z) (n : nat) (g : Rng) :
  low < high →
  torch_randint low high n g
  = Ok (map (λ i, low + Z.of_N (g i) mod (high - low)) (seq 0 n), advance n g).
Proof.
  intros H. unfold torch_randint.
  destruct (Z.ltb_spec low high); [reflexivity | lia].
Qed.

(** Every drawn id lies in the half-open range. *)
Lemma randint_value_range (low high : Z) (w : N) :
  low < high → low ≤ low + Z.of_N w mod (high - low) < high.
Proof.
  intros H. pose proof (Z.mod_pos_bound (Z.of_N w) (high - low)). lia.
Qed.

(** Every id of the range is drawn, by the word that is its offset. *)
Lemma randint_value_onto (low high t : Z) :
  low ≤ t < high → low + Z.of_N (Z.to_N (t - low)) mod (high - low) = t.
Proof.
  intros H. rewrite Z2N.id by lia. rewrite Z.mod_small by lia. lia.
Qed.

(** ** The id-level masking of [random_mask_sequence] *)

Section RandomMask.
Context (self : PreTraining.ProteinInteractionDataset).

(** Position by position: the first round of draws selects, the second
    round splits the selected positions at 0.8, the third supplies the
    random ids. *)
Lemma random_mask_sequence_spec (sequence : string) (g : Rng) :
  let tk := PreTraining.tokenizer self in
  let p := PreTraining.mask_probability self in
  let ids0 := map (convert_tokens_to_ids tk) (tokenize tk sequence) in
  let n := length ids0 in
  2 < vocab_size tk →
  ∃ input_ids labels g',
    PreTraining.random_mask_sequence self sequence g
    = Ok ((input_ids, replicate (length input_ids) 1, labels), g')
    ∧ length input_ids = n ∧ length labels = n
    ∧ ∀ i orig, ids0 !! i = Some orig →
        labels !! i = Some (if draw_below 24 p g i then orig else IGNORE)
        ∧ input_ids !! i
          = Some (if draw_below 24 p g i
                  then if draw_below 24 (8 # 10) g (n + i)
                       then mask_token_id tk
                       else 2 + Z.of_N (g (n + (n + i))%nat) mod (vocab_size tk - 2)
                  else orig).
Proof.
  intros tk p ids0 n HV. unfold PreTraining.random_mask_sequence.
  fold tk p ids0. fold n.
  cbv beta iota zeta delta [torch_rand].
  rewrite torch_randint_ok by lia.
  unfold mbind, result_bind. cbv beta iota zeta.
  set (M := map (λ u, Qltb u p) (map (λ i, unit_float 24 (g i)) (seq 0 n))).
  set (A := zip_with andb M
              (map (λ v, Qltb v (8 # 10))
                   (map (λ i, unit_float 24 (advance n g i)) (seq 0 n)))).
  set (RT := map (λ i, 2 + Z.of_N (advance n (advance n g) i) mod (vocab_size tk - 2))
                 (seq 0 n)).
  set (R := zip_with andb M (map negb A)).
  eexists _, _, _. split; [reflexivity|].
  split; [rewrite masked_store_length, masked_fill_length; reflexivity|].
  split; [rewrite masked_store_length, length_replicate; reflexivity|].
  intros i orig Hi.
  assert (Hlt : (i < n)%nat) by (apply lookup_lt_Some in Hi; exact Hi).
  assert (HM : M !! i = Some (draw_below 24 p g i)).
  { unfold M. rewrite !list_lookup_fmap, lookup_seq_lt by exact Hlt. reflexivity. }
  assert (HA : A !! i = Some (draw_below 24 p g i && draw_below 24 (8 # 10) g (n + i))).
  { unfold A. rewrite lookup_zip_with, HM, !list_lookup_fmap, lookup_seq_lt by exact Hlt.
    reflexivity. }
  assert (HR : R !! i = Some (draw_below 24 p g i
                 && negb (draw_below 24 p g i && draw_below 24 (8 # 10) g (n + i)))).
  { unfold R. rewrite lookup_zip_with, HM, list_lookup_fmap, HA. reflexivity. }
  assert (HRT : RT !! i
                = Some (2 + Z.of_N (g (n + (n + i))%nat) mod (vocab_size tk - 2))).
  { unfold RT. rewrite list_lookup_fmap, lookup_seq_lt by exact Hlt. reflexivity. }
  split.
  - apply masked_store_select_lookup; [|exact HM|exact Hi].
    apply lookup_replicate_2. exact Hlt.
  - rewrite (masked_store_select_lookup _ _ _ _ _ _ _
               (masked_fill_lookup _ _ _ _ _ _ Hi HA) HR HRT).
    destruct (draw_below 24 p g i), (draw_below 24 (8 # 10) g (n + i)); reflexivity.
Qed.

End RandomMask.

(** ** Lengths of the three sequences of an example *)

(** The id-level path returns three sequences of the length of the token
    list, whatever is drawn. *)
Lemma random_mask_lengths_agree (self : PreTraining.ProteinInteractionDataset)
    (sequence : string) (g : Rng) :
  2 < vocab_size (PreTraining.tokenizer self) →
  ∃ input_ids attention_mask labels g',
    PreTraining.random_mask_sequence self sequence g
    = Ok ((input_ids, attention_mask, labels), g')
    ∧ length input_ids = length (tokenize (PreTraining.tokenizer self) sequence)
    ∧ length attention_mask = length input_ids
    ∧ length labels = length input_ids.
Proof.
  intros HV.
  destruct (random_mask_sequence_spec self sequence g HV)
    as (ids & lbl & g' & Heq & Hn & Hl & _).
  exists ids, (replicate (length ids) 1), lbl, g'.
  rewrite length_map in Hn, Hl.
  split; [exact Heq|]. split; [exact Hn|].
  split; [apply length_replicate | congruence].
Qed.

Lemma mask_and_tokenize_lengths (self : DatasetClass.ProteinInteractionDataset)
    (sequence : string) (g : Rng) :
  let L := DatasetClass.max_length self in
  let tokens := tokenize (DatasetClass.tokenizer self) sequence in
  tokens ≠ [] →
  ∃ r g',
    DatasetClass.mask_and_tokenize_sequence self sequence g = Ok (r, g')
    ∧ length r.1.1 = length r.1.2
    ∧ len r.2 = Z.max (Z.of_nat (length tokens)) L
    ∧ (3 ≤ L → len r.1.1 = L).
Proof.
  intros L tokens Hne.
  destruct (mask_and_tokenize_closed self sequence g Hne) as (g' & Heq & _).
  eexists _, g'. split; [exact Heq|]. cbn [fst snd]. fold L tokens.
  split; [apply prepare_lengths_agree|].
  split; [|apply prepare_for_model_length].
  unfold len. rewrite length_app, length_replicate, length_imap. lia.
Qed.

(** C1, at the inputs where it fails.  In the string-level path
    [input_ids] and [attention_mask] are cut to [max_length], but [labels]
    is only ever padded: a sequence of more than [max_length] tokens comes
    back with [max_length] ids and one label per token, so the three
    lengths are not equal. *)
Theorem string_labels_outgrow_input_ids
    (self : DatasetClass.ProteinInteractionDataset) (sequence : string) (g : Rng) :
  let L := DatasetClass.max_length self in
  let tokens := tokenize (DatasetClass.tokenizer self) sequence in
  3 ≤ L → L < Z.of_nat (length tokens) →
  ∃ r g',
    DatasetClass.mask_and_tokenize_sequence self sequence g = Ok (r, g')
    ∧ len r.1.1 = L ∧ len r.1.2 = L ∧ length r.2 = length tokens
    ∧ length r.2 ≠ length r.1.1.
Proof.
  intros L tokens HL Hlong.
  assert (Hne : tokens ≠ []) by (intros He; rewrite He in Hlong; simpl in Hlong; lia).
  destruct (mask_and_tokenize_lengths self sequence g Hne)
    as (r & g' & Heq & Ham & Hlb & Hids).
  fold L tokens in Hlb, Hids. specialize (Hids HL).
  exists r, g'. split; [exact Heq|].
  unfold len in *. repeat split; lia.
Qed.

Lemma string_labels_outgrow_input_ids_witness :
  ∃ r g',
    DatasetClass.mask_and_tokenize_sequence ds_small pair_text g_zero = Ok (r, g')
    ∧ len r.1.1 = 4 ∧ len r.1.2 = 4 ∧ length r.2 = 7%nat
    ∧ length r.2 ≠ length r.1.1.
Proof.
  apply (string_labels_outgrow_input_ids ds_small pair_text g_zero);
    vm_compute; [discriminate | reflexivity].
Defined.

(** ** The string-level operation, token by token *)

Lemma mask_and_tokenize_label (self : DatasetClass.ProteinInteractionDataset)
    (sequence : string) (g : Rng) (i : nat) (t : string)
    (r : list Z * list Z * list Z) (g' : Rng) :
  let tk := DatasetClass.tokenizer self in
  tokenize tk sequence !! i = Some t →
  DatasetClass.mask_and_tokenize_sequence self sequence g = Ok (r, g') →
  r.2 !! i
  = Some (if draw_below 53 (DatasetClass.mask_probability self) g i
          then convert_tokens_to_ids tk t else IGNORE).
Proof.
  intros tk Hi Heq.
  destruct (mask_and_tokenize_inv self sequence g r g' Heq) as (_ & -> & _).
  cbn [snd]. fold tk.
  rewrite lookup_app_l by (rewrite length_imap; eapply lookup_lt_Some; exact Hi).
  rewrite list_lookup_imap, Hi. reflexivity.
Qed.

(** C2, as stated, fails at a sequence without a token: the decided token
    list is empty and the tokenizer raises [ValueError] on it instead of
    encoding it.  It also fails at a [max_length] of 2, where the library
    cuts nothing and nine ids come back. *)
Lemma token_free_sequence_not_encoded :
  tokenize (DatasetClass.tokenizer ds_wide) "" = []
  ∧ DatasetClass.mask_and_tokenize_sequence ds_wide "" g_zero = Raise ValueError
  ∧ DatasetClass.max_length ds_two = 2
  ∧ (r ← DatasetClass.mask_and_tokenize_sequence ds_two pair_text g_high ; Ok r.1.1.1)
    = Ok [2; 30; 21; 12; 3; 31; 5; 15; 3].
Proof. repeat split; vm_compute; reflexivity. Qed.

(** C2, amended.  For a sequence with at least one token the operation
    returns.  Token [i] is decided by the [i]-th call of [random.random()]
    alone: when that draw is below [mask_probability] the token becomes the
    mask token and [labels[i]] is the token's own id, otherwise the token
    stays and [labels[i]] is -100.  [input_ids] and [attention_mask] are
    the encoding of the ids of the decided tokens, each token split again
    as a word; with [max_length] at least 3 that is the classifier id, the
    first [max_length - 2] of those ids, the separator id and pad ids up to
    [max_length].  [labels] is filled with -100 up to [max_length], and
    has the length of [input_ids] when the sequence has no more than
    [max_length] tokens.  A [mask_probability] of [m / 2^53] masks for [m]
    of the [2^53] equally likely values of a draw. *)
Theorem mask_and_tokenize_per_token
    (self : DatasetClass.ProteinInteractionDataset) (sequence : string) (g : Rng) :
  let tk := DatasetClass.tokenizer self in
  let p := DatasetClass.mask_probability self in
  let L := DatasetClass.max_length self in
  let tokens := tokenize tk sequence in
  tokens ≠ [] →
  ∃ (masked_tokens : list string) r g',
    let words :=
      map (convert_tokens_to_ids tk) (concat (map (tokenize tk) masked_tokens)) in
    DatasetClass.mask_and_tokenize_sequence self sequence g = Ok (r, g')
    ∧ length masked_tokens = length tokens
    ∧ (∀ i t, tokens !! i = Some t →
         if draw_below 53 p g i
         then masked_tokens !! i = Some (mask_token tk)
              ∧ r.2 !! i = Some (convert_tokens_to_ids tk t)
         else masked_tokens !! i = Some t ∧ r.2 !! i = Some IGNORE)
    ∧ (r.1.1, r.1.2) = prepare_for_model tk true words L
    ∧ (3 ≤ L →
       r.1.1
       = cls_token_id tk :: take (Z.to_nat (L - 2)) words
         ++ sep_token_id tk
         :: replicate (Z.to_nat (L - 2 - len words)) (pad_token_id tk)
       ∧ len r.1.1 = L ∧ len r.1.2 = L)
    ∧ (∀ i, (length tokens ≤ i)%nat → Z.of_nat i < L → r.2 !! i = Some IGNORE)
    ∧ (Z.of_nat (length tokens) ≤ L → len r.2 = L)
    ∧ (3 ≤ L → Z.of_nat (length tokens) ≤ L → length r.2 = length r.1.1)
    ∧ (∀ (m : Z) (i : nat), (p == m # Z.to_pos (2 ^ 53))%Q →
         draw_below 53 p g i = (Z.of_N (g i mod 2 ^ 53) <? m)).
Proof.
  intros tk p L tokens Hne.
  destruct (mask_and_tokenize_closed self sequence g Hne) as (g' & Heq & _).
  cbn zeta in Heq. fold tk p L tokens in Heq.
  set (masked := imap (λ i t, if draw_below 53 p g i then mask_token tk else t) tokens)
    in Heq.
  pose proof (prepare_for_model_length tk (get_input_ids tk masked) L) as Hlen.
  pose proof (prepare_lengths_agree tk true (get_input_ids tk masked) L) as Hagree.
  exists masked. eexists _, g'. cbn zeta. split; [exact Heq|]. cbn [fst snd].
  split; [apply length_imap|].
  split.
  { intros i t Hi. unfold masked.
    rewrite list_lookup_imap, Hi. cbn [fmap option_fmap option_map].
    rewrite lookup_app_l by (rewrite length_imap; eapply lookup_lt_Some; exact Hi).
    rewrite list_lookup_imap, Hi. cbn [fmap option_fmap option_map].
    destruct (draw_below 53 p g i); split; reflexivity. }
  split; [symmetry; apply surjective_pairing|].
  split.
  { intros HL. specialize (Hlen HL).
    split; [apply (prepare_for_model_closed tk (get_input_ids tk masked) L HL)|].
    split; [exact Hlen | unfold len in *; lia]. }
  split.
  { intros i Hge Hlt.
    rewrite lookup_app_r by (rewrite length_imap; exact Hge).
    apply lookup_replicate_2. unfold len. rewrite length_imap. lia. }
  split.
  { intros Hshort. unfold len.
    rewrite length_app, length_replicate, length_imap. lia. }
  split.
  { intros HL Hshort. specialize (Hlen HL). unfold len in *.
    rewrite length_app, length_replicate, length_imap. lia. }
  intros m i Hp. apply (Qltb_unit_float_share 53). exact Hp.
Qed.

Lemma mask_and_tokenize_per_token_witness :
  ∃ r g',
    DatasetClass.mask_and_tokenize_sequence ds_wide pair_text g_zero = Ok (r, g')
    ∧ r.1.1 = [2; 4; 4; 4; 4; 4; 4; 4; 3; 0; 0; 0]
    ∧ r.2 !! 1%nat = Some 21
    ∧ len r.2 = 12 ∧ length r.2 = length r.1.1.
Proof.
  destruct (mask_and_tokenize_per_token ds_wide pair_text g_zero)
    as (masked & r & g' & Heq & Hm & Htok & _ & Hids & _ & Hlen & Hsame & _).
  - vm_compute. discriminate.
  - exists r, g'. split; [exact Heq|].
    split.
    { destruct Hids as (Hids & _); [vm_compute; discriminate|].
      rewrite Hids. clear Hids Hlen Hsame.
      assert (Hmk : masked = replicate 7 "[MASK]").
      { apply list_eq. intros i.
        destruct (tokenize (DatasetClass.tokenizer ds_wide) pair_text !! i) as [t|] eqn:Ei.
        - specialize (Htok i t Ei).
          change (draw_below 53 (DatasetClass.mask_probability ds_wide) g_zero i)
            with true in Htok.
          destruct Htok as [-> _]. symmetry. apply lookup_replicate_2.
          apply lookup_lt_Some in Ei. exact Ei.
        - apply lookup_ge_None in Ei.
          rewrite (proj2 (lookup_ge_None _ _)) by (rewrite Hm; exact Ei).
          symmetry. apply lookup_ge_None. rewrite length_replicate. exact Ei. }
      rewrite Hmk. vm_compute. reflexivity. }
    split.
    { specialize (Htok 1%nat "M" eq_refl). destruct Htok as [_ H]. exact H. }
    split; [apply Hlen | apply Hsame]; vm_compute; discriminate.
Defined.

(** ** The id-level operation, position by position *)

(** C3.  Position [i] is selected by its own draw of the first round
    ([draw < mask_probability]) and then [labels[i]] is the original id,
    otherwise -100.  A selected position receives the mask-token id when its
    draw of the second round is below 0.8, and otherwise the random id of
    its own draw of the third round; that id [r] satisfies
    [2 <= r < vocab_size], and every id of that range is the value of some
    draw.  A [mask_probability] of [m / 2^24] selects for [m] of the [2^24]
    equally likely values of a draw, and the threshold 0.8 takes the mask
    branch for 13421773 of them. *)
Theorem random_mask_three_way
    (self : PreTraining.ProteinInteractionDataset) (sequence : string) (g : Rng) :
  let tk := PreTraining.tokenizer self in
  let p := PreTraining.mask_probability self in
  let ids0 := map (convert_tokens_to_ids tk) (tokenize tk sequence) in
  let n := length ids0 in
  let V := vocab_size tk in
  2 < V →
  ∃ input_ids labels g',
    PreTraining.random_mask_sequence self sequence g
    = Ok ((input_ids, replicate (length input_ids) 1, labels), g')
    ∧ (∀ i orig, ids0 !! i = Some orig →
         let selected := draw_below 24 p g i in
         let masked := draw_below 24 (8 # 10) g (n + i) in
         let r := 2 + Z.of_N (g (n + (n + i))%nat) mod (V - 2) in
         2 ≤ r < V
         ∧ labels !! i = Some (if selected then orig else IGNORE)
         ∧ input_ids !! i
           = Some (if selected then if masked then mask_token_id tk else r
                   else orig))
    ∧ (∀ t, 2 ≤ t < V → ∃ w : N, 2 + Z.of_N w mod (V - 2) = t)
    ∧ (∀ (m : Z) (i : nat), (p == m # Z.to_pos (2 ^ 24))%Q →
         draw_below 24 p g i = (Z.of_N (g i mod 2 ^ 24) <? m))
    ∧ (∀ i, draw_below 24 (8 # 10) g i = (Z.of_N (g i mod 2 ^ 24) <? 13421773)).
Proof.
  intros tk p ids0 n V HV.
  destruct (random_mask_sequence_spec self sequence g HV)
    as (ids & lbl & g' & Heq & _ & _ & Hpos).
  exists ids, lbl, g'. split; [exact Heq|]. split; [|split; [|split]].
  - intros i orig Hi. cbn zeta. split; [apply randint_value_range; exact HV|].
    apply Hpos. exact Hi.
  - intros t Ht. exists (Z.to_N (t - 2)). apply randint_value_onto. exact Ht.
  - intros m i Hp. apply (Qltb_unit_float_share 24). exact Hp.
  - intros i. apply Qltb_unit_float_mask_share.
Qed.

Lemma random_mask_three_way_witness :
  ∃ input_ids labels g',
    PreTraining.random_mask_sequence pt_default pair_text g_zero
    = Ok ((input_ids, replicate (length input_ids) 1, labels), g')
    ∧ labels !! 1%nat = Some 21 ∧ input_ids !! 1%nat = Some 4.
Proof.
  destruct (random_mask_three_way pt_default pair_text g_zero)
    as (ids & lbl & g' & Heq & Hpos & _); [reflexivity|].
  exists ids, lbl, g'. split; [exact Heq|].
  destruct (Hpos 1%nat 21) as (_ & Hl & Hi); [reflexivity|].
  split; [exact Hl | exact Hi].
Defined.

(** ** Probability zero *)

Lemma draw_below_zero bits (p : Q) (g : Rng) (i : nat) :
  (p == 0)%Q → draw_below bits p g i = false.
Proof. intros Hp. apply Qltb_unit_float_zero. exact Hp. Qed.

Lemma concat_retokenized (tk : Tokenizer) (l : list string) :
  Forall (λ t, tokenize tk t = [t]) l → concat (map (tokenize tk) l) = l.
Proof.
  induction 1 as [|t l Ht _ IH]; [reflexivity|].
  cbn [map concat]. rewrite Ht, IH. reflexivity.
Qed.

(** C6, as stated, fails in three ways.  A sequence without a token makes
    the string-level operation raise, where [tokenize_sequence] returns the
    two special tokens.  Pieces that the tokenizer splits further when they
    come back as words ([##b]) change the ids: the string-level operation
    returns the ids of [a # # b] for the sequence [ab], whose tokenization
    is [a ##b].  And with a vocabulary of two entries the id-level
    operation raises, whatever the probability. *)
Lemma zero_probability_not_always_tokenization :
  ((DatasetClass.mask_probability ds_unmasked == 0)%Q
   ∧ DatasetClass.mask_and_tokenize_sequence ds_unmasked "" g_zero = Raise ValueError
   ∧ (DatasetClass.tokenize_sequence ds_unmasked "").1
     = [2; 3; 0; 0; 0; 0; 0; 0; 0; 0; 0; 0])
  ∧ ((DatasetClass.mask_probability ds_piece == 0)%Q
     ∧ (r ← DatasetClass.mask_and_tokenize_sequence ds_piece "ab" g_zero ; Ok r.1.1.1)
       = Ok [2; 5; 7; 7; 8; 3; 0; 0]
     ∧ (DatasetClass.tokenize_sequence ds_piece "ab").1 = [2; 5; 6; 3; 0; 0; 0; 0])
  ∧ ((PreTraining.mask_probability pt_two_words == 0)%Q
     ∧ PreTraining.random_mask_sequence pt_two_words pair_text g_zero
       = Raise RuntimeError).
Proof. repeat split; vm_compute; reflexivity. Qed.

(** C6, amended.  With [mask_probability = 0] no draw is ever below the
    threshold.  The string-level operation, on a sequence with at least one
    token, returns labels that are all -100 and, as [input_ids], the
    encoding of the tokens as they were, each split again as a word; that
    is the encoding [tokenize_sequence] gives when the tokens re-tokenize
    to themselves.  The id-level operation, with a vocabulary of more than
    two entries, returns labels that are all -100 and, as [input_ids], the
    list of the tokens' ids. *)
Theorem zero_probability_masks_nothing
    (d : DatasetClass.ProteinInteractionDataset)
    (pt : PreTraining.ProteinInteractionDataset) (sequence : string) (g : Rng) :
  let tk := DatasetClass.tokenizer d in
  let tokens := tokenize tk sequence in
  let tk' := PreTraining.tokenizer pt in
  let ids' := map (convert_tokens_to_ids tk') (tokenize tk' sequence) in
  (DatasetClass.mask_probability d == 0)%Q →
  (PreTraining.mask_probability pt == 0)%Q →
  2 < vocab_size tk' →
  (tokens ≠ [] →
   ∃ r g1,
     DatasetClass.mask_and_tokenize_sequence d sequence g = Ok (r, g1)
     ∧ Forall (λ l, l = IGNORE) r.2
     ∧ (r.1.1, r.1.2)
       = prepare_for_model tk true
           (map (convert_tokens_to_ids tk) (concat (map (tokenize tk) tokens)))
           (DatasetClass.max_length d)
     ∧ (concat (map (tokenize tk) tokens) = tokens →
        (r.1.1, r.1.2) = DatasetClass.tokenize_sequence d sequence))
  ∧ ∃ g', PreTraining.random_mask_sequence pt sequence g
          = Ok ((ids', replicate (length ids') 1,
                 replicate (length ids') IGNORE), g').
Proof.
  intros tk tokens tk' ids' Hd Hpt HV.
  split.
  { intros Hne.
    destruct (mask_and_tokenize_closed d sequence g Hne) as (g1 & Hc & _).
    cbn zeta in Hc. fold tk tokens in Hc.
    rewrite (imap_ext _ (λ _ t, t) tokens) in Hc
      by (intros i t _; rewrite (draw_below_zero _ _ _ _ Hd); reflexivity).
    rewrite (imap_ext (λ i t, if draw_below 53 _ g i then _ else IGNORE)
               (λ _ _, IGNORE) tokens) in Hc
      by (intros i t _; rewrite (draw_below_zero _ _ _ _ Hd); reflexivity).
    replace (imap (λ (_ : nat) (t : string), t) tokens) with tokens in Hc
      by (symmetry; etrans; [apply (imap_const id) | apply list_fmap_id]).
    eexists _, g1. split; [exact Hc|]. cbn [fst snd].
    split.
    { apply Forall_app. split.
      - apply Forall_lookup. intros i x. rewrite list_lookup_imap.
        destruct (tokens !! i); [intros [= <-]; reflexivity | discriminate].
      - apply Forall_replicate. reflexivity. }
    split; [symmetry; apply surjective_pairing|].
    intros Hre. rewrite <- surjective_pairing.
    unfold DatasetClass.tokenize_sequence, encode_plus, get_input_ids.
    fold tk tokens. rewrite Hre. reflexivity. }
  destruct (random_mask_sequence_spec pt sequence g HV)
    as (ids & lbl & g' & Heq & Hn & Hl & Hpos).
  fold tk' ids' in Hn, Hl, Hpos.
  assert (Hids : ids = ids').
  { apply list_eq. intros i. destruct (ids' !! i) as [orig|] eqn:Hi.
    - destruct (Hpos i orig Hi) as (_ & H). rewrite H.
      rewrite (draw_below_zero _ _ _ _ Hpt). reflexivity.
    - apply lookup_ge_None. apply lookup_ge_None in Hi. lia. }
  assert (Hlbl : lbl = replicate (length ids') IGNORE).
  { apply list_eq. intros i. destruct (ids' !! i) as [orig|] eqn:Hi.
    - destruct (Hpos i orig Hi) as (H & _). rewrite H.
      rewrite (draw_below_zero _ _ _ _ Hpt).
      symmetry. apply lookup_replicate_2. eapply lookup_lt_Some. exact Hi.
    - apply lookup_ge_None in Hi. rewrite (proj2 (lookup_ge_None _ _)) by lia.
      symmetry. apply lookup_ge_None. rewrite length_replicate. exact Hi. }
  exists g'. rewrite Heq, Hids, Hlbl. reflexivity.
Qed.

Lemma zero_probability_masks_nothing_witness :
  (∃ r g1,
     DatasetClass.mask_and_tokenize_sequence ds_unmasked pair_text g_zero = Ok (r, g1)
     ∧ Forall (λ l, l = IGNORE) r.2
     ∧ (r.1.1, r.1.2) = DatasetClass.tokenize_sequence ds_unmasked pair_text)
  ∧ ∃ g', PreTraining.random_mask_sequence pt_unmasked pair_text g_zero
          = Ok (([30; 21; 12; 3; 31; 5; 15], replicate 7 1, replicate 7 IGNORE), g').
Proof.
  destruct (zero_probability_masks_nothing ds_unmasked pt_unmasked pair_text g_zero)
    as (Hs & H4); [reflexivity | reflexivity | reflexivity |].
  destruct Hs as (r & g1 & Heq & H1 & _ & H3); [vm_compute; discriminate|].
  split; [|exact H4].
  exists r, g1. split; [exact Heq|]. split; [exact H1 | apply H3; reflexivity].
Defined.

(** ** Sequences longer than [max_length] *)

(** C7 as stated fails on the id-level path: [random_mask_sequence] takes no
    [max_length] and cuts nothing.  For the seven tokens of the pair below
    it returns seven ids, where the tokenizer's own limit is 4 and
    [tokenize_sequence] of the same dataset returns 4 ids.  It also fails
    for a [max_length] of 2 in [DatasetClass.py]: the library cuts only
    when a token is left, so nine ids come back.  And the id-level
    operation does raise when the vocabulary has no id from 2 on to
    draw. *)
Lemma random_mask_not_truncated :
  (model_max_length (PreTraining.tokenizer pt_default) = 4
   ∧ length (tokenize (PreTraining.tokenizer pt_default) pair_text) = 7%nat
   ∧ (PreTraining.tokenize_sequence pt_default pair_text).1 = [2; 30; 21; 3]
   ∧ (r ← PreTraining.random_mask_sequence pt_default pair_text g_high ; Ok r.1.1.1)
     = Ok [30; 21; 12; 3; 31; 5; 15])
  ∧ (DatasetClass.max_length ds_two = 2
     ∧ (DatasetClass.tokenize_sequence ds_two pair_text).1
       = [2; 30; 21; 12; 3; 31; 5; 15; 3]
     ∧ (r ← DatasetClass.mask_and_tokenize_sequence ds_two pair_text g_high ;
        Ok r.1.1.1)
       = Ok [2; 30; 21; 12; 3; 31; 5; 15; 3])
  ∧ (vocab_size (PreTraining.tokenizer pt_two_words) = 2
     ∧ PreTraining.random_mask_sequence pt_two_words pair_text g_zero
       = Raise RuntimeError).
Proof. repeat split; vm_compute; reflexivity. Qed.

(** C7, amended.  With [max_length >= 3] and a sequence whose tokens, with
    the two special tokens, exceed [max_length], the two operations of
    [DatasetClass.py] return without an error, and exactly [max_length]
    ids.  Those of [tokenize_sequence] are the classifier id, the first
    [max_length - 2] token ids and the separator id.  Those of
    [mask_and_tokenize_sequence] are the classifier id, the first
    [max_length - 2] ids of the decided tokens as the tokenizer splits them
    word by word, and the separator id with the pad ids that are left; when
    the tokens re-tokenize to themselves these are the first
    [max_length - 2] decided ids and the separator id.  The id-level
    operation, with a vocabulary of more than two entries, returns one id
    per token, uncut. *)
Theorem string_level_truncates
    (d : DatasetClass.ProteinInteractionDataset)
    (pt : PreTraining.ProteinInteractionDataset) (sequence : string) (g : Rng) :
  let tk := DatasetClass.tokenizer d in
  let p := DatasetClass.mask_probability d in
  let L := DatasetClass.max_length d in
  let tokens := tokenize tk sequence in
  let ids := map (convert_tokens_to_ids tk) tokens in
  let masked := imap (λ i t, if draw_below 53 p g i then mask_token tk else t) tokens in
  let words := map (convert_tokens_to_ids tk) (concat (map (tokenize tk) masked)) in
  let tk' := PreTraining.tokenizer pt in
  3 ≤ L → L < Z.of_nat (length tokens) + 2 → 2 < vocab_size tk' →
  (DatasetClass.tokenize_sequence d sequence).1
  = cls_token_id tk :: take (Z.to_nat (L - 2)) ids ++ [sep_token_id tk]
  ∧ len (DatasetClass.tokenize_sequence d sequence).1 = L
  ∧ (∃ r g1,
       DatasetClass.mask_and_tokenize_sequence d sequence g = Ok (r, g1)
       ∧ len r.1.1 = L
       ∧ r.1.1
         = cls_token_id tk :: take (Z.to_nat (L - 2)) words
           ++ sep_token_id tk
           :: replicate (Z.to_nat (L - 2 - len words)) (pad_token_id tk)
       ∧ (retokenizes_to_itself tk tokens →
          r.1.1
          = cls_token_id tk
            :: take (Z.to_nat (L - 2))
                 (imap (λ i t, if draw_below 53 p g i then mask_token_id tk
                               else convert_tokens_to_ids tk t) tokens)
            ++ [sep_token_id tk]))
  ∧ ∃ r g', PreTraining.random_mask_sequence pt sequence g = Ok (r, g')
            ∧ length r.1.1 = length (tokenize tk' sequence).
Proof.
  intros tk p L tokens ids masked words tk' HL Hlong HV.
  assert (Hne : tokens ≠ []) by (intros He; rewrite He in Hlong; simpl in Hlong; lia).
  assert (Hplain : (DatasetClass.tokenize_sequence d sequence).1
                   = cls_token_id tk :: take (Z.to_nat (L - 2)) ids ++ [sep_token_id tk]).
  { unfold DatasetClass.tokenize_sequence, encode_plus.
    fold tk L tokens ids. rewrite prepare_for_model_closed by exact HL.
    replace (Z.to_nat (L - 2 - len ids)) with 0%nat
      by (unfold len, ids; rewrite length_map; lia).
    reflexivity. }
  split; [exact Hplain|].
  split; [apply prepare_for_model_length; exact HL|].
  split.
  { destruct (mask_and_tokenize_closed d sequence g Hne) as (g1 & Heq & _).
    cbn zeta in Heq. fold tk p L tokens masked in Heq.
    eexists _, g1. split; [exact Heq|]. cbn [fst snd].
    split; [apply prepare_for_model_length; exact HL|].
    split; [apply (prepare_for_model_closed tk (get_input_ids tk masked) L HL)|].
    intros Hre. unfold get_input_ids. rewrite concat_retokenized.
    - rewrite prepare_for_model_closed by exact HL.
      replace (map (convert_tokens_to_ids tk) masked)
        with (imap (λ i t, if draw_below 53 p g i then mask_token_id tk
                           else convert_tokens_to_ids tk t) tokens).
      + replace (Z.to_nat (L - 2 - len _)) with 0%nat
          by (unfold len; rewrite length_imap; lia).
        reflexivity.
      + apply list_eq. intros i. unfold masked.
        rewrite list_lookup_fmap, !list_lookup_imap.
        destruct (tokens !! i); [|reflexivity]. cbn.
        destruct (draw_below 53 p g i); reflexivity.
    - apply Forall_lookup. intros i x. unfold masked. rewrite list_lookup_imap.
      destruct (tokens !! i) as [t|] eqn:Hi; [|discriminate]. cbn.
      unfold retokenizes_to_itself in Hre. apply Forall_cons in Hre as [Hm Hts].
      destruct (draw_below 53 p g i); intros [= <-]; [exact Hm|].
      exact (Forall_lookup_1 _ _ _ _ Hts Hi). }
  destruct (random_mask_lengths_agree pt sequence g HV)
    as (i' & am & lbl & g' & Heq & Hn & _).
  exists (i', am, lbl), g'. split; [exact Heq | exact Hn].
Qed.

Lemma string_level_truncates_witness :
  (DatasetClass.tokenize_sequence ds_small pair_text).1 = [2; 30; 21; 3]
  ∧ (∃ r g1,
       DatasetClass.mask_and_tokenize_sequence ds_small pair_text g_zero = Ok (r, g1)
       ∧ len r.1.1 = 4 ∧ r.1.1 = [2; 4; 4; 3])
  ∧ ∃ r g', PreTraining.random_mask_sequence pt_default pair_text g_zero = Ok (r, g')
            ∧ length r.1.1 = 7%nat.
Proof.
  destruct (string_level_truncates ds_small pt_default pair_text g_zero)
    as (H1 & _ & (r & g1 & Heq & Hlen & Hids & _) & H4);
    [vm_compute; discriminate | reflexivity | reflexivity |].
  split; [exact H1|]. split; [|exact H4].
  exists r, g1. split; [exact Heq|]. split; [exact Hlen | exact Hids].
Defined.

(** ** Where the mask token lands *)

(** When the tokens re-tokenize to themselves, the encoder sees one id per
    decided token. *)
Lemma mask_and_tokenize_ids (self : DatasetClass.ProteinInteractionDataset)
    (sequence : string) (g : Rng) (r : list Z * list Z * list Z) (g' : Rng) :
  let tk := DatasetClass.tokenizer self in
  let p := DatasetClass.mask_probability self in
  let tokens := tokenize tk sequence in
  retokenizes_to_itself tk tokens →
  DatasetClass.mask_and_tokenize_sequence self sequence g = Ok (r, g') →
  r.1.1
  = (prepare_for_model tk true
       (imap (λ i t, if draw_below 53 p g i then mask_token_id tk
                     else convert_tokens_to_ids tk t) tokens)
       (DatasetClass.max_length self)).1.
Proof.
  intros tk p tokens Hre Heq.
  destruct (mask_and_tokenize_inv self sequence g r g' Heq) as (_ & -> & _).
  cbn [fst]. fold tk p tokens. unfold get_input_ids. rewrite concat_retokenized.
  - do 2 f_equal. apply list_eq. intros i.
    rewrite list_lookup_fmap, !list_lookup_imap.
    destruct (tokens !! i); [|reflexivity]. cbn.
    destruct (draw_below 53 p g i); reflexivity.
  - apply Forall_lookup. intros i x. rewrite list_lookup_imap.
    destruct (tokens !! i) as [t|] eqn:Hi; [|discriminate]. cbn.
    unfold retokenizes_to_itself in Hre. apply Forall_cons in Hre as [Hm Hts].
    destruct (draw_below 53 p g i); intros [= <-]; [exact Hm|].
    exact (Forall_lookup_1 _ _ _ _ Hts Hi).
Qed.

(** C10 as stated fails when two neighbours are both masked: the label of
    the second sits at its own index, and the mask id of the first has been
    shifted onto that very index. *)
Lemma adjacent_masks_coincide :
  ∃ r g',
    DatasetClass.mask_and_tokenize_sequence ds_wide pair_text g_zero = Ok (r, g')
    ∧ r.2 !! 1%nat = Some 21 ∧ 21 ≠ IGNORE
    ∧ r.1.1 !! 1%nat = Some (mask_token_id prot_tokenizer).
Proof.
  destruct (mask_and_tokenize_closed ds_wide pair_text g_zero) as (g' & Heq & _);
    [vm_compute; discriminate|].
  eexists _, g'. split; [exact Heq|].
  split; [vm_compute; reflexivity|].
  split; [unfold IGNORE; lia | vm_compute; reflexivity].
Qed.

(** C10, amended.  When token [i] is masked, survives truncation
    ([i + 3 <= max_length]) and the tokens re-tokenize to themselves, its
    original id is [labels[i]] and the mask id is [input_ids[i+1]].  What
    [input_ids[i]] holds is the classifier id for [i = 0] and otherwise the
    id of token [i-1] after its own decision: the mask id if that token was
    masked too. *)
Theorem mask_shifted_by_cls
    (self : DatasetClass.ProteinInteractionDataset) (sequence : string) (g : Rng)
    (i : nat) (t : string) :
  let tk := DatasetClass.tokenizer self in
  let p := DatasetClass.mask_probability self in
  let tokens := tokenize tk sequence in
  retokenizes_to_itself tk tokens →
  tokens !! i = Some t →
  draw_below 53 p g i = true →
  Z.of_nat i + 3 ≤ DatasetClass.max_length self →
  ∃ r g',
    DatasetClass.mask_and_tokenize_sequence self sequence g = Ok (r, g')
    ∧ r.2 !! i = Some (convert_tokens_to_ids tk t)
    ∧ r.1.1 !! S i = Some (mask_token_id tk)
    ∧ (i = 0%nat → r.1.1 !! i = Some (cls_token_id tk))
    ∧ (∀ j t', i = S j → tokens !! j = Some t' →
         r.1.1 !! i = Some (if draw_below 53 p g j then mask_token_id tk
                            else convert_tokens_to_ids tk t')).
Proof.
  intros tk p tokens Hre Hi Hsel HL.
  assert (Hne : tokens ≠ []) by (intros He; rewrite He in Hi; discriminate).
  destruct (mask_and_tokenize_returns self sequence g Hne) as (r & g' & Heq).
  exists r, g'. split; [exact Heq|].
  pose proof (mask_and_tokenize_ids self sequence g r g' Hre Heq) as Hids.
  fold tk p tokens in Hids.
  split.
  { pose proof (mask_and_tokenize_label self sequence g i t r g' Hi Heq) as H.
    cbn zeta in H. fold p in H. rewrite Hsel in H. exact H. }
  split.
  { rewrite Hids. apply prepare_for_model_shift; [exact HL|].
    rewrite list_lookup_imap, Hi. cbn. rewrite Hsel. reflexivity. }
  split.
  { intros ->. rewrite Hids. apply prepare_for_model_head. lia. }
  intros j t' -> Hj. rewrite Hids. apply prepare_for_model_shift; [lia|].
  rewrite list_lookup_imap, Hj. reflexivity.
Qed.

Lemma mask_shifted_by_cls_witness :
  ∃ r g',
    DatasetClass.mask_and_tokenize_sequence ds_wide pair_text g_zero = Ok (r, g')
    ∧ r.2 !! 1%nat = Some 21 ∧ r.1.1 !! 2%nat = Some 4 ∧ r.1.1 !! 1%nat = Some 4.
Proof.
  destruct (mask_shifted_by_cls ds_wide pair_text g_zero 1 "M")
    as (r & g' & Heq & H1 & H2 & _ & H4).
  - change (Forall (λ t, tokenize prot_tokenizer t = [t])
              ("[MASK]" :: tokenize prot_tokenizer pair_text)).
    rewrite split_pair_text.
    repeat (apply Forall_cons_2; [reflexivity|]). apply Forall_nil_2.
  - reflexivity.
  - reflexivity.
  - vm_compute. discriminate.
  - exists r, g'. split; [exact Heq|]. split; [exact H1|]. split; [exact H2|].
    exact (H4 0%nat "[ENTITY1]" eq_refl eq_refl).
Defined.

(** ** Missing columns *)

Lemma iloc_missing_column (df : DataFrame) (idx : Z) (row : gmap string string)
    (c : string) :
  iloc df idx = Ok row → c ∉ columns df → row !! c = None.
Proof.
  unfold iloc. intros Hrow Hc.
  destruct ((0 <=? _) && _); [|discriminate].
  destruct (rows df !! _) as [cells|]; [|discriminate].
  injection Hrow as <-. apply not_elem_of_list_to_map_1.
  intros Hin. apply list_elem_of_fmap in Hin as [[a b] [-> Hab]].
  apply elem_of_zip_l in Hab. exact (Hc Hab).
Qed.

Lemma iloc_in_range (df : DataFrame) (idx : Z) :
  in_range df idx → ∃ row, iloc df idx = Ok row.
Proof.
  unfold in_range, iloc. intros Hr.
  set (n := Z.of_nat (length (rows df))) in *.
  set (i := if idx <? 0 then idx + n else idx).
  assert (Hi : 0 ≤ i < n) by (subst i; destruct (Z.ltb_spec idx 0); lia).
  destruct (Z.leb_spec 0 i); [|lia]. destruct (Z.ltb_spec i n); [|lia].
  cbn [andb].
  destruct (lookup_lt_is_Some_2 (rows df) (Z.to_nat i)) as [cells Hcells]; [lia|].
  rewrite Hcells. eauto.
Qed.

Lemma getitem_dict_none {V} (d : gmap string V) (key : string) :
  d !! key = None → getitem_dict d key = Raise (KeyError key).
Proof. unfold getitem_dict. intros ->. reflexivity. Qed.

Lemma getitem_dict_some {V} (d : gmap string V) (key : string) (v : V) :
  d !! key = Some v → getitem_dict d key = Ok v.
Proof. unfold getitem_dict. intros ->. reflexivity. Qed.

Ltac read_column row col :=
  let E := fresh "E" in
  destruct (row !! col) eqn:E;
  [ rewrite (getitem_dict_some _ _ _ E); cbn [mbind result_bind]
  | rewrite (getitem_dict_none _ _ E); cbn [mbind result_bind];
    eexists; split; [|reflexivity];
    repeat first [apply list_elem_of_here | apply list_elem_of_further] ].

(** C8 as stated fails: the constructor accepts a frame that lacks
    [Sequence_A], and the access to row 0 is what raises. *)
Lemma constructor_accepts_headless_frame :
  ∃ ds, DatasetClass.init headless_df prot_tokenizer 512 (15 # 100) = Ok ds
        ∧ ("Sequence_A" ∉ columns headless_df)
        ∧ DatasetClass.getitem ds 0 g_zero = Raise (KeyError "Sequence_A").
Proof.
  eexists. split; [reflexivity|]. split; [|vm_compute; reflexivity].
  cbn. rewrite !not_elem_of_cons. repeat split; try discriminate.
  apply not_elem_of_nil.
Qed.

(** C8, amended.  Both constructors store the frame unchecked and succeed
    for every frame.  A required column that the frame lacks is met at
    access: every [__getitem__] at an index in range raises [KeyError] for a
    required column (in the pre-training dataset this needs one of the two
    modes to be switched on; its required columns are the two sequences). *)
Theorem missing_column_fails_at_access
    (df : DataFrame) (tk : Tokenizer) (L : Z) (p : Q) (modes : option (list string)) :
  (∃ ds, DatasetClass.init df tk L p = Ok ds
     ∧ DatasetClass.dataframe ds = df
     ∧ ∀ c, c ∈ required_columns → c ∉ columns df →
       ∀ idx g, in_range df idx →
         ∃ c', c' ∈ required_columns
               ∧ DatasetClass.getitem ds idx g = Raise (KeyError c'))
  ∧ (∃ ds, PreTraining.init df tk p modes = Ok ds
     ∧ PreTraining.dataframe ds = df
     ∧ ∀ c, c ∈ ["Sequence_A"; "Sequence_B"] → c ∉ columns df →
       "global_masked" ∈ PreTraining.modes ds ∨ "local" ∈ PreTraining.modes ds →
       ∀ idx g, in_range df idx →
         ∃ c', c' ∈ ["Sequence_A"; "Sequence_B"]
               ∧ PreTraining.getitem ds idx g = Raise (KeyError c')).
Proof.
  split.
  - eexists. split; [reflexivity|]. split; [reflexivity|].
    intros c Hc Hmiss idx g Hr.
    destruct (iloc_in_range df idx Hr) as [row Hrow].
    pose proof (iloc_missing_column df idx row c Hrow Hmiss) as Hnone.
    unfold DatasetClass.getitem. cbn [DatasetClass.dataframe].
    rewrite Hrow. cbn [mbind result_bind]. unfold required_columns in *.
    read_column row "Sequence_A". read_column row "Sequence_B".
    read_column row "masked_sequence_A". read_column row "masked_sequence_B".
    exfalso. rewrite !elem_of_cons in Hc.
    destruct Hc as [->|[->|[->|[->|Hc]]]]; try congruence. inversion Hc.
  - eexists. split; [reflexivity|]. split; [reflexivity|].
    intros c Hc Hmiss Hmode idx g Hr.
    destruct (iloc_in_range df idx Hr) as [row Hrow].
    pose proof (iloc_missing_column df idx row c Hrow Hmiss) as Hnone.
    unfold PreTraining.getitem. cbn [PreTraining.dataframe].
    rewrite Hrow. cbn [mbind result_bind].
    assert (Hbad : row !! "Sequence_A" = None ∨ row !! "Sequence_B" = None).
    { rewrite !elem_of_cons in Hc. destruct Hc as [->|[->|Hc]]; auto. inversion Hc. }
    destruct (bool_decide ("global_masked" ∈ _)) eqn:Hg.
    + read_column row "Sequence_A". read_column row "Sequence_B".
      exfalso. destruct Hbad; congruence.
    + cbn [mbind result_bind].
      destruct (bool_decide ("local" ∈ _)) eqn:Hl.
      * read_column row "Sequence_A". read_column row "Sequence_B".
        exfalso. destruct Hbad; congruence.
      * exfalso. apply bool_decide_eq_false in Hg, Hl. destruct Hmode; auto.
Qed.

Lemma missing_column_fails_at_access_witness :
  ∃ ds c', DatasetClass.init headless_df prot_tokenizer 512 (15 # 100) = Ok ds
           ∧ c' ∈ required_columns
           ∧ DatasetClass.getitem ds 0 g_zero = Raise (KeyError c').
Proof.
  destruct (missing_column_fails_at_access headless_df prot_tokenizer 512
              (15 # 100) None) as [(ds & Hinit & _ & Hget) _].
  destruct (Hget "Sequence_A") with (idx := 0) (g := g_zero)
    as (c' & Hc' & Hraise).
  - left.
  - cbn. rewrite !not_elem_of_cons. repeat split; try discriminate.
    apply not_elem_of_nil.
  - split; vm_compute; [discriminate | reflexivity].
  - exists ds, c'. auto.
Defined.

(** ** The collator of [DatasetClass.py] *)

Lemma foldl_max_spec (l : list Z) : ∀ x,
  (foldl Z.max x l = x ∨ foldl Z.max x l ∈ l)
  ∧ x ≤ foldl Z.max x l ∧ Forall (λ y, y ≤ foldl Z.max x l) l.
Proof.
  induction l as [|y l IH]; intros x; cbn [foldl].
  - split; [left; reflexivity|]. split; [lia | constructor].
  - destruct (IH (x `max` y)) as (Hin & Hle & Hall).
    split; [|split; [lia | constructor; [lia | exact Hall]]].
    destruct Hin as [Heq|Hin]; [|right; right; exact Hin].
    rewrite Heq. destruct (Z.max_spec x y) as [[_ ->]|[_ ->]];
      [right; left | left; reflexivity].
Qed.

(** [max] returns a member of the sequence that bounds all the others. *)
Lemma py_max_spec (l : list Z) (m : Z) :
  py_max l = Ok m → m ∈ l ∧ Forall (λ y, y ≤ m) l.
Proof.
  destruct l as [|x l]; [discriminate|]. cbn [py_max]. intros [= <-].
  destruct (foldl_max_spec l x) as (Hin & Hle & Hall). split.
  - destruct Hin as [->|Hin]; [left | right; exact Hin].
  - constructor; assumption.
Qed.

Lemma py_max_nonempty (l : list Z) : l ≠ [] → ∃ m, py_max l = Ok m.
Proof. destruct l; [congruence | eauto]. Qed.

Lemma rmapM_ok {A B} (f : A → result B) (l : list A) :
  (∀ a, a ∈ l → is_ok (f a)) → ∃ bs, rmapM f l = Ok bs.
Proof.
  induction l as [|a l IH]; intros H; [eexists; reflexivity|].
  destruct (H a) as [b Hb]; [left|].
  destruct IH as [bs Hbs]; [intros a' Ha'; apply H; right; exact Ha'|].
  exists (b :: bs). cbn [rmapM]. rewrite Hb. cbn. rewrite Hbs. reflexivity.
Qed.

Lemma rmapM_Forall {A B} (f : A → result B) (P : B → Prop) (l : list A) (bs : list B) :
  rmapM f l = Ok bs → (∀ a b, a ∈ l → f a = Ok b → P b) → Forall P bs.
Proof.
  revert bs. induction l as [|a l IH]; intros bs; cbn [rmapM].
  - intros [= <-] _. constructor.
  - destruct (f a) as [b|e] eqn:Hf; cbn; [|discriminate].
    destruct (rmapM f l) as [bs'|e]; cbn; [|discriminate].
    intros [= <-] HP. constructor.
    + apply (HP a b); [left | exact Hf].
    + apply IH; [reflexivity|]. intros a' b' Ha'. apply HP. right. exact Ha'.
Qed.

Lemma torch_stack_ok (ts : list (list Z)) (n : nat) :
  ts ≠ [] → Forall (λ t, length t = n) ts → torch_stack ts = Ok ts.
Proof.
  destruct ts as [|t ts]; [congruence|]. intros _ Hall.
  apply Forall_cons in Hall as [Ht Hts]. cbn [torch_stack].
  replace (forallb _ ts) with true; [reflexivity|].
  symmetry. apply forallb_forall. intros t' Ht'.
  apply Nat.eqb_eq. rewrite Ht. rewrite Forall_forall in Hts.
  apply Hts. apply list_elem_of_In. exact Ht'.
Qed.

Lemma torch_stack_inv (ts out : list (list Z)) :
  torch_stack ts = Ok out → out = ts.
Proof.
  destruct ts as [|t ts]; [discriminate|]. cbn [torch_stack].
  destruct (forallb _ ts); [intros [= <-]; reflexivity | discriminate].
Qed.

Lemma pad_item_ok (L : Z) (key : string) (item : gmap string (list Z)) (t : list Z) :
  item !! key = Some t → len t ≤ L →
  DatasetClass.pad_item L key item
  = Ok (t ++ replicate (Z.to_nat (L - len t)) (DatasetClass.fill_value key)).
Proof.
  intros Ht Hle. unfold DatasetClass.pad_item.
  rewrite (getitem_dict_some _ _ _ Ht). cbn [mbind result_bind].
  unfold torch_full. destruct (Z.ltb_spec (L - len t) 0); [lia|]. reflexivity.
Qed.

Lemma pad_item_inv (L : Z) (key : string) (item : gmap string (list Z)) (row : list Z) :
  DatasetClass.pad_item L key item = Ok row →
  ∃ t, item !! key = Some t ∧ len t ≤ L
       ∧ row = t ++ replicate (Z.to_nat (L - len t)) (DatasetClass.fill_value key)
       ∧ len row = L.
Proof.
  unfold DatasetClass.pad_item, getitem_dict.
  destruct (item !! key) as [t|]; [|discriminate]. cbn [mbind result_bind].
  unfold torch_full. destruct (Z.ltb_spec (L - len t) 0); [discriminate|].
  cbn. intros [= <-]. exists t. repeat split; [lia|].
  unfold len in *. rewrite length_app, length_replicate. lia.
Qed.

Lemma pad_item_missing (L : Z) (key : string) (item : gmap string (list Z)) :
  item !! key = None → DatasetClass.pad_item L key item = Raise (KeyError key).
Proof.
  intros H. unfold DatasetClass.pad_item. rewrite (getitem_dict_none _ _ H).
  reflexivity.
Qed.

(** One round of the key loop, when every example has the key within the
    batch length. *)
Lemma collate_key_ok (batch : list (gmap string (list Z))) (L : Z)
    (pb : gmap string (list (list Z))) (key : string) :
  batch ≠ [] →
  (∀ item, item ∈ batch → ∃ t, item !! key = Some t ∧ len t ≤ L) →
  ∃ rows, DatasetClass.collate_key batch L pb key = Ok (<[key := rows]> pb).
Proof.
  intros Hne Hall. unfold DatasetClass.collate_key.
  destruct (rmapM_ok (DatasetClass.pad_item L key) batch) as [rows Hrows].
  { intros item Hin. destruct (Hall item Hin) as (t & Ht & Hle).
    eexists. apply pad_item_ok; eassumption. }
  rewrite Hrows. cbn [mbind result_bind].
  rewrite (torch_stack_ok rows (Z.to_nat L)).
  - cbn. eauto.
  - apply rmapM_length in Hrows. destruct batch; [congruence|].
    destruct rows; [discriminate | congruence].
  - eapply rmapM_Forall; [exact Hrows|].
    intros item row _ Hrow. apply pad_item_inv in Hrow as (_ & _ & _ & _ & Hlen).
    unfold len in Hlen. lia.
Qed.

Lemma collate_key_inv (batch : list (gmap string (list Z))) (L : Z)
    (pb out : gmap string (list (list Z))) (key : string) :
  DatasetClass.collate_key batch L pb key = Ok out →
  ∃ rows, rmapM (DatasetClass.pad_item L key) batch = Ok rows
          ∧ out = <[key := rows]> pb.
Proof.
  unfold DatasetClass.collate_key.
  destruct (rmapM _ batch) as [rows|]; [|discriminate]. cbn [mbind result_bind].
  destruct (torch_stack rows) as [st|] eqn:Hst; [|discriminate].
  cbn. intros [= <-]. apply torch_stack_inv in Hst as ->. eauto.
Qed.

(** The keys of a collated batch come from the key list, each with the rows
    that padding the examples gives. *)
Lemma collate_keys_inv (batch : list (gmap string (list Z))) (L : Z)
    (keys : list string) : ∀ (pb out : gmap string (list (list Z))),
  rfoldl (DatasetClass.collate_key batch L) pb keys = Ok out →
  ∀ key rows, out !! key = Some rows →
    (key ∈ keys ∧ rmapM (DatasetClass.pad_item L key) batch = Ok rows)
    ∨ pb !! key = Some rows.
Proof.
  induction keys as [|k keys IH]; intros pb out; cbn [rfoldl].
  - intros [= <-] key rows H. right. exact H.
  - destruct (DatasetClass.collate_key batch L pb k) as [pb'|] eqn:Hk;
      [|discriminate].
    cbn [mbind result_bind]. intros Hrest key rows Hlook.
    apply collate_key_inv in Hk as (rows' & Hrows' & ->).
    destruct (IH _ _ Hrest key rows Hlook) as [[Hin Hr]|Hpb].
    + left. split; [right; exact Hin | exact Hr].
    + destruct (decide (k = key)) as [->|Hne].
      * rewrite lookup_insert_eq in Hpb. injection Hpb as <-.
        left. split; [left | exact Hrows'].
      * rewrite lookup_insert_ne in Hpb by exact Hne. right. exact Hpb.
Qed.

Lemma collate_key_missing_head (item : gmap string (list Z))
    (rest : list (gmap string (list Z))) (L : Z)
    (pb : gmap string (list (list Z))) (key : string) :
  item !! key = None →
  DatasetClass.collate_key (item :: rest) L pb key = Raise (KeyError key).
Proof.
  intros H. unfold DatasetClass.collate_key. cbn [rmapM].
  rewrite (pad_item_missing _ _ _ H). reflexivity.
Qed.

Lemma joint_len_inv (item : gmap string (list Z)) (x : Z) :
  DatasetClass.joint_len item = Ok x →
  ∃ a b, item !! "input_ids_global" = Some a ∧ item !! "input_ids_local" = Some b
         ∧ x = len a `max` len b.
Proof.
  unfold DatasetClass.joint_len, getitem_dict.
  destruct (item !! "input_ids_global") as [a|]; [|discriminate].
  cbn [mbind result_bind].
  destruct (item !! "input_ids_local") as [b|]; [|discriminate].
  cbn. intros [= <-]. eauto.
Qed.

(** The batch length bounds the global and the local ids of every example,
    and is the length of one of them. *)
Lemma joint_len_bound (batch : list (gmap string (list Z))) (lens : list Z) (L : Z) :
  rmapM DatasetClass.joint_len batch = Ok lens → py_max lens = Ok L →
  (∀ item, item ∈ batch →
     ∃ a b, item !! "input_ids_global" = Some a ∧ item !! "input_ids_local" = Some b
            ∧ len a ≤ L ∧ len b ≤ L)
  ∧ (∃ item a b, item ∈ batch ∧ item !! "input_ids_global" = Some a
       ∧ item !! "input_ids_local" = Some b ∧ L = len a `max` len b).
Proof.
  intros Hlens Hmax. apply py_max_spec in Hmax as [Hin Hall]. split.
  - intros item Hitem. apply list_elem_of_lookup in Hitem as [i Hi].
    destruct (rmapM_lookup _ _ _ _ _ Hlens Hi) as (x & Hx & Hxi).
    apply joint_len_inv in Hx as (a & b & Ha & Hb & ->).
    pose proof (Forall_lookup_1 _ _ _ _ Hall Hxi) as Hle. cbn in Hle.
    exists a, b. repeat split; [exact Ha | exact Hb | lia | lia].
  - apply list_elem_of_lookup in Hin as [i Hi].
    destruct (lookup_lt_is_Some_2 batch i) as [item Hitem].
    { rewrite <- (rmapM_length _ _ _ Hlens). eapply lookup_lt_Some. exact Hi. }
    destruct (rmapM_lookup _ _ _ _ _ Hlens Hitem) as (x & Hx & Hxi).
    assert (x = L) as -> by congruence.
    apply joint_len_inv in Hx as (a & b & Ha & Hb & HL).
    exists item, a, b. split; [eapply list_elem_of_lookup_2; exact Hitem|]. auto.
Qed.

(** What [__getitem__] of [DatasetClass.py] returns: the five keys, with
    masks as long as their ids. *)
Lemma produced_shape (item : gmap string (list Z)) :
  produced item →
  ∃ ig ag il al ll,
    item = <["input_ids_global" := ig]> (<["attention_mask_global" := ag]>
           (<["input_ids_local" := il]> (<["attention_mask_local" := al]>
           (<["labels_local" := ll]> ∅))))
    ∧ length ig = length ag ∧ length il = length al.
Proof.
  intros (self & idx & g & g' & H). unfold DatasetClass.getitem in H.
  destruct (iloc _ idx) as [row|]; [|discriminate]. cbn [mbind result_bind] in H.
  destruct (getitem_dict row "Sequence_A") as [sa|]; [|discriminate].
  cbn [mbind result_bind] in H.
  destruct (getitem_dict row "Sequence_B") as [sb|]; [|discriminate].
  cbn [mbind result_bind] in H.
  destruct (getitem_dict row "masked_sequence_A") as [ma|]; [|discriminate].
  cbn [mbind result_bind] in H.
  destruct (getitem_dict row "masked_sequence_B") as [mb|]; [|discriminate].
  cbn [mbind result_bind] in H.
  pose proof (prepare_lengths_agree (DatasetClass.tokenizer self) true
                (map (convert_tokens_to_ids (DatasetClass.tokenizer self))
                     (tokenize (DatasetClass.tokenizer self) (render_pair sa sb)))
                (DatasetClass.max_length self)) as Hg.
  fold (encode_plus (DatasetClass.tokenizer self) true (render_pair sa sb)
          (DatasetClass.max_length self)) in Hg.
  fold (DatasetClass.tokenize_sequence self (render_pair sa sb)) in Hg.
  destruct (DatasetClass.tokenize_sequence self (render_pair sa sb)) as [ig ag].
  destruct (DatasetClass.mask_and_tokenize_sequence self (render_pair ma mb) g)
    as [[r g'']|] eqn:El; [|discriminate].
  apply mask_and_tokenize_inv in El as (_ & Hr & _). cbn zeta in Hr.
  set (X := prepare_for_model _ _ _ _) in Hr.
  assert (Hl : length X.1 = length X.2) by apply prepare_lengths_agree.
  destruct X as [il al]. subst r. cbn [mbind result_bind fst snd] in H.
  injection H as <- <-. eexists ig, ag, il, al, _. split; [reflexivity|].
  split; [exact Hg | exact Hl].
Qed.

Lemma labels_local_not_a_key : "labels_local" ∉ DatasetClass.collate_keys.
Proof.
  unfold DatasetClass.collate_keys. rewrite !not_elem_of_cons.
  repeat split; try discriminate. apply not_elem_of_nil.
Qed.

(** C9.  Every example that [__getitem__] of [DatasetClass.py] returns has a
    ['labels_local'] entry and no ['labels_global'] entry.  On a non-empty
    batch of such examples [collate_fn] pads the first two keys of its list
    and then raises [KeyError] at ['labels_global'].  ['labels_local'] is not
    in the key list, so no batch that [collate_fn] returns has it. *)
Theorem collate_fn_raises_on_own_examples (batch : list (gmap string (list Z))) :
  batch ≠ [] → Forall produced batch →
  Forall (λ item, is_Some (item !! "labels_local") ∧ item !! "labels_global" = None)
         batch
  ∧ DatasetClass.collate_fn batch = Raise (KeyError "labels_global")
  ∧ ∀ batch' out, DatasetClass.collate_fn batch' = Ok out →
                  out !! "labels_local" = None.
Proof.
  intros Hne Hprod.
  assert (Hshape : ∀ item, item ∈ batch →
            ∃ ig ag il, item !! "input_ids_global" = Some ig
              ∧ item !! "attention_mask_global" = Some ag
              ∧ item !! "input_ids_local" = Some il
              ∧ is_Some (item !! "labels_local")
              ∧ item !! "labels_global" = None
              ∧ length ig = length ag).
  { intros item Hin. rewrite Forall_forall in Hprod.
    destruct (produced_shape item (Hprod item Hin))
      as (ig & ag & il & al & ll & -> & Hg & _).
    exists ig, ag, il. repeat split; try exact Hg; try reflexivity.
    exists ll. reflexivity. }
  split; [|split].
  - apply Forall_forall. intros item Hin.
    destruct (Hshape item Hin) as (_ & _ & _ & _ & _ & _ & Hll & Hlg & _). auto.
  - unfold DatasetClass.collate_fn.
    destruct (rmapM_ok DatasetClass.joint_len batch) as [lens Hlens].
    { intros item Hin. destruct (Hshape item Hin) as (ig & ag & il & Hig & _ & Hil & _).
      eexists. unfold DatasetClass.joint_len.
      rewrite (getitem_dict_some _ _ _ Hig), (getitem_dict_some _ _ _ Hil).
      reflexivity. }
    rewrite Hlens. cbn [mbind result_bind].
    destruct (py_max_nonempty lens) as [L HL].
    { apply rmapM_length in Hlens. destruct lens, batch; try discriminate; congruence. }
    rewrite HL. cbn [mbind result_bind].
    destruct (joint_len_bound batch lens L Hlens HL) as [Hbound _].
    unfold DatasetClass.collate_keys. cbn [rfoldl].
    destruct (collate_key_ok batch L ∅ "input_ids_global" Hne) as [r1 ->].
    { intros item Hin. destruct (Hbound item Hin) as (a & b & Ha & _ & Hle & _). eauto. }
    cbn [mbind result_bind].
    destruct (collate_key_ok batch L (<["input_ids_global" := r1]> ∅)
                "attention_mask_global" Hne) as [r2 ->].
    { intros item Hin. destruct (Hbound item Hin) as (a & b & Ha & _ & Hle & _).
      destruct (Hshape item Hin) as (ig & ag & _ & Hig & Hag & _ & _ & _ & Hlen).
      exists ag. split; [exact Hag|]. unfold len in *.
      assert (a = ig) as -> by congruence. lia. }
    cbn [mbind result_bind].
    destruct batch as [|item rest]; [congruence|].
    rewrite collate_key_missing_head; [reflexivity|].
    destruct (Hshape item) as (_ & _ & _ & _ & _ & _ & _ & Hlg & _); [left|].
    exact Hlg.
  - intros batch' out. unfold DatasetClass.collate_fn.
    destruct (rmapM DatasetClass.joint_len batch') as [lens|]; [|discriminate].
    cbn [mbind result_bind].
    destruct (py_max lens) as [L|]; [|discriminate]. cbn [mbind result_bind].
    intros Hout. destruct (out !! "labels_local") as [rows|] eqn:Hl; [|reflexivity].
    destruct (collate_keys_inv _ _ _ _ _ Hout _ _ Hl) as [[Hin _]|Hempty].
    + destruct (labels_local_not_a_key Hin).
    + rewrite lookup_empty in Hempty. discriminate.
Qed.

Lemma collate_fn_raises_on_own_examples_witness :
  is_Some (item_wide !! "labels_local")
  ∧ DatasetClass.collate_fn [item_wide] = Raise (KeyError "labels_global").
Proof.
  destruct (collate_fn_raises_on_own_examples [item_wide]) as (H1 & H2 & _).
  - discriminate.
  - constructor; [|constructor].
    assert (Hok : is_okb (DatasetClass.getitem ds_wide 0 g_zero) = true)
      by (vm_compute; reflexivity).
    unfold item_wide.
    destruct (DatasetClass.getitem ds_wide 0 g_zero) as [[item g']|e] eqn:E.
    + exists ds_wide, 0, g_zero, g'. exact E.
    + discriminate Hok.
  - apply Forall_cons in H1 as [[H1 _] _]. split; [exact H1 | exact H2].
Defined.

(** ** The collator of the pre-training notebook *)

Lemma max_len_ge (seqs : list (list Z)) (s : list Z) :
  s ∈ seqs → (length s ≤ max_len seqs)%nat.
Proof.
  induction seqs as [|s' seqs IH]; intros Hin; [inversion Hin|].
  cbn [max_len foldr]. fold (max_len seqs).
  apply elem_of_cons in Hin as [->|Hin]; [lia|]. specialize (IH Hin). lia.
Qed.

Lemma max_len_attained (seqs : list (list Z)) :
  seqs ≠ [] → ∃ s, s ∈ seqs ∧ length s = max_len seqs.
Proof.
  induction seqs as [|s seqs IH]; [congruence|]. intros _.
  cbn [max_len foldr]. fold (max_len seqs).
  destruct seqs as [|s' seqs'].
  - exists s. split; [left|]. cbn. lia.
  - destruct IH as (t & Ht & Hlen); [discriminate|].
    destruct (Nat.max_spec (length s) (max_len (s' :: seqs'))) as [[_ ->]|[_ ->]].
    + exists t. split; [right; exact Ht | exact Hlen].
    + exists s. split; [left | reflexivity].
Qed.

Lemma pad_rows_lookup (pv : Z) (seqs : list (list Z)) (i : nat) (s : list Z) :
  seqs !! i = Some s →
  pad_rows pv seqs !! i = Some (s ++ replicate (max_len seqs - length s) pv).
Proof. intros H. unfold pad_rows. rewrite list_lookup_fmap, H. reflexivity. Qed.

Lemma pad_rows_length (pv : Z) (seqs : list (list Z)) :
  length (pad_rows pv seqs) = length seqs.
Proof. unfold pad_rows. apply length_map. Qed.

(** Every padded row has the length of the longest sequence. *)
Lemma pad_rows_widths (pv : Z) (seqs : list (list Z)) :
  Forall (λ row, length row = max_len seqs) (pad_rows pv seqs).
Proof.
  unfold pad_rows. apply Forall_fmap, Forall_forall. intros s Hs. cbn.
  rewrite length_app, length_replicate. pose proof (max_len_ge seqs s Hs). lia.
Qed.

Lemma pad_sequence_ok (seqs : list (list Z)) (pv : Z) :
  seqs ≠ [] → pad_sequence seqs pv = Ok (pad_rows pv seqs).
Proof. destruct seqs; [congruence | reflexivity]. Qed.

(** The tensors collected for a key are those of the examples that have
    the key. *)
Lemma elem_of_collect (key : string) (batch : list (gmap string (list Z)))
    (t : list Z) :
  t ∈ PreTraining.collect key batch ↔ ∃ item, item ∈ batch ∧ item !! key = Some t.
Proof. unfold PreTraining.collect. apply list_elem_of_omap. Qed.

Lemma channel_keys_distinct (mode : string) :
  "input_ids_" +:+ mode ≠ "attention_mask_" +:+ mode
  ∧ "input_ids_" +:+ mode ≠ "labels_" +:+ mode
  ∧ "attention_mask_" +:+ mode ≠ "labels_" +:+ mode.
Proof. repeat split; discriminate. Qed.

(** One round of the mode loop, read backwards from a key of its result. *)
Lemma collate_mode_lookup (batch : list (gmap string (list Z)))
    (bd out : gmap string (list (list Z))) (mode : string) :
  PreTraining.collate_mode batch bd mode = Ok out →
  ∀ key rows, out !! key = Some rows →
    bd !! key = Some rows
    ∨ ∃ kind pv, (kind, pv) ∈ channel_kinds ∧ key = kind +:+ mode
                 ∧ PreTraining.collect key batch ≠ []
                 ∧ rows = pad_rows pv (PreTraining.collect key batch).
Proof.
  unfold PreTraining.collate_mode.
  destruct (PreTraining.collect ("input_ids_" +:+ mode) batch) as [|i0 I] eqn:HI.
  { intros [= <-] key rows H. left. exact H. }
  destruct (PreTraining.collect ("attention_mask_" +:+ mode) batch) as [|m0 M] eqn:HM;
    [discriminate|].
  cbn [pad_sequence mbind result_bind].
  assert (Hids : ∀ key rows bd',
            (<["input_ids_" +:+ mode := pad_rows 0 (i0 :: I)]> bd' : gmap _ _) !! key
              = Some rows →
            bd' !! key = Some rows
            ∨ ∃ kind pv, (kind, pv) ∈ channel_kinds ∧ key = kind +:+ mode
                ∧ PreTraining.collect key batch ≠ []
                ∧ rows = pad_rows pv (PreTraining.collect key batch)).
  { intros key rows bd' H.
    destruct (decide ("input_ids_" +:+ mode = key)) as [<-|Hne].
    - rewrite lookup_insert_eq in H. injection H as <-. right.
      exists "input_ids_", 0. rewrite HI.
      split; [left|]. split; [reflexivity|]. split; [discriminate | reflexivity].
    - rewrite lookup_insert_ne in H by exact Hne. left. exact H. }
  assert (Hmask : ∀ key rows bd',
            (<["attention_mask_" +:+ mode := pad_rows 0 (m0 :: M)]> bd' : gmap _ _) !! key
              = Some rows →
            bd' !! key = Some rows
            ∨ ∃ kind pv, (kind, pv) ∈ channel_kinds ∧ key = kind +:+ mode
                ∧ PreTraining.collect key batch ≠ []
                ∧ rows = pad_rows pv (PreTraining.collect key batch)).
  { intros key rows bd' H.
    destruct (decide ("attention_mask_" +:+ mode = key)) as [<-|Hne].
    - rewrite lookup_insert_eq in H. injection H as <-. right.
      exists "attention_mask_", 0. rewrite HM.
      split; [right; left|]. split; [reflexivity|]. split; [discriminate | reflexivity].
    - rewrite lookup_insert_ne in H by exact Hne. left. exact H. }
  destruct (PreTraining.collect ("labels_" +:+ mode) batch) as [|l0 Lb] eqn:HL.
  - intros [= <-] key rows H.
    destruct (Hmask _ _ _ H) as [H'|H']; [|right; exact H'].
    exact (Hids _ _ _ H').
  - cbn [pad_sequence mbind result_bind]. intros [= <-] key rows H.
    destruct (decide ("labels_" +:+ mode = key)) as [<-|Hne].
    + rewrite lookup_insert_eq in H. injection H as <-. right.
      exists "labels_", (-100). rewrite HL.
      split; [right; right; left|]. split; [reflexivity|].
      split; [discriminate | reflexivity].
    + rewrite lookup_insert_ne in H by exact Hne.
      destruct (Hmask _ _ _ H) as [H'|H']; [|right; exact H'].
      exact (Hids _ _ _ H').
Qed.

(** One round of the mode loop, read forwards: it succeeds when the masks
    are there whenever the ids are, leaves the other keys alone, and sets
    each key of the mode that has tensors, provided the mode has ids. *)
Lemma collate_mode_run (batch : list (gmap string (list Z)))
    (bd : gmap string (list (list Z))) (mode : string) :
  (PreTraining.collect ("input_ids_" +:+ mode) batch ≠ [] →
   PreTraining.collect ("attention_mask_" +:+ mode) batch ≠ []) →
  ∃ out, PreTraining.collate_mode batch bd mode = Ok out
    ∧ (∀ key, (∀ kind pv, (kind, pv) ∈ channel_kinds → key ≠ kind +:+ mode) →
              out !! key = bd !! key)
    ∧ (∀ kind pv, (kind, pv) ∈ channel_kinds →
         out !! (kind +:+ mode)
         = match PreTraining.collect ("input_ids_" +:+ mode) batch,
                 PreTraining.collect (kind +:+ mode) batch with
           | _ :: _, c :: C => Some (pad_rows pv (c :: C))
           | _, _ => bd !! (kind +:+ mode)
           end).
Proof.
  intros Hmasks. unfold PreTraining.collate_mode.
  destruct (PreTraining.collect ("input_ids_" +:+ mode) batch) as [|i0 I] eqn:HI.
  { exists bd. split; [reflexivity|]. split; [reflexivity|]. reflexivity. }
  destruct (PreTraining.collect ("attention_mask_" +:+ mode) batch) as [|m0 M] eqn:HM.
  { exfalso. apply Hmasks; [discriminate | reflexivity]. }
  cbn [pad_sequence mbind result_bind].
  destruct (channel_keys_distinct mode) as (Hd1 & Hd2 & Hd3).
  assert (Hother : ∀ key : string,
            (∀ kind pv, (kind, pv) ∈ channel_kinds → key ≠ kind +:+ mode) →
            key ≠ "input_ids_" +:+ mode ∧ key ≠ "attention_mask_" +:+ mode
            ∧ key ≠ "labels_" +:+ mode).
  { intros key H. repeat split.
    - apply (H _ 0). left.
    - apply (H _ 0). right. left.
    - apply (H _ (-100)). right. right. left. }
  destruct (PreTraining.collect ("labels_" +:+ mode) batch) as [|l0 Lb] eqn:HL.
  - eexists. split; [reflexivity|]. split.
    + intros key H. destruct (Hother key H) as (H1 & H2 & _).
      rewrite !lookup_insert_ne by (intros E; symmetry in E; contradiction).
      reflexivity.
    + intros kind pv Hkind. unfold channel_kinds in Hkind.
      rewrite !elem_of_cons in Hkind.
      destruct Hkind as [[= -> ->]|[[= -> ->]|[[= -> ->]|Hkind]]];
        [| | |inversion Hkind].
      * rewrite HI. rewrite lookup_insert_ne by (intros E; apply Hd1; symmetry; exact E).
        rewrite lookup_insert_eq. reflexivity.
      * rewrite HM. rewrite lookup_insert_eq. reflexivity.
      * rewrite HL. rewrite !lookup_insert_ne by (intros E; contradiction).
        reflexivity.
  - cbn [pad_sequence mbind result_bind].
    eexists. split; [reflexivity|]. split.
    + intros key H. destruct (Hother key H) as (H1 & H2 & H3).
      rewrite !lookup_insert_ne by (intros E; symmetry in E; contradiction).
      reflexivity.
    + intros kind pv Hkind. unfold channel_kinds in Hkind.
      rewrite !elem_of_cons in Hkind.
      destruct Hkind as [[= -> ->]|[[= -> ->]|[[= -> ->]|Hkind]]];
        [| | |inversion Hkind].
      * rewrite HI.
        rewrite lookup_insert_ne by (intros E; apply Hd2; symmetry; exact E).
        rewrite lookup_insert_ne by (intros E; apply Hd1; symmetry; exact E).
        rewrite lookup_insert_eq. reflexivity.
      * rewrite HM.
        rewrite lookup_insert_ne by (intros E; apply Hd3; symmetry; exact E).
        rewrite lookup_insert_eq. reflexivity.
      * rewrite HL. rewrite lookup_insert_eq. reflexivity.
Qed.

Lemma padding_value_of_kind (kind mode : string) (pv : Z) :
  (kind, pv) ∈ channel_kinds → padding_value_of (kind +:+ mode) = pv.
Proof.
  unfold channel_kinds. rewrite !elem_of_cons.
  intros [[= -> ->]|[[= -> ->]|[[= -> ->]|H]]];
    [reflexivity | reflexivity | destruct mode; reflexivity | inversion H].
Qed.

(** Every key of a batch the pre-training collator returns holds the padded
    tensors of the examples that have the key. *)
Lemma pretraining_collate_lookup (batch : list (gmap string (list Z)))
    (out : gmap string (list (list Z))) (key : string) (rows : list (list Z)) :
  PreTraining.collate_fn batch = Ok out → out !! key = Some rows →
  PreTraining.collect key batch ≠ []
  ∧ rows = pad_rows (padding_value_of key) (PreTraining.collect key batch).
Proof.
  unfold PreTraining.collate_fn, PreTraining.collate_modes. cbn [rfoldl].
  destruct (PreTraining.collate_mode batch ∅ "global_masked") as [bd1|] eqn:H1;
    [|discriminate].
  cbn [mbind result_bind].
  destruct (PreTraining.collate_mode batch bd1 "local") as [bd2|] eqn:H2;
    [|discriminate].
  cbn [mbind result_bind]. intros [= <-] Hkey.
  assert (Hfin : ∀ mode kind pv, (kind, pv) ∈ channel_kinds → key = kind +:+ mode →
            PreTraining.collect key batch ≠ [] →
            rows = pad_rows pv (PreTraining.collect key batch) →
            PreTraining.collect key batch ≠ []
            ∧ rows = pad_rows (padding_value_of key) (PreTraining.collect key batch)).
  { intros mode kind pv Hkind -> Hne ->.
    rewrite (padding_value_of_kind kind mode pv Hkind). auto. }
  destruct (collate_mode_lookup _ _ _ _ H2 _ _ Hkey)
    as [Hbd1|(kind & pv & Hkind & Hk & Hne & Hrows)]; [|eapply Hfin; eassumption].
  destruct (collate_mode_lookup _ _ _ _ H1 _ _ Hbd1)
    as [Hempty|(kind & pv & Hkind & Hk & Hne & Hrows)]; [|eapply Hfin; eassumption].
  rewrite lookup_empty in Hempty. discriminate.
Qed.

Lemma dataset_collate_lookup (batch : list (gmap string (list Z)))
    (out : gmap string (list (list Z))) (key : string) (rows : list (list Z)) :
  DatasetClass.collate_fn batch = Ok out → out !! key = Some rows →
  ∃ lens L, rmapM DatasetClass.joint_len batch = Ok lens ∧ py_max lens = Ok L
            ∧ key ∈ DatasetClass.collate_keys
            ∧ rmapM (DatasetClass.pad_item L key) batch = Ok rows.
Proof.
  unfold DatasetClass.collate_fn.
  destruct (rmapM DatasetClass.joint_len batch) as [lens|]; [|discriminate].
  cbn [mbind result_bind].
  destruct (py_max lens) as [L|] eqn:HL; [|discriminate]. cbn [mbind result_bind].
  intros Hout Hkey. exists lens, L. split; [reflexivity|]. split; [exact HL|].
  destruct (collate_keys_inv _ _ _ _ _ Hout _ _ Hkey) as [H|Hempty]; [exact H|].
  rewrite lookup_empty in Hempty. discriminate.
Qed.

Lemma fill_value_of_key (key : string) :
  key ∈ DatasetClass.collate_keys → DatasetClass.fill_value key = padding_value_of key.
Proof.
  unfold DatasetClass.collate_keys. rewrite !elem_of_cons.
  intros [->|[->|[->|[->|[->|H]]]]]; [reflexivity.. | inversion H].
Qed.

(** An example without its global or its local ids stops the collator of
    [DatasetClass.py] at the length computation. *)
Lemma collate_fn_needs_both_ids (batch : list (gmap string (list Z)))
    (item : gmap string (list Z)) :
  item ∈ batch →
  item !! "input_ids_global" = None ∨ item !! "input_ids_local" = None →
  ∃ k, DatasetClass.collate_fn batch = Raise (KeyError k).
Proof.
  intros Hin Hmiss. unfold DatasetClass.collate_fn.
  destruct (rmapM_raise DatasetClass.joint_len batch (λ e, ∃ k, e = KeyError k))
    as (e & -> & k & ->).
  - intros a _ e. unfold DatasetClass.joint_len, getitem_dict.
    destruct (a !! "input_ids_global"); cbn [mbind result_bind];
      [|intros [= <-]; eauto].
    destruct (a !! "input_ids_local"); cbn [mbind result_bind];
      [discriminate | intros [= <-]; eauto].
  - exists item. split; [exact Hin|]. intros [x Hx].
    apply joint_len_inv in Hx as (a & b & Ha & Hb & _).
    destruct Hmiss; congruence.
  - exists k. reflexivity.
Qed.

(** ** Widths of the collated tensors *)

(** C4 as stated fails on the collator of [DatasetClass.py]: the global ids
    of the one example are 3 long, the local ids 5, and the global ids come
    back 5 wide, not as wide as the longest example of their own key. *)
Lemma joint_length_exceeds_key_maximum :
  batch_lookup (DatasetClass.collate_fn [item_short_global]) "input_ids_global"
  = Some [[2; 21; 3; 0; 0]]
  ∧ max_len (PreTraining.collect "input_ids_global" [item_short_global]) = 3%nat.
Proof. split; vm_compute; reflexivity. Qed.

(** C4, amended.  In a batch of the pre-training collator the rows under a
    key are the tensors of the examples that have the key, each padded to
    the longest of them.  In a batch of the collator of [DatasetClass.py]
    the rows under every key are padded to one length [L], the largest
    length among the global and the local ids of the whole batch.  In both,
    the padding is -100 under the label keys and 0 under the others. *)
Theorem collated_widths (batch : list (gmap string (list Z))) :
  (∀ out key rows,
     PreTraining.collate_fn batch = Ok out → out !! key = Some rows →
     let seqs := PreTraining.collect key batch in
     length rows = length seqs
     ∧ Forall (λ row, length row = max_len seqs) rows
     ∧ (∃ s, s ∈ seqs ∧ length s = max_len seqs)
     ∧ ∀ i s, seqs !! i = Some s →
         rows !! i
         = Some (s ++ replicate (max_len seqs - length s) (padding_value_of key)))
  ∧ (∀ out key rows,
       DatasetClass.collate_fn batch = Ok out → out !! key = Some rows →
       ∃ L,
         (∀ item, item ∈ batch →
            ∃ a b, item !! "input_ids_global" = Some a
                   ∧ item !! "input_ids_local" = Some b ∧ len a ≤ L ∧ len b ≤ L)
         ∧ (∃ item a b, item ∈ batch ∧ item !! "input_ids_global" = Some a
              ∧ item !! "input_ids_local" = Some b ∧ L = len a `max` len b)
         ∧ length rows = length batch
         ∧ Forall (λ row, len row = L) rows
         ∧ ∀ i item, batch !! i = Some item →
             ∃ t, item !! key = Some t
                  ∧ rows !! i
                    = Some (t ++ replicate (Z.to_nat (L - len t))
                                           (padding_value_of key))).
Proof.
  split.
  - intros out key rows Hout Hkey seqs.
    destruct (pretraining_collate_lookup batch out key rows Hout Hkey) as [Hne ->].
    fold seqs in Hne |- *.
    split; [apply pad_rows_length|]. split; [apply pad_rows_widths|].
    split; [apply max_len_attained; exact Hne|].
    intros i s Hs. apply pad_rows_lookup. exact Hs.
  - intros out key rows Hout Hkey.
    destruct (dataset_collate_lookup batch out key rows Hout Hkey)
      as (lens & L & Hlens & HL & Hin & Hrows).
    destruct (joint_len_bound batch lens L Hlens HL) as [Hbound Hatt].
    exists L. split; [exact Hbound|]. split; [exact Hatt|].
    split; [eapply rmapM_length; exact Hrows|].
    split.
    + eapply rmapM_Forall; [exact Hrows|]. intros item row _ Hrow.
      apply pad_item_inv in Hrow as (_ & _ & _ & _ & Hlen). exact Hlen.
    + intros i item Hi.
      destruct (rmapM_lookup _ _ _ _ _ Hrows Hi) as (row & Hrow & Hri).
      apply pad_item_inv in Hrow as (t & Ht & _ & -> & _).
      exists t. split; [exact Ht|]. rewrite Hri, (fill_value_of_key key Hin).
      reflexivity.
Qed.

(** ** Examples that lack a channel *)

(** C5 as stated fails on the collator of [DatasetClass.py]: an example that
    has the global channel only is not left out of the local keys, it stops
    the collator with a [KeyError]. *)
Lemma collate_fn_rejects_missing_channel :
  DatasetClass.collate_fn [item_global_only] = Raise (KeyError "input_ids_local").
Proof. vm_compute. reflexivity. Qed.

(** C5, amended.  The pre-training collator accepts every batch whose
    examples have the attention mask of a mode whenever they have its ids.
    Under each key of a mode it returns the padded tensors of exactly the
    examples that have the key; a key no example has, and every key of a
    mode of which no example has the ids, is absent from the result.  The
    collator of [DatasetClass.py] raises [KeyError] as soon as one example
    lacks its global or its local ids. *)
Theorem partial_examples_collated (batch : list (gmap string (list Z))) :
  (∀ mode item, mode ∈ PreTraining.collate_modes → item ∈ batch →
     is_Some (item !! ("input_ids_" +:+ mode)) →
     is_Some (item !! ("attention_mask_" +:+ mode))) →
  ∃ out, PreTraining.collate_fn batch = Ok out
    ∧ (∀ mode kind pv, mode ∈ PreTraining.collate_modes → (kind, pv) ∈ channel_kinds →
         out !! (kind +:+ mode)
         = match PreTraining.collect ("input_ids_" +:+ mode) batch,
                 PreTraining.collect (kind +:+ mode) batch with
           | _ :: _, c :: C => Some (pad_rows pv (c :: C))
           | _, _ => None
           end)
    ∧ (∀ key rows, out !! key = Some rows →
         PreTraining.collect key batch ≠ []
         ∧ rows = pad_rows (padding_value_of key) (PreTraining.collect key batch))
    ∧ (∀ key t, t ∈ PreTraining.collect key batch
                ↔ ∃ item, item ∈ batch ∧ item !! key = Some t)
    ∧ (∀ batch' item, item ∈ batch' →
         item !! "input_ids_global" = None ∨ item !! "input_ids_local" = None →
         ∃ k, DatasetClass.collate_fn batch' = Raise (KeyError k)).
Proof.
  intros Hwf.
  assert (Hmasks : ∀ mode, mode ∈ PreTraining.collate_modes →
            PreTraining.collect ("input_ids_" +:+ mode) batch ≠ [] →
            PreTraining.collect ("attention_mask_" +:+ mode) batch ≠ []).
  { intros mode Hmode Hne.
    destruct (PreTraining.collect ("input_ids_" +:+ mode) batch) as [|t I] eqn:HI;
      [congruence|].
    assert (Ht : t ∈ PreTraining.collect ("input_ids_" +:+ mode) batch)
      by (rewrite HI; left).
    apply elem_of_collect in Ht as (item & Hin & Hitem).
    destruct (Hwf mode item Hmode Hin) as [m Hm]; [eauto|].
    intros Hnil.
    assert (Hm' : m ∈ PreTraining.collect ("attention_mask_" +:+ mode) batch)
      by (apply elem_of_collect; eauto).
    rewrite Hnil in Hm'. inversion Hm'. }
  destruct (collate_mode_run batch ∅ "global_masked") as (bd1 & H1 & Hoth1 & Hset1).
  { apply Hmasks. left. }
  destruct (collate_mode_run batch bd1 "local") as (bd2 & H2 & Hoth2 & Hset2).
  { apply Hmasks. right. left. }
  assert (Hout : PreTraining.collate_fn batch = Ok bd2).
  { unfold PreTraining.collate_fn, PreTraining.collate_modes. cbn [rfoldl].
    rewrite H1. cbn [mbind result_bind]. rewrite H2. reflexivity. }
  exists bd2. split; [exact Hout|]. split; [|split; [|split]].
  - intros mode kind pv Hmode Hkind. unfold PreTraining.collate_modes in Hmode.
    rewrite !elem_of_cons in Hmode.
    destruct Hmode as [->|[->|Hmode]]; [| |inversion Hmode].
    + rewrite Hoth2.
      * rewrite (Hset1 kind pv Hkind), lookup_empty. reflexivity.
      * intros kind' pv' Hkind'. unfold channel_kinds in Hkind, Hkind'.
        rewrite !elem_of_cons in Hkind, Hkind'.
        destruct Hkind as [[= -> ->]|[[= -> ->]|[[= -> ->]|Hkind]]];
          [| | |inversion Hkind];
          destruct Hkind' as [[= -> ->]|[[= -> ->]|[[= -> ->]|Hkind']]];
          try discriminate; inversion Hkind'.
    + rewrite (Hset2 kind pv Hkind). rewrite Hoth1.
      * rewrite lookup_empty. reflexivity.
      * intros kind' pv' Hkind'. unfold channel_kinds in Hkind, Hkind'.
        rewrite !elem_of_cons in Hkind, Hkind'.
        destruct Hkind as [[= -> ->]|[[= -> ->]|[[= -> ->]|Hkind]]];
          [| | |inversion Hkind];
          destruct Hkind' as [[= -> ->]|[[= -> ->]|[[= -> ->]|Hkind']]];
          try discriminate; inversion Hkind'.
  - intros key rows. apply pretraining_collate_lookup. exact Hout.
  - intros key t. apply elem_of_collect.
  - intros batch' item. apply collate_fn_needs_both_ids.
Qed.

Lemma partial_examples_collated_witness :
  ∃ out, PreTraining.collate_fn mixed_batch = Ok out
    ∧ out !! "input_ids_global_masked"
      = Some [[30; 4; 12; 0; 0]; [30; 21; 12; 3; 31]]
    ∧ out !! "labels_global_masked"
      = Some [[-100; 21; -100; -100; -100]; [-100; -100; -100; -100; -100]]
    ∧ out !! "input_ids_local" = Some [[2; 30; 21; 3]]
    ∧ out !! "labels_local" = None.
Proof.
  destruct (partial_examples_collated mixed_batch) as (out & Hout & Hkeys & _).
  - intros mode item Hmode Hitem.
    unfold PreTraining.collate_modes, mixed_batch in Hmode, Hitem.
    rewrite !elem_of_cons in Hmode. rewrite !elem_of_cons in Hitem.
    destruct Hmode as [->|[->|Hmode]]; [| |inversion Hmode];
      destruct Hitem as [->|[->|[->|Hitem]]]; try (inversion Hitem);
      first [ intros _; vm_compute; eexists; reflexivity
            | intros [x Hx]; vm_compute in Hx; discriminate Hx ].
  - exists out. split; [exact Hout|].
    assert (Hg : "global_masked" ∈ PreTraining.collate_modes) by left.
    assert (Hl : "local" ∈ PreTraining.collate_modes) by (right; left).
    assert (Hi : ("input_ids_", 0) ∈ channel_kinds) by left.
    assert (Hb : ("labels_", -100) ∈ channel_kinds) by (right; right; left).
    split; [exact (Hkeys _ _ _ Hg Hi)|]. split; [exact (Hkeys _ _ _ Hg Hb)|].
    split; [exact (Hkeys _ _ _ Hl Hi) | exact (Hkeys _ _ _ Hl Hb)].
Defined.

Lemma collated_widths_witness :
  (∃ rows, batch_lookup (PreTraining.collate_fn mixed_batch) "labels_global_masked"
           = Some rows
           ∧ Forall (λ row, length row = 5%nat) rows)
  ∧ (∃ rows L, batch_lookup (DatasetClass.collate_fn [item_short_global])
                 "labels_global" = Some rows
               ∧ length rows = 1%nat ∧ Forall (λ row, len row = L) rows).
Proof.
  destruct (collated_widths mixed_batch) as [Hpt _].
  destruct (collated_widths [item_short_global]) as [_ Hdc].
  assert (Hkey : batch_lookup (PreTraining.collate_fn mixed_batch)
                   "labels_global_masked"
                 = Some [[-100; 21; -100; -100; -100];
                         [-100; -100; -100; -100; -100]])
    by (vm_compute; reflexivity).
  assert (Hkey' : batch_lookup (DatasetClass.collate_fn [item_short_global])
                    "labels_global"
                  = Some [[-100; 21; -100; -100; -100]])
    by (vm_compute; reflexivity).
  destruct (PreTraining.collate_fn mixed_batch) as [out|e] eqn:Hout;
    [|discriminate Hkey].
  destruct (DatasetClass.collate_fn [item_short_global]) as [out'|e] eqn:Hout';
    [|discriminate Hkey'].
  cbn [batch_lookup] in Hkey, Hkey' |- *. split.
  - eexists. split; [exact Hkey|].
    destruct (Hpt _ _ _ eq_refl Hkey) as (_ & Hw & _).
    eapply Forall_impl; [exact Hw|]. intros row ->. vm_compute. reflexivity.
  - destruct (Hdc _ _ _ eq_refl Hkey') as (L & _ & _ & Hlen & Hw & _).
    eexists. exists L. split; [exact Hkey'|]. split; [exact Hlen | exact Hw].
Defined.

(** * Further properties *)

(** ** Reading a row *)

(** A cell is found through the first column of its name. *)
Lemma lookup_zip_columns (cols : list string) : ∀ (cells : list string) (c : string),
  (list_to_map (zip cols cells) : gmap string string) !! c
  = match list_find (λ c', c' = c) cols with
    | Some (j, _) => cells !! j
    | None => None
    end.
Proof.
  induction cols as [|c0 cols IH]; intros cells c; [reflexivity|].
  cbn [list_find]. destruct cells as [|x cells].
  - change (zip (c0 :: cols) []) with (@nil (string * string)).
    change (list_to_map []) with (∅ : gmap string string). rewrite lookup_empty.
    destruct (decide (c0 = c)); [reflexivity|].
    destruct (list_find _ cols) as [[j y]|]; reflexivity.
  - change (list_to_map (zip (c0 :: cols) (x :: cells)))
      with (<[c0 := x]> (list_to_map (zip cols cells) : gmap string string)).
    destruct (decide (c0 = c)) as [->|Hne].
    + rewrite lookup_insert_eq. reflexivity.
    + rewrite lookup_insert_ne by exact Hne. rewrite IH.
      destruct (list_find _ cols) as [[j y]|]; reflexivity.
Qed.

Lemma list_find_column (cols : list string) (c : string) :
  c ∈ cols → ∃ j, list_find (λ c', c' = c) cols = Some (j, c) ∧ (j < length cols)%nat.
Proof.
  intros Hin. destruct (list_find (λ c', c' = c) cols) as [[j y]|] eqn:E.
  - apply list_find_Some in E as (Hj & -> & _). exists j. split; [reflexivity|].
    eapply lookup_lt_Some. exact Hj.
  - apply list_find_None in E. rewrite Forall_forall in E.
    destruct (E c Hin). reflexivity.
Qed.

Lemma iloc_inv (df : DataFrame) (idx : Z) (row : gmap string string) :
  iloc df idx = Ok row →
  in_range df idx
  ∧ ∃ cells, cells ∈ rows df ∧ row = list_to_map (zip (columns df) cells).
Proof.
  unfold iloc, in_range.
  set (n := Z.of_nat (length (rows df))). intros H.
  destruct (Z.ltb_spec idx 0) as [Hneg|Hpos].
  - destruct (Z.leb_spec 0 (idx + n)); [|discriminate].
    destruct (Z.ltb_spec (idx + n) n); [|discriminate]. cbn [andb] in H.
    destruct (rows df !! Z.to_nat (idx + n)) as [cells|] eqn:Hc; [|discriminate].
    injection H as <-. split; [lia|]. exists cells.
    split; [eapply list_elem_of_lookup_2; exact Hc | reflexivity].
  - destruct (Z.leb_spec 0 idx); [|discriminate].
    destruct (Z.ltb_spec idx n); [|discriminate]. cbn [andb] in H.
    destruct (rows df !! Z.to_nat idx) as [cells|] eqn:Hc; [|discriminate].
    injection H as <-. split; [lia|]. exists cells.
    split; [eapply list_elem_of_lookup_2; exact Hc | reflexivity].
Qed.

Lemma iloc_out_of_range (df : DataFrame) (idx : Z) :
  ¬ in_range df idx → iloc df idx = Raise IndexError.
Proof.
  intros Hout. destruct (iloc df idx) as [row|e] eqn:E.
  - apply iloc_inv in E as [Hin _]. contradiction.
  - unfold iloc in E. destruct (_ && _); [|congruence].
    destruct (rows df !! _); congruence.
Qed.

(** In a rectangular frame a row read in range has every column. *)
Lemma iloc_has_column (df : DataFrame) (idx : Z) (row : gmap string string)
    (c : string) :
  rectangular df → iloc df idx = Ok row → c ∈ columns df → is_Some (row !! c).
Proof.
  intros Hrect Hrow Hc. apply iloc_inv in Hrow as (_ & cells & Hcells & ->).
  rewrite lookup_zip_columns.
  destruct (list_find_column _ _ Hc) as (j & -> & Hj).
  apply lookup_lt_is_Some_2. unfold rectangular in Hrect.
  rewrite Forall_forall in Hrect. specialize (Hrect cells Hcells). lia.
Qed.

(** ** Access by index *)

Lemma lookup_empty_not_Some {V} (key : string) : ¬ is_Some ((∅ : gmap string V) !! key).
Proof. rewrite lookup_empty. intros [x Hx]. discriminate. Qed.

(** X1.  On a rectangular frame with the four columns, [__getitem__] of
    [DatasetClass.py] reads its row for exactly the indices from [-len] to
    [len - 1], [len] being what [__len__] returns, and raises [IndexError]
    for every other index.  At an index in range it returns an example when
    the local pair text has at least one token, and the example has the
    five keys [input_ids_global], [attention_mask_global],
    [input_ids_local], [attention_mask_local], [labels_local] and no other;
    when the local pair text has no token it raises [ValueError]. *)
Theorem dataset_getitem_by_index
    (self : DatasetClass.ProteinInteractionDataset) (idx : Z) (g : Rng) :
  (∀ c, c ∈ required_columns → c ∈ columns (DatasetClass.dataframe self)) →
  rectangular (DatasetClass.dataframe self) →
  (- DatasetClass.__len__ self ≤ idx < DatasetClass.__len__ self →
   ∃ row ma mb,
     iloc (DatasetClass.dataframe self) idx = Ok row
     ∧ row !! "masked_sequence_A" = Some ma
     ∧ row !! "masked_sequence_B" = Some mb
     ∧ (tokenize (DatasetClass.tokenizer self) (render_pair ma mb) ≠ [] →
        ∃ item g', DatasetClass.getitem self idx g = Ok (item, g')
                   ∧ ∀ key, is_Some (item !! key) ↔ key ∈ dataset_keys)
     ∧ (tokenize (DatasetClass.tokenizer self) (render_pair ma mb) = [] →
        DatasetClass.getitem self idx g = Raise ValueError))
  ∧ (¬ (- DatasetClass.__len__ self ≤ idx < DatasetClass.__len__ self) →
     DatasetClass.getitem self idx g = Raise IndexError).
Proof.
  intros Hcols Hrect. split.
  - intros Hr. destruct (iloc_in_range _ idx Hr) as [row Hrow].
    assert (Hcell : ∀ c, c ∈ required_columns → ∃ v, row !! c = Some v).
    { intros c Hc. apply (iloc_has_column _ idx row c Hrect Hrow), Hcols, Hc. }
    unfold required_columns in Hcell.
    destruct (Hcell "Sequence_A") as [sa Hsa]; [left|].
    destruct (Hcell "Sequence_B") as [sb Hsb]; [right; left|].
    destruct (Hcell "masked_sequence_A") as [ma Hma]; [right; right; left|].
    destruct (Hcell "masked_sequence_B") as [mb Hmb]; [right; right; right; left|].
    exists row, ma, mb. split; [exact Hrow|]. split; [exact Hma|]. split; [exact Hmb|].
    unfold DatasetClass.getitem. rewrite Hrow. cbn [mbind result_bind].
    rewrite (getitem_dict_some _ _ _ Hsa). cbn [mbind result_bind].
    rewrite (getitem_dict_some _ _ _ Hsb). cbn [mbind result_bind].
    rewrite (getitem_dict_some _ _ _ Hma). cbn [mbind result_bind].
    rewrite (getitem_dict_some _ _ _ Hmb). cbn [mbind result_bind].
    destruct (DatasetClass.tokenize_sequence self (render_pair sa sb)) as [ig ag].
    split.
    + intros Hne.
      destruct (mask_and_tokenize_returns self (render_pair ma mb) g Hne)
        as ([[il al] ll] & g' & ->). cbn [mbind result_bind].
      eexists _, _. split; [reflexivity|]. intros key.
      rewrite !lookup_insert_is_Some'. unfold dataset_keys.
      rewrite !elem_of_cons. split.
      * intros [<-|[<-|[<-|[<-|[<-|H]]]]]; auto 10.
        destruct (lookup_empty_not_Some key H).
      * intros [->|[->|[->|[->|[->|H]]]]]; auto 10. inversion H.
    + intros He. rewrite (mask_and_tokenize_token_free self _ g He). reflexivity.
  - intros Hout. unfold DatasetClass.getitem.
    rewrite (iloc_out_of_range _ idx Hout). reflexivity.
Qed.

Lemma dataset_getitem_by_index_witness :
  (∃ item g', DatasetClass.getitem ds_wide (-1) g_zero = Ok (item, g')
              ∧ ∀ key, is_Some (item !! key) ↔ key ∈ dataset_keys)
  ∧ DatasetClass.getitem ds_wide 1 g_zero = Raise IndexError.
Proof.
  split.
  - destruct (dataset_getitem_by_index ds_wide (-1) g_zero) as [Hin _].
    + intros c Hc. exact Hc.
    + constructor; [cbn; lia | constructor].
    + destruct Hin as (row & ma & mb & Hrow & Hma & Hmb & Hret & _).
      { change (DatasetClass.__len__ ds_wide) with 1. lia. }
      apply Hret. clear Hret.
      injection Hrow as <-.
      injection Hma as <-. injection Hmb as <-.
      vm_compute. discriminate.
  - apply (dataset_getitem_by_index ds_wide 1 g_zero).
    + intros c Hc. exact Hc.
    + constructor; [cbn; lia | constructor].
    + change (DatasetClass.__len__ ds_wide) with 1. lia.
Defined.

Lemma random_mask_sequence_small_vocab (self : PreTraining.ProteinInteractionDataset)
    (sequence : string) (g : Rng) :
  vocab_size (PreTraining.tokenizer self) ≤ 2 →
  PreTraining.random_mask_sequence self sequence g = Raise RuntimeError.
Proof.
  intros HV. unfold PreTraining.random_mask_sequence.
  cbv beta iota zeta delta [torch_rand]. unfold torch_randint.
  destruct (Z.ltb_spec 2 (vocab_size (PreTraining.tokenizer self))); [lia|].
  reflexivity.
Qed.

(** X2.  On a rectangular frame with [Sequence_A] and [Sequence_B], at an
    index in range, [__getitem__] of the pre-training dataset writes the
    three [global_masked] keys when that mode is on and the two [local] keys
    when that mode is on, and nothing else: with neither mode on the example
    is the empty dictionary.  It raises, with [RuntimeError], exactly when
    [global_masked] is on and the vocabulary has no id from 2 on to draw. *)
Theorem pretraining_getitem_by_mode
    (self : PreTraining.ProteinInteractionDataset) (idx : Z) (g : Rng) :
  "Sequence_A" ∈ columns (PreTraining.dataframe self) →
  "Sequence_B" ∈ columns (PreTraining.dataframe self) →
  rectangular (PreTraining.dataframe self) →
  - PreTraining.__len__ self ≤ idx < PreTraining.__len__ self →
  ("global_masked" ∈ PreTraining.modes self →
   vocab_size (PreTraining.tokenizer self) ≤ 2 →
   PreTraining.getitem self idx g = Raise RuntimeError)
  ∧ ("global_masked" ∉ PreTraining.modes self
     ∨ 2 < vocab_size (PreTraining.tokenizer self) →
     ∃ item g', PreTraining.getitem self idx g = Ok (item, g')
       ∧ ∀ key, is_Some (item !! key)
                ↔ ("global_masked" ∈ PreTraining.modes self ∧ key ∈ global_masked_keys)
                  ∨ ("local" ∈ PreTraining.modes self ∧ key ∈ local_keys)).
Proof.
  intros HA HB Hrect Hr. destruct (iloc_in_range _ idx Hr) as [row Hrow].
  destruct (iloc_has_column _ idx row _ Hrect Hrow HA) as [sa Hsa].
  destruct (iloc_has_column _ idx row _ Hrect Hrow HB) as [sb Hsb].
  unfold PreTraining.getitem. rewrite Hrow. cbn [mbind result_bind].
  rewrite (getitem_dict_some _ _ _ Hsa), (getitem_dict_some _ _ _ Hsb).
  cbn [mbind result_bind]. split.
  - intros Hg HV. rewrite (bool_decide_eq_true_2 _ Hg).
    rewrite (random_mask_sequence_small_vocab self _ g HV). reflexivity.
  - intros Hok. unfold global_masked_keys, local_keys.
    destruct (decide ("global_masked" ∈ PreTraining.modes self)) as [Hg|Hg].
    + rewrite (bool_decide_eq_true_2 _ Hg).
      assert (HV : 2 < vocab_size (PreTraining.tokenizer self))
        by (destruct Hok; [contradiction | assumption]).
      destruct (random_mask_sequence_spec self (render_pair sa sb) g HV)
        as (ids & lbl & g' & -> & _).
      cbn [mbind result_bind].
      destruct (decide ("local" ∈ PreTraining.modes self)) as [Hl|Hl].
      * rewrite (bool_decide_eq_true_2 _ Hl).
        destruct (PreTraining.tokenize_sequence self (render_pair sa sb)) as [il al].
        cbn [mbind result_bind]. eexists _, _. split; [reflexivity|]. intros key.
        rewrite !lookup_insert_is_Some', !elem_of_cons. split.
        -- intros [<-|[<-|[<-|[<-|[<-|H]]]]]; auto 10.
           destruct (lookup_empty_not_Some key H).
        -- intros [[_ [->|[->|[->|H]]]]|[_ [->|[->|H]]]]; auto 10; inversion H.
      * rewrite (bool_decide_eq_false_2 _ Hl). cbn [mbind result_bind].
        eexists _, _. split; [reflexivity|]. intros key.
        rewrite !lookup_insert_is_Some', !elem_of_cons. split.
        -- intros [<-|[<-|[<-|H]]]; auto 10.
           destruct (lookup_empty_not_Some key H).
        -- intros [[_ [->|[->|[->|H]]]]|[Hl' _]]; auto 10;
             [inversion H | contradiction].
    + rewrite (bool_decide_eq_false_2 _ Hg). cbn [mbind result_bind].
      destruct (decide ("local" ∈ PreTraining.modes self)) as [Hl|Hl].
      * rewrite (bool_decide_eq_true_2 _ Hl).
        destruct (PreTraining.tokenize_sequence self (render_pair sa sb)) as [il al].
        cbn [mbind result_bind]. eexists _, _. split; [reflexivity|]. intros key.
        rewrite !lookup_insert_is_Some', !elem_of_cons. split.
        -- intros [<-|[<-|H]]; auto 10.
           destruct (lookup_empty_not_Some key H).
        -- intros [[Hg' _]|[_ [->|[->|H]]]]; auto 10;
             [contradiction | inversion H].
      * rewrite (bool_decide_eq_false_2 _ Hl). cbn [mbind result_bind].
        eexists _, _. split; [reflexivity|]. intros key. split.
        -- intros H. destruct (lookup_empty_not_Some key H).
        -- intros [[Hg' _]|[Hl' _]]; contradiction.
Qed.

Lemma pretraining_getitem_by_mode_witness :
  ∃ item g', PreTraining.getitem pt_both 0 g_zero = Ok (item, g')
    ∧ is_Some (item !! "labels_global_masked")
    ∧ is_Some (item !! "attention_mask_local")
    ∧ ¬ is_Some (item !! "labels_local").
Proof.
  destruct (pretraining_getitem_by_mode pt_both 0 g_zero) as [_ H].
  - left.
  - right. left.
  - constructor; [cbn; lia | constructor].
  - change (PreTraining.__len__ pt_both) with 1. lia.
  - destruct H as (item & g' & Heq & Hkeys); [right; reflexivity|].
    exists item, g'. split; [exact Heq|]. split; [|split].
    + apply Hkeys. left. split; [left | right; right; left].
    + apply Hkeys. right. split; [right; left | right; left].
    + intros Hs. apply Hkeys in Hs as [[_ Hk]|[_ Hk]].
      * unfold global_masked_keys in Hk. rewrite !elem_of_cons in Hk.
        destruct Hk as [Hk|[Hk|[Hk|Hk]]]; try discriminate Hk. inversion Hk.
      * unfold local_keys in Hk. rewrite !elem_of_cons in Hk.
        destruct Hk as [Hk|[Hk|Hk]]; try discriminate Hk. inversion Hk.
Defined.

(** ** From examples to batches in the pre-training notebook *)

(** The collator run on a batch whose examples have the mask of a mode
    whenever they have its ids: every key of every mode, exactly. *)
Lemma pretraining_collate_run (batch : list (gmap string (list Z))) :
  (∀ mode, mode ∈ PreTraining.collate_modes →
     PreTraining.collect ("input_ids_" +:+ mode) batch ≠ [] →
     PreTraining.collect ("attention_mask_" +:+ mode) batch ≠ []) →
  ∃ out, PreTraining.collate_fn batch = Ok out
    ∧ ∀ mode kind pv, mode ∈ PreTraining.collate_modes → (kind, pv) ∈ channel_kinds →
        out !! (kind +:+ mode)
        = match PreTraining.collect ("input_ids_" +:+ mode) batch,
                PreTraining.collect (kind +:+ mode) batch with
          | _ :: _, c :: C => Some (pad_rows pv (c :: C))
          | _, _ => None
          end.
Proof.
  intros Hmasks.
  destruct (collate_mode_run batch ∅ "global_masked") as (bd1 & H1 & Hoth1 & Hset1).
  { apply Hmasks. left. }
  destruct (collate_mode_run batch bd1 "local") as (bd2 & H2 & Hoth2 & Hset2).
  { apply Hmasks. right. left. }
  exists bd2. split.
  { unfold PreTraining.collate_fn, PreTraining.collate_modes. cbn [rfoldl].
    rewrite H1. cbn [mbind result_bind]. rewrite H2. reflexivity. }
  assert (Hcross : ∀ kind pv kind' pv' (m m' : string),
            (kind, pv) ∈ channel_kinds → (kind', pv') ∈ channel_kinds →
            (m = "global_masked" ∧ m' = "local") ∨ (m = "local" ∧ m' = "global_masked") →
            kind +:+ m ≠ kind' +:+ m').
  { intros kind pv kind' pv' m m' Hk Hk' Hm. unfold channel_kinds in Hk, Hk'.
    rewrite !elem_of_cons in Hk. rewrite !elem_of_cons in Hk'.
    destruct Hm as [[-> ->]|[-> ->]];
      destruct Hk as [[= -> ->]|[[= -> ->]|[[= -> ->]|Hk]]]; try (inversion Hk);
      destruct Hk' as [[= -> ->]|[[= -> ->]|[[= -> ->]|Hk']]]; try (inversion Hk');
      discriminate. }
  intros mode kind pv Hmode Hkind. unfold PreTraining.collate_modes in Hmode.
  rewrite !elem_of_cons in Hmode.
  destruct Hmode as [->|[->|Hmode]]; [| |inversion Hmode].
  - rewrite Hoth2 by (intros kind' pv' Hk'; eapply Hcross; eauto).
    rewrite (Hset1 kind pv Hkind), lookup_empty. reflexivity.
  - rewrite (Hset2 kind pv Hkind).
    rewrite Hoth1 by (intros kind' pv' Hk'; eapply Hcross; eauto).
    rewrite lookup_empty. reflexivity.
Qed.

Lemma tokenize_sequence_unpadded (self : PreTraining.ProteinInteractionDataset)
    (sequence : string) :
  ∃ x, PreTraining.tokenize_sequence self sequence = (x, replicate (length x) 1).
Proof.
  unfold PreTraining.tokenize_sequence, encode_plus, prepare_for_model, pad.
  cbn [replicate]. eexists. rewrite !app_nil_r. reflexivity.
Qed.

(** What [__getitem__] of the pre-training dataset returns: per mode, all of
    its keys or none, masks of ones as long as their ids, labels as long as
    their ids. *)
Lemma pt_produced_shape (item : gmap string (list Z)) :
  pt_produced item →
  ((item !! "input_ids_global_masked" = None
    ∧ item !! "attention_mask_global_masked" = None
    ∧ item !! "labels_global_masked" = None)
   ∨ ∃ x l, item !! "input_ids_global_masked" = Some x
            ∧ item !! "attention_mask_global_masked" = Some (replicate (length x) 1)
            ∧ item !! "labels_global_masked" = Some l ∧ length l = length x)
  ∧ ((item !! "input_ids_local" = None ∧ item !! "attention_mask_local" = None)
     ∨ ∃ x, item !! "input_ids_local" = Some x
            ∧ item !! "attention_mask_local" = Some (replicate (length x) 1))
  ∧ item !! "labels_local" = None.
Proof.
  intros (self & idx & g & g' & H). unfold PreTraining.getitem in H.
  destruct (iloc _ idx) as [row|]; [|discriminate]. cbn [mbind result_bind] in H.
  destruct (bool_decide ("global_masked" ∈ PreTraining.modes self)).
  - destruct (getitem_dict row "Sequence_A") as [sa|]; [|discriminate].
    cbn [mbind result_bind] in H.
    destruct (getitem_dict row "Sequence_B") as [sb|]; [|discriminate].
    cbn [mbind result_bind] in H.
    destruct (PreTraining.random_mask_sequence self (render_pair sa sb) g)
      as [[[[ids am] lbl] g1]|] eqn:Hrms; [|discriminate].
    cbn [mbind result_bind] in H.
    assert (Hshape : am = replicate (length ids) 1 ∧ length lbl = length ids).
    { destruct (decide (2 < vocab_size (PreTraining.tokenizer self))) as [HV|HV].
      - destruct (random_mask_sequence_spec self (render_pair sa sb) g HV)
          as (ids' & lbl' & g2 & Heq & Hn & Hl & _).
        rewrite Heq in Hrms. injection Hrms as <- <- <- <-.
        split; [reflexivity | congruence].
      - rewrite random_mask_sequence_small_vocab in Hrms by lia. discriminate. }
    destruct Hshape as [-> Hlen].
    destruct (bool_decide ("local" ∈ PreTraining.modes self)).
    + destruct (tokenize_sequence_unpadded self (render_pair sa sb)) as [x Hx].
      rewrite Hx in H. cbn [mbind result_bind] in H. injection H as <- <-.
      split; [right; exists ids, lbl; auto|]. split; [right; exists x; auto | reflexivity].
    + cbn [mbind result_bind] in H. injection H as <- <-.
      split; [right; exists ids, lbl; auto|]. split; [left; auto | reflexivity].
  - cbn [mbind result_bind] in H.
    destruct (bool_decide ("local" ∈ PreTraining.modes self)).
    + destruct (getitem_dict row "Sequence_A") as [sa|]; [|discriminate].
      cbn [mbind result_bind] in H.
      destruct (getitem_dict row "Sequence_B") as [sb|]; [|discriminate].
      cbn [mbind result_bind] in H.
      destruct (tokenize_sequence_unpadded self (render_pair sa sb)) as [x Hx].
      rewrite Hx in H. cbn [mbind result_bind] in H. injection H as <- <-.
      split; [left; auto|]. split; [right; exists x; auto | reflexivity].
    + cbn [mbind result_bind] in H. injection H as <- <-.
      split; [left; auto|]. split; [left; auto | reflexivity].
Qed.

(** Two keys that the examples have together give tensors collected in
    step. *)
Lemma collect_Forall2 (R : list Z → list Z → Prop) (k1 k2 : string)
    (batch : list (gmap string (list Z))) :
  (∀ item, item ∈ batch →
     (item !! k1 = None ∧ item !! k2 = None)
     ∨ ∃ x y, item !! k1 = Some x ∧ item !! k2 = Some y ∧ R x y) →
  Forall2 R (PreTraining.collect k1 batch) (PreTraining.collect k2 batch).
Proof.
  unfold PreTraining.collect. induction batch as [|item batch IH]; intros H.
  - constructor.
  - cbn [omap list_omap].
    destruct (H item) as [[-> ->]|(x & y & -> & -> & HR)]; [left| |].
    + apply IH. intros item' Hin. apply H. right. exact Hin.
    + constructor; [exact HR|]. apply IH. intros item' Hin. apply H. right. exact Hin.
Qed.

Lemma max_len_Forall2 (A B : list (list Z)) :
  Forall2 (λ x y, length y = length x) A B → max_len A = max_len B.
Proof.
  induction 1 as [|x y A B Hxy _ IH]; [reflexivity|].
  cbn [max_len foldr]. fold (max_len A) (max_len B). rewrite Hxy, IH. reflexivity.
Qed.

(** Rows padded in step: the same number of padding places in both. *)
Lemma pad_rows_in_step (pv1 pv2 : Z) (A B : list (list Z)) (i : nat) (row : list Z) :
  Forall2 (λ x y, length y = length x) A B →
  pad_rows pv1 A !! i = Some row →
  ∃ x y, A !! i = Some x ∧ B !! i = Some y ∧ length y = length x
         ∧ row = x ++ replicate (max_len A - length x) pv1
         ∧ pad_rows pv2 B !! i = Some (y ++ replicate (max_len A - length x) pv2).
Proof.
  intros HAB Hrow. unfold pad_rows in Hrow. rewrite list_lookup_fmap in Hrow.
  destruct (A !! i) as [x|] eqn:Hx; [|discriminate]. injection Hrow as <-.
  destruct (Forall2_lookup_l _ _ _ _ _ HAB Hx) as (y & Hy & Hlen).
  exists x, y. split; [reflexivity|]. split; [exact Hy|]. split; [exact Hlen|].
  split; [reflexivity|].
  rewrite (pad_rows_lookup pv2 B i y Hy), <- (max_len_Forall2 A B HAB), Hlen.
  reflexivity.
Qed.

(** X3.  A batch of examples that [__getitem__] of the pre-training dataset
    returned is always collated.  Under each mode the attention mask has the
    shape of the input ids, row [i] of the ids is the [i]-th example's ids
    followed by zeros, and row [i] of the mask is 1 on exactly that
    example's own positions and 0 on the padding.  The labels of
    [global_masked] have the same shape, with -100 on the padding; there is
    never a [labels_local]. *)
Theorem produced_batches_aligned (batch : list (gmap string (list Z))) :
  Forall pt_produced batch →
  ∃ out, PreTraining.collate_fn batch = Ok out
    ∧ (∀ mode ids_rows, mode ∈ PreTraining.collate_modes →
         out !! ("input_ids_" +:+ mode) = Some ids_rows →
         ∃ mask_rows,
           out !! ("attention_mask_" +:+ mode) = Some mask_rows
           ∧ length mask_rows = length ids_rows
           ∧ ∀ i row, ids_rows !! i = Some row →
               ∃ x k, PreTraining.collect ("input_ids_" +:+ mode) batch !! i = Some x
                      ∧ row = x ++ replicate k 0
                      ∧ mask_rows !! i = Some (replicate (length x) 1 ++ replicate k 0))
    ∧ (∀ ids_rows, out !! "input_ids_global_masked" = Some ids_rows →
         ∃ label_rows,
           out !! "labels_global_masked" = Some label_rows
           ∧ length label_rows = length ids_rows
           ∧ ∀ i row, ids_rows !! i = Some row →
               ∃ x l k, row = x ++ replicate k 0
                        ∧ PreTraining.collect "labels_global_masked" batch !! i = Some l
                        ∧ length l = length x
                        ∧ label_rows !! i = Some (l ++ replicate k (-100)))
    ∧ out !! "labels_local" = None.
Proof.
  intros Hprod. rewrite Forall_forall in Hprod.
  assert (Hmask : ∀ mode, mode ∈ PreTraining.collate_modes →
            Forall2 (λ x y, y = replicate (length x) 1)
              (PreTraining.collect ("input_ids_" +:+ mode) batch)
              (PreTraining.collect ("attention_mask_" +:+ mode) batch)).
  { intros mode Hmode. unfold PreTraining.collate_modes in Hmode.
    rewrite !elem_of_cons in Hmode.
    destruct Hmode as [->|[->|Hmode]]; [| |inversion Hmode];
      apply collect_Forall2; intros item Hin;
      destruct (pt_produced_shape item (Hprod item Hin)) as (Hg & Hl & _).
    - destruct Hg as [(H1 & H2 & _)|(x & l & H1 & H2 & _)]; [left; auto|].
      right. exists x, (replicate (length x) 1). auto.
    - destruct Hl as [(H1 & H2)|(x & H1 & H2)]; [left; auto|].
      right. exists x, (replicate (length x) 1). auto. }
  assert (Hlbl : Forall2 (λ x l, length l = length x)
            (PreTraining.collect "input_ids_global_masked" batch)
            (PreTraining.collect "labels_global_masked" batch)).
  { apply collect_Forall2. intros item Hin.
    destruct (pt_produced_shape item (Hprod item Hin)) as (Hg & _).
    destruct Hg as [(H1 & _ & H3)|(x & l & H1 & _ & H3 & Hlen)]; [left; auto|].
    right. exists x, l. auto. }
  assert (Hnolocal : PreTraining.collect "labels_local" batch = []).
  { destruct (PreTraining.collect "labels_local" batch) as [|t ts] eqn:E;
      [reflexivity|].
    assert (Ht : t ∈ PreTraining.collect "labels_local" batch) by (rewrite E; left).
    apply elem_of_collect in Ht as (item & Hin & Hitem).
    destruct (pt_produced_shape item (Hprod item Hin)) as (_ & _ & Hnone).
    congruence. }
  assert (Hlen1 : ∀ mode, mode ∈ PreTraining.collate_modes →
            Forall2 (λ x y : list Z, length y = length x)
              (PreTraining.collect ("input_ids_" +:+ mode) batch)
              (PreTraining.collect ("attention_mask_" +:+ mode) batch)).
  { intros mode Hmode. eapply Forall2_impl; [apply Hmask; exact Hmode|].
    intros x y ->. apply length_replicate. }
  destruct (pretraining_collate_run batch) as (out & Hout & Hkeys).
  { intros mode Hmode Hne Hnil. apply Hne.
    pose proof (Forall2_length _ _ _ (Hlen1 mode Hmode)) as Hl.
    rewrite Hnil in Hl.
    destruct (PreTraining.collect ("input_ids_" +:+ mode) batch); [reflexivity|].
    discriminate Hl. }
  exists out. split; [exact Hout|]. split; [|split].
  - intros mode ids_rows Hmode Hids.
    pose proof (Hkeys mode "input_ids_" 0 Hmode ltac:(left)) as Hi.
    pose proof (Hkeys mode "attention_mask_" 0 Hmode ltac:(right; left)) as Hm.
    pose proof (Hlen1 mode Hmode) as Hl. pose proof (Hmask mode Hmode) as HM.
    rewrite Hids in Hi.
    destruct (PreTraining.collect ("input_ids_" +:+ mode) batch) as [|c C] eqn:EI;
      [discriminate|].
    injection Hi as ->.
    destruct (PreTraining.collect ("attention_mask_" +:+ mode) batch) as [|m M] eqn:EM;
      [inversion Hl|].
    eexists. split; [exact Hm|]. split.
    { rewrite !pad_rows_length. symmetry. eapply Forall2_length. exact Hl. }
    intros i row Hrow.
    destruct (pad_rows_in_step 0 0 _ _ i row Hl Hrow)
      as (x & y & Hx & Hy & _ & -> & Hmrow).
    exists x, (max_len (c :: C) - length x)%nat.
    split; [exact Hx|]. split; [reflexivity|]. rewrite Hmrow.
    destruct (Forall2_lookup_l _ _ _ _ _ HM Hx) as (y' & Hy' & ->).
    assert (y = replicate (length x) 1) as -> by congruence. reflexivity.
  - intros ids_rows Hids.
    assert (Hg : "global_masked" ∈ PreTraining.collate_modes) by left.
    pose proof (Hkeys _ "input_ids_" 0 Hg ltac:(left)) as Hi.
    pose proof (Hkeys _ "labels_" (-100) Hg ltac:(right; right; left)) as Hb.
    change ("input_ids_" +:+ "global_masked") with "input_ids_global_masked" in Hi, Hb.
    change ("labels_" +:+ "global_masked") with "labels_global_masked" in Hb.
    rewrite Hids in Hi.
    destruct (PreTraining.collect "input_ids_global_masked" batch) as [|c C] eqn:EI;
      [discriminate|].
    injection Hi as ->.
    destruct (PreTraining.collect "labels_global_masked" batch) as [|b B] eqn:EB;
      [inversion Hlbl|].
    eexists. split; [exact Hb|]. split.
    { rewrite !pad_rows_length. symmetry. eapply Forall2_length. exact Hlbl. }
    intros i row Hrow.
    destruct (pad_rows_in_step 0 (-100) _ _ i row Hlbl Hrow)
      as (x & l & Hx & Hy & Hlen & -> & Hlrow).
    exists x, l, (max_len (c :: C) - length x)%nat. auto.
  - assert (Hl : "local" ∈ PreTraining.collate_modes) by (right; left).
    pose proof (Hkeys _ "labels_" (-100) Hl ltac:(right; right; left)) as Hb.
    change ("labels_" +:+ "local") with "labels_local" in Hb.
    rewrite Hnolocal in Hb. rewrite Hb.
    destruct (PreTraining.collect ("input_ids_" +:+ "local") batch); reflexivity.
Qed.

Lemma produced_batches_aligned_witness :
  ∃ out, PreTraining.collate_fn [item_pt_both; item_pt_default] = Ok out
    ∧ out !! "labels_local" = None
    ∧ (∀ ids_rows, out !! "input_ids_global_masked" = Some ids_rows →
         ∃ label_rows, out !! "labels_global_masked" = Some label_rows
                       ∧ length label_rows = length ids_rows).
Proof.
  destruct (produced_batches_aligned [item_pt_both; item_pt_default])
    as (out & Hout & _ & Hlbl & Hnone).
  - constructor; [|constructor; [|constructor]].
    + assert (Hok : is_okb (PreTraining.getitem pt_both 0 g_zero) = true)
        by (vm_compute; reflexivity).
      unfold item_pt_both.
      destruct (PreTraining.getitem pt_both 0 g_zero) as [[item g']|e] eqn:E;
        [|discriminate Hok].
      exists pt_both, 0, g_zero, g'. exact E.
    + assert (Hok : is_okb (PreTraining.getitem pt_default 0 g_high) = true)
        by (vm_compute; reflexivity).
      unfold item_pt_default.
      destruct (PreTraining.getitem pt_default 0 g_high) as [[item g']|e] eqn:E;
        [|discriminate Hok].
      exists pt_default, 0, g_high, g'. exact E.
  - exists out. split; [exact Hout|]. split; [exact Hnone|].
    intros ids_rows Hids. destruct (Hlbl ids_rows Hids) as (lr & H1 & H2 & _).
    exists lr. auto.
Defined.

(** ** When the collator of [DatasetClass.py] returns, and how it fails *)

Lemma rmapM_raise_inv {A B} (f : A → result B) (l : list A) (e : exn) :
  rmapM f l = Raise e → ∃ a, a ∈ l ∧ f a = Raise e.
Proof.
  induction l as [|a l IH]; cbn [rmapM]; [discriminate|].
  destruct (f a) as [b|e'] eqn:Hf; cbn [mbind result_bind].
  - destruct (rmapM f l) as [bs|e'] eqn:Hl; cbn [mbind result_bind]; [discriminate|].
    intros [= ->]. destruct IH as (a' & Hin & Ha'); [reflexivity|].
    exists a'. split; [right; exact Hin | exact Ha'].
  - intros [= ->]. exists a. split; [left | exact Hf].
Qed.

Lemma rfoldl_raise_inv {A B} (f : A → B → result A) (l : list B) :
  ∀ (a : A) (e : exn), rfoldl f a l = Raise e →
    ∃ a' b, b ∈ l ∧ f a' b = Raise e.
Proof.
  induction l as [|b l IH]; intros a e; cbn [rfoldl]; [discriminate|].
  destruct (f a b) as [a1|e'] eqn:Hf; cbn [mbind result_bind].
  - intros H. destruct (IH a1 e H) as (a' & b' & Hin & Hb').
    exists a', b'. split; [right; exact Hin | exact Hb'].
  - intros [= ->]. exists a, b. split; [left | exact Hf].
Qed.

(** The key loop on a batch that has every key within the batch length. *)
Lemma collate_keys_run (batch : list (gmap string (list Z))) (L : Z)
    (keys : list string) :
  batch ≠ [] →
  (∀ item key, item ∈ batch → key ∈ keys → ∃ t, item !! key = Some t ∧ len t ≤ L) →
  ∀ pb : gmap string (list (list Z)),
    ∃ out, rfoldl (DatasetClass.collate_key batch L) pb keys = Ok out
           ∧ ∀ key, is_Some (out !! key) ↔ key ∈ keys ∨ is_Some (pb !! key).
Proof.
  intros Hne. induction keys as [|k keys IH]; intros Hall pb.
  - exists pb. split; [reflexivity|]. intros key. split; [auto|].
    intros [H|H]; [inversion H | exact H].
  - cbn [rfoldl].
    destruct (collate_key_ok batch L pb k Hne) as [rows ->].
    { intros item Hin. apply Hall; [exact Hin | left]. }
    cbn [mbind result_bind].
    destruct (IH (λ item key Hi Hk, Hall item key Hi (list_elem_of_further _ _ _ Hk))
                 (<[k := rows]> pb)) as (out & -> & Hkeys).
    exists out. split; [reflexivity|]. intros key. rewrite Hkeys.
    rewrite lookup_insert_is_Some', elem_of_cons. split.
    + intros [H|[->|H]]; auto.
    + intros [[->|H]|H]; auto.
Qed.

(** The key loop, when it returned: every key of the list was padded for
    every example, and the result has the keys of the list besides those it
    started with. *)
Lemma collate_keys_ok_inv (batch : list (gmap string (list Z))) (L : Z)
    (keys : list string) : ∀ (pb out : gmap string (list (list Z))),
  rfoldl (DatasetClass.collate_key batch L) pb keys = Ok out →
  (∀ key, key ∈ keys → ∃ rows, rmapM (DatasetClass.pad_item L key) batch = Ok rows)
  ∧ (∀ key, is_Some (out !! key) ↔ key ∈ keys ∨ is_Some (pb !! key)).
Proof.
  induction keys as [|k keys IH]; intros pb out; cbn [rfoldl].
  - intros [= <-]. split; [intros key H; inversion H|].
    intros key. split; [auto|]. intros [H|H]; [inversion H | exact H].
  - destruct (DatasetClass.collate_key batch L pb k) as [pb'|] eqn:Hk; [|discriminate].
    cbn [mbind result_bind]. intros Hrest.
    apply collate_key_inv in Hk as (rows & Hrows & ->).
    destruct (IH _ _ Hrest) as [Hall Hkeys]. split.
    + intros key Hin. apply elem_of_cons in Hin as [->|Hin]; [eauto|].
      apply Hall. exact Hin.
    + intros key. rewrite Hkeys, lookup_insert_is_Some', elem_of_cons. split.
      * intros [H|[->|H]]; auto.
      * intros [[->|H]|H]; auto.
Qed.

Lemma ids_are_collate_keys :
  "input_ids_global" ∈ DatasetClass.collate_keys
  ∧ "input_ids_local" ∈ DatasetClass.collate_keys.
Proof.
  unfold DatasetClass.collate_keys. split; [left|]. do 3 right. left.
Qed.

(** X4.  The collator of [DatasetClass.py] returns exactly for the
    non-empty batches in which every example has all five keys of the key
    list and no tensor under those keys is longer than the longest
    [input_ids_global] or [input_ids_local] of the batch.  What it returns
    has the five keys of the list and no other. *)
Theorem dataset_collate_returns_iff (batch : list (gmap string (list Z))) :
  ((∃ out, DatasetClass.collate_fn batch = Ok out)
   ↔ batch ≠ []
     ∧ ∀ item key, item ∈ batch → key ∈ DatasetClass.collate_keys →
         ∃ t, item !! key = Some t
              ∧ ∃ item' a b, item' ∈ batch
                  ∧ item' !! "input_ids_global" = Some a
                  ∧ item' !! "input_ids_local" = Some b
                  ∧ len t ≤ len a `max` len b)
  ∧ (∀ out, DatasetClass.collate_fn batch = Ok out →
       ∀ key, is_Some (out !! key) ↔ key ∈ DatasetClass.collate_keys).
Proof.
  destruct ids_are_collate_keys as [HG HL]. split; [split|].
  - intros [out Hout]. unfold DatasetClass.collate_fn in Hout.
    destruct (rmapM DatasetClass.joint_len batch) as [lens|] eqn:Hlens;
      [|discriminate].
    cbn [mbind result_bind] in Hout.
    destruct (py_max lens) as [L|] eqn:Hmax; [|discriminate].
    cbn [mbind result_bind] in Hout.
    destruct (joint_len_bound batch lens L Hlens Hmax)
      as [_ (item' & a & b & Hin' & Ha & Hb & HLeq)].
    split; [intros ->; inversion Hin'|].
    intros item key Hin Hkey.
    destruct (collate_keys_ok_inv _ _ _ _ _ Hout) as [Hall _].
    destruct (Hall key Hkey) as [rows Hrows].
    apply list_elem_of_lookup in Hin as [i Hi].
    destruct (rmapM_lookup _ _ _ _ _ Hrows Hi) as (row & Hrow & _).
    apply pad_item_inv in Hrow as (t & Ht & Hle & _).
    exists t. split; [exact Ht|]. exists item', a, b. repeat split; auto. lia.
  - intros [Hne Hall]. unfold DatasetClass.collate_fn.
    destruct (rmapM_ok DatasetClass.joint_len batch) as [lens Hlens].
    { intros item Hin.
      destruct (Hall item _ Hin HG) as (a & Ha & _).
      destruct (Hall item _ Hin HL) as (b & Hb & _).
      eexists. unfold DatasetClass.joint_len.
      rewrite (getitem_dict_some _ _ _ Ha), (getitem_dict_some _ _ _ Hb).
      reflexivity. }
    rewrite Hlens. cbn [mbind result_bind].
    destruct (py_max_nonempty lens) as [L Hmax].
    { apply rmapM_length in Hlens. destruct lens, batch; try discriminate; congruence. }
    rewrite Hmax. cbn [mbind result_bind].
    destruct (joint_len_bound batch lens L Hlens Hmax) as [Hbound _].
    destruct (collate_keys_run batch L DatasetClass.collate_keys Hne) with (pb := ∅ : gmap string (list (list Z)))
      as (out & Hout & _).
    { intros item key Hin Hkey.
      destruct (Hall item key Hin Hkey) as (t & Ht & item' & a & b & Hin' & Ha & Hb & Hle).
      exists t. split; [exact Ht|].
      destruct (Hbound item' Hin') as (a' & b' & Ha' & Hb' & Hla & Hlb).
      assert (a' = a) as -> by congruence. assert (b' = b) as -> by congruence. lia. }
    exists out. exact Hout.
  - intros out Hout key. unfold DatasetClass.collate_fn in Hout.
    destruct (rmapM DatasetClass.joint_len batch) as [lens|]; [|discriminate].
    cbn [mbind result_bind] in Hout.
    destruct (py_max lens) as [L|]; [|discriminate].
    cbn [mbind result_bind] in Hout.
    destruct (collate_keys_ok_inv _ _ _ _ _ Hout) as [_ Hkeys].
    rewrite Hkeys. split; [|auto].
    intros [H|H]; [exact H | destruct (lookup_empty_not_Some key H)].
Qed.

Lemma dataset_collate_returns_iff_witness :
  ∃ out, DatasetClass.collate_fn [item_short_global] = Ok out
    ∧ is_Some (out !! "labels_global") ∧ ¬ is_Some (out !! "labels_local").
Proof.
  destruct (dataset_collate_returns_iff [item_short_global]) as [_ Hkeys].
  assert (Hok : is_okb (DatasetClass.collate_fn [item_short_global]) = true)
    by (vm_compute; reflexivity).
  destruct (DatasetClass.collate_fn [item_short_global]) as [out|e] eqn:E;
    [|discriminate Hok].
  exists out. split; [reflexivity|]. split.
  - apply (Hkeys out eq_refl). unfold DatasetClass.collate_keys. do 2 right. left.
  - intros H. apply (Hkeys out eq_refl) in H. exact (labels_local_not_a_key H).
Defined.

Lemma joint_len_raise_inv (item : gmap string (list Z)) (e : exn) :
  DatasetClass.joint_len item = Raise e →
  ∃ k, e = KeyError k ∧ k ∈ DatasetClass.collate_keys ∧ item !! k = None.
Proof.
  destruct ids_are_collate_keys as [HG HL].
  unfold DatasetClass.joint_len, getitem_dict.
  destruct (item !! "input_ids_global") eqn:Ha; cbn [mbind result_bind].
  - destruct (item !! "input_ids_local") eqn:Hb; cbn [mbind result_bind];
      [discriminate|].
    intros [= <-]. eauto.
  - intros [= <-]. eauto.
Qed.

Lemma pad_item_raise_inv (L : Z) (key : string) (item : gmap string (list Z))
    (e : exn) :
  DatasetClass.pad_item L key item = Raise e →
  (e = KeyError key ∧ item !! key = None)
  ∨ (e = RuntimeError ∧ ∃ t, item !! key = Some t ∧ L < len t).
Proof.
  unfold DatasetClass.pad_item, getitem_dict.
  destruct (item !! key) as [t|]; cbn [mbind result_bind].
  - unfold torch_full. destruct (Z.ltb_spec (L - len t) 0); cbn [mbind result_bind];
      [|discriminate].
    intros [= <-]. right. split; [reflexivity|]. exists t. split; [reflexivity | lia].
  - intros [= <-]. left. auto.
Qed.

(** X5.  How the collator of [DatasetClass.py] fails.  A [ValueError]
    means that the batch is empty; a [KeyError] names a
    key of the key list that some example lacks; a [RuntimeError] means that
    some example has, under a key of the list, a tensor longer than every
    [input_ids_global] and [input_ids_local] of the batch (the padding size
    would be negative).  It raises nothing else. *)
Theorem dataset_collate_failures (batch : list (gmap string (list Z))) (e : exn) :
  DatasetClass.collate_fn batch = Raise e →
  (e = ValueError ∧ batch = [])
  ∨ (∃ k item, e = KeyError k ∧ k ∈ DatasetClass.collate_keys
               ∧ item ∈ batch ∧ item !! k = None)
  ∨ (e = RuntimeError
     ∧ ∃ item key t, item ∈ batch ∧ key ∈ DatasetClass.collate_keys
         ∧ item !! key = Some t
         ∧ ∀ item', item' ∈ batch →
             ∃ a b, item' !! "input_ids_global" = Some a
                    ∧ item' !! "input_ids_local" = Some b
                    ∧ len a < len t ∧ len b < len t).
Proof.
  unfold DatasetClass.collate_fn.
  destruct (rmapM DatasetClass.joint_len batch) as [lens|e'] eqn:Hlens;
    cbn [mbind result_bind].
  - destruct (py_max lens) as [L|e'] eqn:Hmax; cbn [mbind result_bind].
    + intros Hloop.
      destruct (joint_len_bound batch lens L Hlens Hmax) as [Hbound Hatt].
      apply rfoldl_raise_inv in Hloop as (pb & key & Hkey & Hstep).
      unfold DatasetClass.collate_key in Hstep.
      destruct (rmapM (DatasetClass.pad_item L key) batch) as [rows|e'] eqn:Hrows;
        cbn [mbind result_bind] in Hstep.
      * exfalso. rewrite (torch_stack_ok rows (Z.to_nat L)) in Hstep; [discriminate| |].
        -- destruct Hatt as (item' & _ & _ & Hin' & _).
           apply rmapM_length in Hrows. intros ->.
           destruct batch; [inversion Hin' | discriminate Hrows].
        -- eapply rmapM_Forall; [exact Hrows|]. intros item row _ Hrow.
           apply pad_item_inv in Hrow as (_ & _ & _ & _ & Hlen).
           unfold len in Hlen. lia.
      * injection Hstep as ->.
        apply rmapM_raise_inv in Hrows as (item & Hin & Hpad).
        apply pad_item_raise_inv in Hpad as [[-> Hnone]|[-> (t & Ht & Hlong)]].
        -- right. left. exists key, item. auto.
        -- right. right. split; [reflexivity|]. exists item, key, t.
           repeat split; auto. intros item' Hin'.
           destruct (Hbound item' Hin') as (a & b & Ha & Hb & Hla & Hlb).
           exists a, b. repeat split; auto; lia.
    + intros [= <-]. destruct lens as [|x lens]; [|discriminate Hmax].
      injection Hmax as <-. left. split; [reflexivity|].
      apply rmapM_length in Hlens. destruct batch; [reflexivity | discriminate Hlens].
  - intros [= <-]. apply rmapM_raise_inv in Hlens as (item & Hin & Hj).
    apply joint_len_raise_inv in Hj as (k & -> & Hk & Hnone).
    right. left. exists k, item. auto.
Qed.

Lemma dataset_collate_failures_witness :
  (∃ item key t, item ∈ [item_long_mask] ∧ key ∈ DatasetClass.collate_keys
      ∧ item !! key = Some t
      ∧ ∀ item', item' ∈ [item_long_mask] →
          ∃ a b, item' !! "input_ids_global" = Some a
                 ∧ item' !! "input_ids_local" = Some b
                 ∧ len a < len t ∧ len b < len t)
  ∧ DatasetClass.collate_fn [] = Raise ValueError.
Proof.
  split; [|reflexivity].
  destruct (dataset_collate_failures [item_long_mask] RuntimeError)
    as [[H _]|[(k & item & H & _)|[_ H]]].
  - vm_compute. reflexivity.
  - discriminate H.
  - discriminate H.
  - exact H.
Defined.

(** ** When the pre-training collator returns *)

Lemma collate_mode_raise_inv (batch : list (gmap string (list Z)))
    (bd : gmap string (list (list Z))) (mode : string) (e : exn) :
  PreTraining.collate_mode batch bd mode = Raise e →
  e = RuntimeError
  ∧ PreTraining.collect ("input_ids_" +:+ mode) batch ≠ []
  ∧ PreTraining.collect ("attention_mask_" +:+ mode) batch = [].
Proof.
  unfold PreTraining.collate_mode.
  destruct (PreTraining.collect ("input_ids_" +:+ mode) batch) as [|i0 I];
    [discriminate|].
  cbn [pad_sequence mbind result_bind].
  destruct (PreTraining.collect ("attention_mask_" +:+ mode) batch) as [|m0 M].
  - cbn [pad_sequence mbind result_bind]. intros [= <-]. auto.
  - cbn [pad_sequence mbind result_bind].
    destruct (PreTraining.collect ("labels_" +:+ mode) batch); discriminate.
Qed.

Lemma collate_mode_raises (batch : list (gmap string (list Z)))
    (bd : gmap string (list (list Z))) (mode : string) :
  PreTraining.collect ("input_ids_" +:+ mode) batch ≠ [] →
  PreTraining.collect ("attention_mask_" +:+ mode) batch = [] →
  PreTraining.collate_mode batch bd mode = Raise RuntimeError.
Proof.
  intros Hne Hnil. unfold PreTraining.collate_mode. rewrite Hnil.
  destruct (PreTraining.collect ("input_ids_" +:+ mode) batch); [congruence|].
  reflexivity.
Qed.

(** X6.  The pre-training collator returns exactly when, for each of its
    two modes, some example has the attention mask if some example has the
    input ids; otherwise it raises [RuntimeError], and it raises nothing
    else.  What it returns is the empty dictionary exactly when no example
    has input ids of either mode; the empty batch is such a batch. *)
Theorem pretraining_collate_returns_iff (batch : list (gmap string (list Z))) :
  ((∃ out, PreTraining.collate_fn batch = Ok out)
   ↔ ∀ mode, mode ∈ PreTraining.collate_modes →
       PreTraining.collect ("input_ids_" +:+ mode) batch ≠ [] →
       PreTraining.collect ("attention_mask_" +:+ mode) batch ≠ [])
  ∧ (∀ e, PreTraining.collate_fn batch = Raise e → e = RuntimeError)
  ∧ (∀ out, PreTraining.collate_fn batch = Ok out →
       (out = ∅ ↔ ∀ mode, mode ∈ PreTraining.collate_modes →
                    PreTraining.collect ("input_ids_" +:+ mode) batch = []))
  ∧ PreTraining.collate_fn [] = Ok ∅.
Proof.
  assert (Hraise : ∀ e, PreTraining.collate_fn batch = Raise e →
            e = RuntimeError
            ∧ ∃ mode, mode ∈ PreTraining.collate_modes
                ∧ PreTraining.collect ("input_ids_" +:+ mode) batch ≠ []
                ∧ PreTraining.collect ("attention_mask_" +:+ mode) batch = []).
  { intros e. unfold PreTraining.collate_fn, PreTraining.collate_modes.
    intros H. apply rfoldl_raise_inv in H as (bd & mode & Hmode & Hstep).
    apply collate_mode_raise_inv in Hstep as (-> & Hne & Hnil).
    split; [reflexivity|]. exists mode. auto. }
  split; [split|split; [|split]].
  - intros [out Hout] mode Hmode Hne Hnil.
    unfold PreTraining.collate_fn, PreTraining.collate_modes in Hout, Hmode.
    cbn [rfoldl] in Hout. rewrite !elem_of_cons in Hmode.
    destruct Hmode as [->|[->|Hmode]]; [| |inversion Hmode].
    + rewrite (collate_mode_raises batch ∅ _ Hne Hnil) in Hout. discriminate.
    + destruct (PreTraining.collate_mode batch ∅ "global_masked") as [bd1|];
        [|discriminate].
      cbn [mbind result_bind] in Hout.
      rewrite (collate_mode_raises batch bd1 _ Hne Hnil) in Hout. discriminate.
  - intros Hmasks. destruct (pretraining_collate_run batch Hmasks) as (out & Hout & _).
    eauto.
  - intros e He. apply Hraise. exact He.
  - intros out Hout.
    assert (Hmasks : ∀ mode, mode ∈ PreTraining.collate_modes →
              PreTraining.collect ("input_ids_" +:+ mode) batch ≠ [] →
              PreTraining.collect ("attention_mask_" +:+ mode) batch ≠ []).
    { intros mode Hmode Hne Hnil.
      destruct (PreTraining.collate_fn batch) as [o|e] eqn:E; [|discriminate].
      clear Hout Hraise. unfold PreTraining.collate_fn, PreTraining.collate_modes in E, Hmode.
      cbn [rfoldl] in E. rewrite !elem_of_cons in Hmode.
      destruct Hmode as [->|[->|Hmode]]; [| |inversion Hmode].
      - rewrite (collate_mode_raises batch ∅ _ Hne Hnil) in E. discriminate.
      - destruct (PreTraining.collate_mode batch ∅ "global_masked") as [bd1|];
          [|discriminate].
        cbn [mbind result_bind] in E.
        rewrite (collate_mode_raises batch bd1 _ Hne Hnil) in E. discriminate. }
    destruct (pretraining_collate_run batch Hmasks) as (out' & Hout' & Hkeys).
    assert (out' = out) as -> by congruence. split.
    + intros -> mode Hmode.
      pose proof (Hkeys mode "input_ids_" 0 Hmode ltac:(left)) as H.
      rewrite lookup_empty in H.
      destruct (PreTraining.collect ("input_ids_" +:+ mode) batch); [reflexivity|].
      discriminate H.
    + intros Hnone. apply map_eq. intros key. rewrite lookup_empty.
      destruct (out !! key) as [rows|] eqn:Hk; [|reflexivity].
      unfold PreTraining.collate_fn, PreTraining.collate_modes in Hout.
      cbn [rfoldl] in Hout.
      unfold PreTraining.collate_mode in Hout at 2.
      rewrite (Hnone "global_masked") in Hout by left.
      cbn [mbind result_bind] in Hout.
      unfold PreTraining.collate_mode in Hout.
      rewrite (Hnone "local") in Hout by (right; left).
      injection Hout as <-. rewrite lookup_empty in Hk. discriminate.
  - reflexivity.
Qed.

Lemma pretraining_collate_returns_iff_witness :
  PreTraining.collate_fn [item_ids_only] = Raise RuntimeError
  ∧ ∃ out, PreTraining.collate_fn mixed_batch = Ok out ∧ out ≠ ∅.
Proof.
  split; [vm_compute; reflexivity|].
  destruct (pretraining_collate_returns_iff mixed_batch) as (_ & _ & Hempty & _).
  assert (Hok : is_okb (PreTraining.collate_fn mixed_batch) = true)
    by (vm_compute; reflexivity).
  destruct (PreTraining.collate_fn mixed_batch) as [out|e] eqn:E; [|discriminate Hok].
  exists out. split; [reflexivity|]. intros Hout.
  destruct (Hempty out eq_refl) as [Hnone _].
  specialize (Hnone Hout "local" ltac:(right; left)).
  vm_compute in Hnone. discriminate Hnone.
Defined.

(** ** Probability one, and raising the probability *)

Lemma unit_float_lt_one bits w : (unit_float bits w < 1)%Q.
Proof.
  unfold unit_float, Qlt. cbn [Qnum Qden]. rewrite Z.mul_1_r, Z.mul_1_l.
  assert (Hpow : 0 < 2 ^ Z.of_N bits) by (apply Z.pow_pos_nonneg; lia).
  rewrite Z2Pos.id by exact Hpow.
  change (2 ^ Z.of_N bits) with (Z.of_N 2 ^ Z.of_N bits). rewrite <- N2Z.inj_pow.
  apply N2Z.inj_lt, N.mod_lt, N.pow_nonzero. discriminate.
Qed.

(** A draw is always below probability one. *)
Lemma draw_below_one bits (p : Q) (g : Rng) (i : nat) :
  (1 <= p)%Q → draw_below bits p g i = true.
Proof.
  intros Hp. apply Qltb_lt. eapply Qlt_le_trans; [apply unit_float_lt_one | exact Hp].
Qed.

Lemma draw_below_mono bits (p q : Q) (g : Rng) (i : nat) :
  (p <= q)%Q → draw_below bits p g i = true → draw_below bits q g i = true.
Proof.
  unfold draw_below. rewrite !Qltb_lt. intros Hpq H.
  eapply Qlt_le_trans; eassumption.
Qed.

Lemma imap_constant {A B} (b : B) (l : list A) :
  imap (λ _ _, b) l = replicate (length l) b.
Proof.
  apply list_eq. intros i. rewrite list_lookup_imap.
  destruct (l !! i) as [a|] eqn:Hi; cbn.
  - symmetry. apply lookup_replicate_2. eapply lookup_lt_Some. exact Hi.
  - symmetry. apply lookup_ge_None. rewrite length_replicate.
    apply lookup_ge_None in Hi. exact Hi.
Qed.

(** X7.  With [mask_probability >= 1] every draw is below the threshold.
    The string-level operation, on a sequence with at least one token,
    replaces every token by the mask token and records every token id, so
    [labels] is the list of the token ids followed by the -100 padding; on
    a sequence without a token it raises [ValueError].  The id-level
    operation selects every position: [labels] is the list of the original
    ids and no position of [input_ids] keeps its id on purpose, each holds
    the mask id or its random id. *)
Theorem probability_one_masks_everything
    (d : DatasetClass.ProteinInteractionDataset)
    (pt : PreTraining.ProteinInteractionDataset) (sequence : string) (g : Rng) :
  let tk := DatasetClass.tokenizer d in
  let L := DatasetClass.max_length d in
  let tokens := tokenize tk sequence in
  let tk' := PreTraining.tokenizer pt in
  let ids' := map (convert_tokens_to_ids tk') (tokenize tk' sequence) in
  let n' := length ids' in
  (1 <= DatasetClass.mask_probability d)%Q →
  (1 <= PreTraining.mask_probability pt)%Q →
  2 < vocab_size tk' →
  (tokens ≠ [] →
   ∃ r g1,
     DatasetClass.mask_and_tokenize_sequence d sequence g = Ok (r, g1)
     ∧ r.2 = map (convert_tokens_to_ids tk) tokens
             ++ replicate (Z.to_nat (L - Z.of_nat (length tokens))) IGNORE
     ∧ (r.1.1, r.1.2)
       = prepare_for_model tk true
           (map (convert_tokens_to_ids tk)
              (concat (map (tokenize tk) (replicate (length tokens) (mask_token tk)))))
           L)
  ∧ (tokens = [] →
     DatasetClass.mask_and_tokenize_sequence d sequence g = Raise ValueError)
  ∧ ∃ input_ids g',
      PreTraining.random_mask_sequence pt sequence g
      = Ok ((input_ids, replicate n' 1, ids'), g')
      ∧ length input_ids = n'
      ∧ ∀ i, (i < n')%nat →
          input_ids !! i
          = Some (if draw_below 24 (8 # 10) g (n' + i)
                  then mask_token_id tk'
                  else 2 + Z.of_N (g (n' + (n' + i))%nat) mod (vocab_size tk' - 2)).
Proof.
  intros tk L tokens tk' ids' n' Hd Hpt HV.
  split; [|split].
  - intros Hne.
    destruct (mask_and_tokenize_closed d sequence g Hne) as (g1 & Hc & _).
    cbn zeta in Hc. fold tk tokens L in Hc.
    rewrite (imap_ext _ (λ _ _, mask_token tk) tokens) in Hc
      by (intros i t _; rewrite (draw_below_one _ _ _ _ Hd); reflexivity).
    rewrite (imap_ext (λ i t, if draw_below 53 _ g i then _ else IGNORE)
               (λ _ t, convert_tokens_to_ids tk t) tokens) in Hc
      by (intros i t _; rewrite (draw_below_one _ _ _ _ Hd); reflexivity).
    rewrite imap_constant in Hc.
    rewrite (imap_const (convert_tokens_to_ids tk)) in Hc.
    eexists _, g1. split; [exact Hc|]. cbn [fst snd]. split.
    + unfold len. rewrite length_fmap. reflexivity.
    + symmetry. apply surjective_pairing.
  - apply mask_and_tokenize_token_free.
  - destruct (random_mask_sequence_spec pt sequence g HV)
      as (ids & lbl & g' & Heq & Hn & Hl & Hpos).
    fold tk' ids' in Hn, Hl, Hpos. fold n' in Hn, Hl, Hpos.
    assert (Hlbl : lbl = ids').
    { apply list_eq. intros i. destruct (ids' !! i) as [orig|] eqn:Hi.
      - destruct (Hpos i orig Hi) as (H & _). rewrite H.
        rewrite (draw_below_one _ _ _ _ Hpt). reflexivity.
      - apply lookup_ge_None. apply lookup_ge_None in Hi. fold n' in Hi. lia. }
    exists ids, g'. rewrite Heq, Hn, Hlbl. split; [reflexivity|].
    split; [reflexivity|]. intros i Hi.
    destruct (lookup_lt_is_Some_2 ids' i Hi) as [orig Horig].
    destruct (Hpos i orig Horig) as (_ & H). rewrite H.
    rewrite (draw_below_one _ _ _ _ Hpt). reflexivity.
Qed.

Lemma probability_one_masks_everything_witness :
  (∃ r g1,
     DatasetClass.mask_and_tokenize_sequence ds_always pair_text g_high = Ok (r, g1)
     ∧ r.2 = [30; 21; 12; 3; 31; 5; 15; -100; -100; -100; -100; -100])
  ∧ DatasetClass.mask_and_tokenize_sequence ds_always "" g_high = Raise ValueError
  ∧ ∃ input_ids g',
      PreTraining.random_mask_sequence pt_always pair_text g_high
      = Ok ((input_ids, replicate 7 1, [30; 21; 12; 3; 31; 5; 15]), g').
Proof.
  split; [|split].
  - destruct (probability_one_masks_everything ds_always pt_always pair_text g_high)
      as (H1 & _);
      [vm_compute; discriminate | vm_compute; discriminate | reflexivity |].
    destruct H1 as (r & g1 & Heq & Hl & _); [vm_compute; discriminate|].
    exists r, g1. split; [exact Heq | exact Hl].
  - destruct (probability_one_masks_everything ds_always pt_always "" g_high)
      as (_ & H2 & _);
      [vm_compute; discriminate | vm_compute; discriminate | reflexivity |].
    apply H2. reflexivity.
  - destruct (probability_one_masks_everything ds_always pt_always pair_text g_high)
      as (_ & _ & ids & g' & H3 & _);
      [vm_compute; discriminate | vm_compute; discriminate | reflexivity |].
    exists ids, g'. exact H3.
Defined.

(** X8.  A larger [mask_probability] on the same draws only adds masks.  In
    the string-level operation a position whose label is set keeps that
    label.  In the id-level operation it keeps the label and also the very
    same entry of [input_ids], since the mask-or-random draw and the random
    id of a position do not depend on [mask_probability]. *)
Theorem raising_probability_keeps_masks
    (d : DatasetClass.ProteinInteractionDataset)
    (pt : PreTraining.ProteinInteractionDataset) (q : Q) (sequence : string)
    (g : Rng) :
  let d' := {| DatasetClass.dataframe := DatasetClass.dataframe d;
               DatasetClass.tokenizer := DatasetClass.tokenizer d;
               DatasetClass.max_length := DatasetClass.max_length d;
               DatasetClass.mask_probability := q |} in
  let pt' := {| PreTraining.dataframe := PreTraining.dataframe pt;
                PreTraining.tokenizer := PreTraining.tokenizer pt;
                PreTraining.mask_probability := q;
                PreTraining.modes := PreTraining.modes pt |} in
  (DatasetClass.mask_probability d <= q)%Q →
  (PreTraining.mask_probability pt <= q)%Q →
  2 < vocab_size (PreTraining.tokenizer pt) →
  (∀ r g1, DatasetClass.mask_and_tokenize_sequence d sequence g = Ok (r, g1) →
     ∃ r' g1',
       DatasetClass.mask_and_tokenize_sequence d' sequence g = Ok (r', g1')
       ∧ ∀ i l, (i < length (tokenize (DatasetClass.tokenizer d) sequence))%nat →
           r.2 !! i = Some l → l ≠ IGNORE → r'.2 !! i = Some l)
  ∧ ∃ ids lbl g1 ids' lbl' g1',
      PreTraining.random_mask_sequence pt sequence g
      = Ok ((ids, replicate (length ids) 1, lbl), g1)
      ∧ PreTraining.random_mask_sequence pt' sequence g
        = Ok ((ids', replicate (length ids') 1, lbl'), g1')
      ∧ ∀ i l, lbl !! i = Some l → l ≠ IGNORE →
          lbl' !! i = Some l ∧ ids' !! i = ids !! i.
Proof.
  intros d' pt' Hd Hpt HV. split.
  - intros r g1 Heq.
    destruct (mask_and_tokenize_inv d sequence g r g1 Heq) as (Hne & _ & _).
    destruct (mask_and_tokenize_returns d' sequence g Hne) as (r' & g1' & Heq').
    exists r', g1'. split; [exact Heq'|].
    intros i l Hi Hl Hnl.
    destruct (lookup_lt_is_Some_2 _ i Hi) as [t Ht].
    pose proof (mask_and_tokenize_label d sequence g i t r g1 Ht Heq) as H.
    pose proof (mask_and_tokenize_label d' sequence g i t r' g1' Ht Heq') as H'.
    cbn zeta in H, H'. rewrite H in Hl. injection Hl as <-.
    rewrite H'. cbn [DatasetClass.mask_probability DatasetClass.tokenizer d'].
    destruct (draw_below 53 (DatasetClass.mask_probability d) g i) eqn:E;
      [|congruence].
    rewrite (draw_below_mono _ _ _ _ _ Hd E). reflexivity.
  - destruct (random_mask_sequence_spec pt sequence g HV)
      as (ids & lbl & g1 & Heq & Hn & Hl & Hpos).
    destruct (random_mask_sequence_spec pt' sequence g HV)
      as (ids' & lbl' & g1' & Heq' & Hn' & Hl' & Hpos').
    exists ids, lbl, g1, ids', lbl', g1'. split; [exact Heq|].
    split; [exact Heq'|]. intros i l Hli Hne.
    cbn [PreTraining.tokenizer PreTraining.mask_probability pt'] in Hpos', Hn', Hl'.
    destruct (lookup_lt_is_Some_2
                (map (convert_tokens_to_ids (PreTraining.tokenizer pt))
                     (tokenize (PreTraining.tokenizer pt) sequence)) i)
      as [orig Horig].
    { rewrite <- Hl. eapply lookup_lt_Some. exact Hli. }
    destruct (Hpos i orig Horig) as (H1 & H2).
    destruct (Hpos' i orig Horig) as (H1' & H2').
    rewrite H1 in Hli. injection Hli as <-.
    destruct (draw_below 24 (PreTraining.mask_probability pt) g i) eqn:E;
      [|congruence].
    rewrite (draw_below_mono _ _ _ _ _ Hpt E) in H1', H2'.
    split; [exact H1' | congruence].
Qed.

Lemma raising_probability_keeps_masks_witness :
  ∃ r' g1',
    DatasetClass.mask_and_tokenize_sequence ds_half pair_text g_zero = Ok (r', g1')
    ∧ r'.2 !! 1%nat = Some 21.
Proof.
  destruct (raising_probability_keeps_masks ds_wide pt_default (1 # 2) pair_text g_zero)
    as [H _]; [vm_compute; discriminate | vm_compute; discriminate | reflexivity |].
  destruct (mask_and_tokenize_returns ds_wide pair_text g_zero) as (r & g1 & Heq);
    [vm_compute; discriminate|].
  destruct (H r g1 Heq) as (r' & g1' & Heq' & Hkeep).
  exists r', g1'. split; [exact Heq'|].
  apply (Hkeep 1%nat 21); [change (1 < 7)%nat; lia | | unfold IGNORE; lia].
  exact (mask_and_tokenize_label ds_wide pair_text g_zero 1 "M" r g1 eq_refl Heq).
Defined.

(** ** The draws an operation consumes *)

Lemma mask_and_tokenize_rng (self : DatasetClass.ProteinInteractionDataset)
    (sequence : string) (g : Rng) (r : list Z * list Z * list Z) (g' : Rng) (j : nat) :
  DatasetClass.mask_and_tokenize_sequence self sequence g = Ok (r, g') →
  g' j = g (length (tokenize (DatasetClass.tokenizer self) sequence) + j)%nat.
Proof.
  intros Heq. destruct (mask_and_tokenize_inv self sequence g r g' Heq) as (_ & _ & H).
  apply H.
Qed.

(** X9.  The string-level operation calls [random.random()] once per token
    and not otherwise: the generator it leaves behind is the one it was
    given, moved on by the number of tokens, and what it returns depends on
    no later draw.  It returns for every sequence with a token, and raises
    [ValueError] for a sequence without one, whatever the draws.  This
    holds for every [mask_probability], zero included. *)
Theorem mask_and_tokenize_draws (self : DatasetClass.ProteinInteractionDataset)
    (sequence : string) (g : Rng) :
  let n := length (tokenize (DatasetClass.tokenizer self) sequence) in
  (∀ r g', DatasetClass.mask_and_tokenize_sequence self sequence g = Ok (r, g') →
     ∀ j, g' j = g (n + j)%nat)
  ∧ (∀ g2 : Rng, (∀ i, (i < n)%nat → g2 i = g i) →
       (∀ r g', DatasetClass.mask_and_tokenize_sequence self sequence g = Ok (r, g') →
          ∃ g2', DatasetClass.mask_and_tokenize_sequence self sequence g2 = Ok (r, g2'))
       ∧ (∀ e, DatasetClass.mask_and_tokenize_sequence self sequence g = Raise e →
            DatasetClass.mask_and_tokenize_sequence self sequence g2 = Raise e))
  ∧ ((0 < n)%nat →
     ∃ r g', DatasetClass.mask_and_tokenize_sequence self sequence g = Ok (r, g'))
  ∧ (n = 0%nat →
     DatasetClass.mask_and_tokenize_sequence self sequence g = Raise ValueError).
Proof.
  intros n. split; [|split; [|split]].
  - intros r g' Heq j. exact (mask_and_tokenize_rng self sequence g r g' j Heq).
  - intros g2 Hsame.
    assert (Hdraw : ∀ i t, tokenize (DatasetClass.tokenizer self) sequence !! i = Some t →
              draw_below 53 (DatasetClass.mask_probability self) g2 i
              = draw_below 53 (DatasetClass.mask_probability self) g i).
    { intros i t Hi. unfold draw_below. rewrite Hsame; [reflexivity|].
      eapply lookup_lt_Some. exact Hi. }
    split.
    + intros r g' Heq.
      destruct (mask_and_tokenize_inv self sequence g r g' Heq) as (Hne & -> & _).
      destruct (mask_and_tokenize_closed self sequence g2 Hne) as (g2' & Heq2 & _).
      exists g2'. rewrite Heq2. cbn zeta.
      rewrite (imap_ext (λ i t, if draw_below 53 _ g2 i then mask_token _ else t)
                 (λ i t, if draw_below 53 (DatasetClass.mask_probability self) g i
                         then mask_token (DatasetClass.tokenizer self) else t))
        by (intros i t Hi; rewrite (Hdraw i t Hi); reflexivity).
      rewrite (imap_ext (λ i t, if draw_below 53 _ g2 i then _ else IGNORE)
                 (λ i t, if draw_below 53 (DatasetClass.mask_probability self) g i
                         then convert_tokens_to_ids (DatasetClass.tokenizer self) t
                         else IGNORE))
        by (intros i t Hi; rewrite (Hdraw i t Hi); reflexivity).
      reflexivity.
    + intros e He.
      destruct (decide (tokenize (DatasetClass.tokenizer self) sequence = []))
        as [Hnil|Hne].
      * rewrite (mask_and_tokenize_token_free self sequence g Hnil) in He.
        injection He as <-. apply mask_and_tokenize_token_free. exact Hnil.
      * destruct (mask_and_tokenize_returns self sequence g Hne) as (r & g' & Heq).
        rewrite Heq in He. discriminate.
  - intros Hpos. apply mask_and_tokenize_returns.
    intros He. subst n. rewrite He in Hpos. simpl in Hpos. lia.
  - intros Hz. apply mask_and_tokenize_token_free. apply length_zero_iff_nil. exact Hz.
Qed.

Lemma random_mask_sequence_rng (self : PreTraining.ProteinInteractionDataset)
    (sequence : string) (g : Rng) :
  let n := length (tokenize (PreTraining.tokenizer self) sequence) in
  2 < vocab_size (PreTraining.tokenizer self) →
  ∃ r, PreTraining.random_mask_sequence self sequence g
       = Ok (r, advance n (advance n (advance n g))).
Proof.
  intros n HV. unfold PreTraining.random_mask_sequence.
  cbv beta iota zeta delta [torch_rand].
  rewrite torch_randint_ok by lia.
  unfold mbind, result_bind. cbv beta iota zeta.
  rewrite !length_map. fold n. eexists. reflexivity.
Qed.

(** X10.  The id-level operation consumes three draws per token, for every
    [mask_probability]: selection, mask-or-random and the random id are
    drawn for all positions whether or not they are used.  The generator it
    leaves behind is the one it was given moved on by three times the
    number of tokens, and the tensors it returns depend on no later draw. *)
Theorem random_mask_sequence_draws (self : PreTraining.ProteinInteractionDataset)
    (sequence : string) (g : Rng) :
  let n := length (tokenize (PreTraining.tokenizer self) sequence) in
  2 < vocab_size (PreTraining.tokenizer self) →
  ∃ r g', PreTraining.random_mask_sequence self sequence g = Ok (r, g')
    ∧ (∀ j, g' j = g (n + (n + (n + j)))%nat)
    ∧ ∀ g2 : Rng, (∀ i, (i < n + (n + n))%nat → g2 i = g i) →
        ∃ g2', PreTraining.random_mask_sequence self sequence g2 = Ok (r, g2').
Proof.
  intros n HV.
  destruct (random_mask_sequence_rng self sequence g HV) as [r Hr]. fold n in Hr.
  exists r, (advance n (advance n (advance n g))). split; [exact Hr|].
  split; [reflexivity|]. intros g2 Hsame.
  destruct (random_mask_sequence_spec self sequence g HV)
    as (ids & lbl & g1 & Heq & Hn & Hl & Hpos).
  destruct (random_mask_sequence_spec self sequence g2 HV)
    as (ids2 & lbl2 & g2' & Heq2 & Hn2 & Hl2 & Hpos2).
  rewrite length_map in Hn, Hl, Hn2, Hl2, Hpos, Hpos2.
  fold n in Hn, Hl, Hn2, Hl2, Hpos, Hpos2.
  rewrite Heq in Hr. injection Hr as <- _.
  exists g2'. rewrite Heq2.
  assert (Hids : ids2 = ids ∧ lbl2 = lbl).
  { split; apply list_eq; intros i;
      destruct (map (convert_tokens_to_ids (PreTraining.tokenizer self))
                    (tokenize (PreTraining.tokenizer self) sequence) !! i)
        as [orig|] eqn:Hi.
    - destruct (Hpos i orig Hi) as (_ & ->). destruct (Hpos2 i orig Hi) as (_ & ->).
      apply lookup_lt_Some in Hi. rewrite length_map in Hi. fold n in Hi.
      unfold draw_below. rewrite !Hsame by lia. reflexivity.
    - apply lookup_ge_None in Hi. rewrite length_map in Hi. fold n in Hi.
      rewrite !(proj2 (lookup_ge_None _ _)) by lia. reflexivity.
    - destruct (Hpos i orig Hi) as (-> & _). destruct (Hpos2 i orig Hi) as (-> & _).
      apply lookup_lt_Some in Hi. rewrite length_map in Hi. fold n in Hi.
      unfold draw_below. rewrite !Hsame by lia. reflexivity.
    - apply lookup_ge_None in Hi. rewrite length_map in Hi. fold n in Hi.
      rewrite !(proj2 (lookup_ge_None _ _)) by lia. reflexivity. }
  destruct Hids as [-> ->]. reflexivity.
Qed.

Lemma random_mask_sequence_draws_witness :
  ∃ r g', PreTraining.random_mask_sequence pt_unmasked pair_text g_high = Ok (r, g')
    ∧ ∀ j, g' j = g_high (21 + j)%nat.
Proof.
  destruct (random_mask_sequence_draws pt_unmasked pair_text g_high)
    as (r & g' & Heq & Hg & _); [reflexivity|].
  exists r, g'. split; [exact Heq|]. intros j. rewrite Hg. reflexivity.
Defined.

(** ** The preprocessing of the notebook: cutting the four columns *)

Lemma str_take_length (n : nat) : ∀ s : string,
  String.length (str_take n s) = Nat.min n (String.length s).
Proof.
  induction n as [|n IH]; intros [|c s]; cbn [str_take String.length]; try reflexivity.
  rewrite IH. reflexivity.
Qed.

Lemma str_take_prefix (n : nat) : ∀ s : string,
  String.prefix (str_take n s) s = true.
Proof.
  induction n as [|n IH]; intros [|c s]; cbn [str_take]; try reflexivity.
  cbn [String.prefix]. destruct (ascii_dec c c) as [_|Hne]; [apply IH | congruence].
Qed.

Lemma prefix_refl (s : string) : String.prefix s s = true.
Proof.
  induction s as [|c s IH]; [reflexivity|].
  cbn [String.prefix]. destruct (ascii_dec c c) as [_|Hne]; [exact IH | congruence].
Qed.

(** The cell step: at most 500 characters, a prefix of the cell, the cell
    itself when it is short enough. *)
Lemma truncate_cell_spec (x : string) :
  (String.length (PreTraining.truncate_cell x) ≤ 500)%nat
  ∧ String.prefix (PreTraining.truncate_cell x) x = true
  ∧ ((String.length x ≤ 500)%nat → PreTraining.truncate_cell x = x)
  ∧ ((500 < String.length x)%nat → String.length (PreTraining.truncate_cell x) = 500%nat).
Proof.
  unfold PreTraining.truncate_cell.
  destruct (Nat.ltb_spec 500 (String.length x)) as [Hlong|Hshort].
  - rewrite str_take_length. split; [lia|]. split; [apply str_take_prefix|].
    split; [lia|]. intros _. lia.
  - split; [exact Hshort|]. split; [apply prefix_refl|]. split; [reflexivity | lia].
Qed.

Lemma iloc_rows (df : DataFrame) (idx : Z) (row : gmap string string) :
  iloc df idx = Ok row →
  ∃ k cells, rows df !! k = Some cells
             ∧ row = list_to_map (zip (columns df) cells)
             ∧ ∀ df', length (rows df') = length (rows df) →
                 iloc df' idx
                 = match rows df' !! k with
                   | Some cells' => Ok (list_to_map (zip (columns df') cells'))
                   | None => Raise IndexError
                   end.
Proof.
  unfold iloc. intros H.
  set (n := Z.of_nat (length (rows df))) in *.
  destruct ((0 <=? (if idx <? 0 then idx + n else idx))
            && ((if idx <? 0 then idx + n else idx) <? n)) eqn:Hb; [|discriminate].
  destruct (rows df !! Z.to_nat (if idx <? 0 then idx + n else idx)) as [cells|] eqn:Hc;
    [|discriminate].
  injection H as <-. eexists _, cells. split; [exact Hc|]. split; [reflexivity|].
  intros df' Hlen. rewrite Hlen. fold n. rewrite Hb. reflexivity.
Qed.

(** One column replaced: a row read afterwards has the new cell under that
    column and the old cells under the others. *)
Lemma apply_column_spec (f : string → string) (df df' : DataFrame) (col : string) :
  PreTraining.apply_column f df col = Ok df' →
  columns df' = columns df
  ∧ length (rows df') = length (rows df)
  ∧ ∀ idx row, iloc df idx = Ok row →
      ∃ row', iloc df' idx = Ok row'
        ∧ ∀ c, row' !! c = if decide (c = col) then f <$> row !! c else row !! c.
Proof.
  unfold PreTraining.apply_column.
  destruct (list_find (λ c, c = col) (columns df)) as [[j y]|] eqn:Hfind;
    [|discriminate].
  intros [= <-]. cbn [columns rows]. split; [reflexivity|].
  split; [apply length_map|]. intros idx row Hrow.
  destruct (iloc_rows df idx row Hrow) as (k & cells & Hk & -> & Hdf').
  rewrite (Hdf' {| columns := columns df; rows := map (alter f j) (rows df) |})
    by apply length_map.
  cbn [columns rows]. rewrite list_lookup_fmap, Hk. cbn [fmap option_fmap option_map].
  eexists. split; [reflexivity|]. intros c. rewrite !lookup_zip_columns.
  apply list_find_Some in Hfind as (Hj & -> & Hfirst).
  destruct (decide (c = col)) as [->|Hne].
  - destruct (list_find (λ c', c' = col) (columns df)) as [[j' y']|] eqn:Hfind'.
    + apply list_find_Some in Hfind' as (Hj' & -> & Hfirst').
      assert (j' = j) as ->.
      { destruct (Nat.lt_trichotomy j' j) as [Hlt|[Heq|Hgt]]; [|exact Heq|].
        - destruct (Hfirst j' col Hj' Hlt). reflexivity.
        - destruct (Hfirst' j col Hj Hgt). reflexivity. }
      apply list_lookup_alter_eq.
    + apply list_find_None in Hfind'. rewrite Forall_forall in Hfind'.
      destruct (Hfind' col); [eapply list_elem_of_lookup_2; exact Hj | reflexivity].
  - destruct (list_find (λ c', c' = c) (columns df)) as [[j' y']|] eqn:Hfind';
      [|reflexivity].
    apply list_find_Some in Hfind' as (Hj' & -> & _).
    apply list_lookup_alter_ne. intros ->. congruence.
Qed.

Lemma apply_column_ok (f : string → string) (df : DataFrame) (col : string) :
  col ∈ columns df → ∃ df', PreTraining.apply_column f df col = Ok df'.
Proof.
  intros Hin. unfold PreTraining.apply_column.
  destruct (list_find_column _ _ Hin) as (j & -> & _). eauto.
Qed.

Lemma apply_column_missing (f : string → string) (df : DataFrame) (col : string) :
  col ∉ columns df → PreTraining.apply_column f df col = Raise (KeyError col).
Proof.
  intros Hout. unfold PreTraining.apply_column.
  destruct (list_find (λ c, c = col) (columns df)) as [[j y]|] eqn:Hfind;
    [|reflexivity].
  apply list_find_Some in Hfind as (Hj & -> & _).
  destruct Hout. eapply list_elem_of_lookup_2. exact Hj.
Qed.

(** Several distinct columns replaced one after the other. *)
Lemma apply_columns_spec (f : string → string) (cols : list string) :
  NoDup cols → ∀ df df',
  rfoldl (PreTraining.apply_column f) df cols = Ok df' →
  columns df' = columns df
  ∧ length (rows df') = length (rows df)
  ∧ (∀ c, c ∈ cols → c ∈ columns df)
  ∧ ∀ idx row, iloc df idx = Ok row →
      ∃ row', iloc df' idx = Ok row'
        ∧ ∀ c, row' !! c = if bool_decide (c ∈ cols) then f <$> row !! c else row !! c.
Proof.
  induction 1 as [|k cols Hk _ IH]; intros df df'; cbn [rfoldl].
  - intros [= <-]. split; [reflexivity|]. split; [reflexivity|].
    split; [intros c Hc; inversion Hc|].
    intros idx row Hrow. exists row. split; [exact Hrow|]. intros c.
    rewrite bool_decide_eq_false_2 by apply not_elem_of_nil. reflexivity.
  - destruct (PreTraining.apply_column f df k) as [df1|] eqn:H1; [|discriminate].
    cbn [mbind result_bind]. intros Hrest.
    destruct (apply_column_spec f df df1 k H1) as (Hc1 & Hl1 & Hrow1).
    destruct (IH df1 df' Hrest) as (Hc2 & Hl2 & Hin2 & Hrow2).
    split; [congruence|]. split; [congruence|]. split.
    { intros c Hc. apply elem_of_cons in Hc as [->|Hc].
      - destruct (decide (k ∈ columns df)) as [Hin|Hout]; [exact Hin|].
        rewrite (apply_column_missing f df k Hout) in H1. discriminate.
      - rewrite <- Hc1. apply Hin2. exact Hc. }
    intros idx row Hrow.
    destruct (Hrow1 idx row Hrow) as (row1 & Hr1 & Hcells1).
    destruct (Hrow2 idx row1 Hr1) as (row2 & Hr2 & Hcells2).
    exists row2. split; [exact Hr2|]. intros c. rewrite Hcells2, Hcells1.
    destruct (decide (c = k)) as [->|Hne].
    + rewrite (bool_decide_eq_false_2 _ Hk).
      rewrite bool_decide_eq_true_2 by left. reflexivity.
    + destruct (decide (c ∈ cols)) as [Hin|Hout].
      * rewrite (bool_decide_eq_true_2 _ Hin).
        rewrite bool_decide_eq_true_2 by (right; exact Hin). reflexivity.
      * rewrite (bool_decide_eq_false_2 _ Hout).
        rewrite bool_decide_eq_false_2; [reflexivity|].
        intros H'. apply elem_of_cons in H' as [->|H']; contradiction.
Qed.

Lemma apply_columns_ok (f : string → string) (cols : list string) : ∀ df,
  (∀ c, c ∈ cols → c ∈ columns df) →
  ∃ df', rfoldl (PreTraining.apply_column f) df cols = Ok df'.
Proof.
  induction cols as [|k cols IH]; intros df Hall; cbn [rfoldl]; [eauto|].
  destruct (apply_column_ok f df k) as [df1 H1]; [apply Hall; left|].
  rewrite H1. cbn [mbind result_bind]. apply IH.
  intros c Hc. destruct (apply_column_spec f df df1 k H1) as (-> & _).
  apply Hall. right. exact Hc.
Qed.

Lemma columns_to_truncate_NoDup : NoDup PreTraining.columns_to_truncate.
Proof.
  unfold PreTraining.columns_to_truncate.
  repeat (apply NoDup_cons_2;
          [rewrite ?not_elem_of_cons; repeat split; try discriminate;
           apply not_elem_of_nil|]).
  apply NoDup_nil_2.
Qed.

(** X11.  The preprocessing loop of the notebook runs through exactly on the
    frames that have the four sequence columns.  It keeps the columns and
    the number of rows; a row read afterwards has, under each of the four
    columns, the old cell cut to its first 500 characters (the cell itself
    when it had no more), and under every other column the old cell. *)
Theorem truncate_columns_spec (df : DataFrame) :
  ((∃ df', PreTraining.truncate_columns df = Ok df')
   ↔ ∀ c, c ∈ PreTraining.columns_to_truncate → c ∈ columns df)
  ∧ ∀ df', PreTraining.truncate_columns df = Ok df' →
      columns df' = columns df
      ∧ length (rows df') = length (rows df)
      ∧ ∀ idx row, iloc df idx = Ok row →
          ∃ row', iloc df' idx = Ok row'
            ∧ (∀ c, c ∉ PreTraining.columns_to_truncate → row' !! c = row !! c)
            ∧ ∀ c x, c ∈ PreTraining.columns_to_truncate → row !! c = Some x →
                ∃ x', row' !! c = Some x'
                      ∧ (String.length x' ≤ 500)%nat
                      ∧ String.prefix x' x = true
                      ∧ ((String.length x ≤ 500)%nat → x' = x)
                      ∧ ((500 < String.length x)%nat → String.length x' = 500%nat).
Proof.
  unfold PreTraining.truncate_columns. split; [split|].
  - intros [df' H].
    destruct (apply_columns_spec _ _ columns_to_truncate_NoDup df df' H)
      as (_ & _ & Hin & _).
    exact Hin.
  - apply apply_columns_ok.
  - intros df' H.
    destruct (apply_columns_spec _ _ columns_to_truncate_NoDup df df' H)
      as (Hc & Hl & _ & Hrows).
    split; [exact Hc|]. split; [exact Hl|]. intros idx row Hrow.
    destruct (Hrows idx row Hrow) as (row' & Hr' & Hcells).
    exists row'. split; [exact Hr'|]. split.
    + intros c Hout. rewrite Hcells, (bool_decide_eq_false_2 _ Hout). reflexivity.
    + intros c x Hin Hx. rewrite Hcells, (bool_decide_eq_true_2 _ Hin), Hx.
      exists (PreTraining.truncate_cell x). split; [reflexivity|].
      apply truncate_cell_spec.
Qed.

Lemma truncate_columns_spec_witness :
  ∃ df' row' x', PreTraining.truncate_columns long_df = Ok df'
    ∧ iloc df' 0 = Ok row'
    ∧ row' !! "Sequence_A" = Some x' ∧ String.length x' = 500%nat
    ∧ row' !! "Id" = Some "p1" ∧ row' !! "Sequence_B" = Some "L T".
Proof.
  destruct (truncate_columns_spec long_df) as [[_ Hok] Hspec].
  destruct Hok as [df' Hdf'].
  { intros c Hc. unfold PreTraining.columns_to_truncate in Hc.
    rewrite !elem_of_cons in Hc. cbn [columns long_df].
    destruct Hc as [->|[->|[->|[->|Hc]]]]; [| | | |inversion Hc];
      rewrite !elem_of_cons; auto 10. }
  destruct (Hspec df' Hdf') as (_ & _ & Hrows).
  set (row := list_to_map (zip (columns long_df)
                ["p1"; long_seq; "L T"; long_seq; "L T"]) : gmap string string).
  assert (Hrow : iloc long_df 0 = Ok row) by reflexivity.
  destruct (Hrows 0 row Hrow) as (row' & Hr' & Hother & Hcut).
  assert (HA : row !! "Sequence_A" = Some long_seq) by (vm_compute; reflexivity).
  assert (HB : row !! "Sequence_B" = Some "L T") by (vm_compute; reflexivity).
  assert (HI : row !! "Id" = Some "p1") by (vm_compute; reflexivity).
  destruct (Hcut "Sequence_A" long_seq) as (x' & Hx' & _ & _ & _ & Hlen);
    [unfold PreTraining.columns_to_truncate; do 2 right; left | exact HA |].
  destruct (Hcut "Sequence_B" "L T") as (y' & Hy' & _ & _ & Hsame & _);
    [unfold PreTraining.columns_to_truncate; do 3 right; left | exact HB |].
  exists df', row', x'. split; [exact Hdf'|]. split; [exact Hr'|].
  split; [exact Hx'|]. split; [apply Hlen; vm_compute; lia|]. split.
  - rewrite Hother; [exact HI|]. unfold PreTraining.columns_to_truncate.
    rewrite !not_elem_of_cons. repeat split; try discriminate. apply not_elem_of_nil.
  - rewrite Hy'. f_equal. apply Hsame. vm_compute. lia.
Defined.

(** ** The layout of an encoding *)

Lemma prepare_for_model_mask (tk : Tokenizer) (ids : list Z) (L : Z) :
  3 ≤ L →
  (prepare_for_model tk true ids L).2
  = replicate (Z.to_nat (L - 2) `min` length ids + 2) 1
    ++ replicate (Z.to_nat (L - 2 - len ids)) 0.
Proof.
  intros HL. unfold prepare_for_model, num_special_tokens_to_add, len.
  destruct (Z.ltb_spec L (Z.of_nat (length ids) + 2)) as [Hlong|Hshort].
  - unfold truncate_sequences.
    destruct (Z.leb_spec (Z.of_nat (length ids) + 2 - L) 0) as [?|_]; [lia|].
    destruct (Z.ltb_spec (Z.of_nat (length ids) + 2 - L) (Z.of_nat (length ids)))
      as [_|?]; [|lia].
    unfold pad, build_inputs_with_special_tokens. cbn [snd].
    rewrite length_cons, length_app, length_take. cbn [length].
    f_equal; f_equal; lia.
  - unfold pad, build_inputs_with_special_tokens. cbn [snd].
    rewrite length_cons, length_app. cbn [length].
    f_equal; f_equal; lia.
Qed.

(** With [max_length >= 3]: [k] real positions, the classifier id first and
    the separator id last among them, then padding; the mask is 1 on the
    real positions and 0 on the padding. *)
Lemma prepare_for_model_layout (tk : Tokenizer) (raw : list Z) (L : Z) :
  3 ≤ L →
  let k := (Z.to_nat (L - 2) `min` length raw + 2)%nat in
  let p := prepare_for_model tk true raw L in
  (k ≤ Z.to_nat L)%nat
  ∧ p.2 = replicate k 1 ++ replicate (Z.to_nat L - k) 0
  ∧ p.1 !! 0%nat = Some (cls_token_id tk)
  ∧ p.1 !! (k - 1)%nat = Some (sep_token_id tk)
  ∧ ∀ i, (k ≤ i < Z.to_nat L)%nat → p.1 !! i = Some (pad_token_id tk).
Proof.
  intros HL k p. subst p. split; [subst k; lia|]. split.
  { rewrite prepare_for_model_mask by exact HL. fold k. f_equal. f_equal.
    unfold len. subst k. lia. }
  rewrite prepare_for_model_closed by exact HL. split; [reflexivity|]. split.
  - replace (k - 1)%nat with (S (Z.to_nat (L - 2) `min` length raw)) by (subst k; lia).
    rewrite lookup_cons_ne_0 by lia. cbn [Nat.pred].
    rewrite lookup_app_r by (rewrite length_take; lia).
    rewrite length_take, Nat.sub_diag. reflexivity.
  - intros i Hi. rewrite lookup_cons_ne_0 by (subst k; lia).
    rewrite lookup_app_r by (rewrite length_take; subst k; lia).
    rewrite length_take.
    rewrite lookup_cons_ne_0 by (subst k; lia).
    apply lookup_replicate_2. unfold len. subst k. lia.
Qed.

(** X12.  With [max_length >= 3], an attention mask that an operation of
    [DatasetClass.py] returns is a run of ones followed by a run of zeros,
    [max_length] entries in all.  Under the ones [input_ids] starts with
    the classifier id and ends with the separator id; under the zeros it
    holds the pad id.  [tokenize_sequence] returns for every sequence, and
    the number of ones is the number of tokens, at most [max_length - 2],
    plus two.  [mask_and_tokenize_sequence] returns for every sequence with
    at least one token, and raises [ValueError] for the others. *)
Theorem attention_mask_marks_padding
    (self : DatasetClass.ProteinInteractionDataset) (sequence : string) (g : Rng) :
  let tk := DatasetClass.tokenizer self in
  let L := DatasetClass.max_length self in
  let layout (r : list Z * list Z) (k : nat) :=
    (2 ≤ k ≤ Z.to_nat L)%nat
    ∧ r.2 = replicate k 1 ++ replicate (Z.to_nat L - k) 0
    ∧ r.1 !! 0%nat = Some (cls_token_id tk)
    ∧ r.1 !! (k - 1)%nat = Some (sep_token_id tk)
    ∧ ∀ i, (k ≤ i < Z.to_nat L)%nat → r.1 !! i = Some (pad_token_id tk) in
  3 ≤ L →
  layout (DatasetClass.tokenize_sequence self sequence)
         (Z.to_nat (L - 2) `min` length (tokenize tk sequence) + 2)%nat
  ∧ (tokenize tk sequence ≠ [] →
     ∃ r g' k,
       DatasetClass.mask_and_tokenize_sequence self sequence g = Ok (r, g')
       ∧ layout r.1 k)
  ∧ (tokenize tk sequence = [] →
     DatasetClass.mask_and_tokenize_sequence self sequence g = Raise ValueError).
Proof.
  intros tk L layout HL. subst layout. cbn beta. split; [|split].
  - unfold DatasetClass.tokenize_sequence, encode_plus. fold tk L.
    pose proof (prepare_for_model_layout tk
                  (map (convert_tokens_to_ids tk) (tokenize tk sequence)) L HL) as H.
    cbn zeta in H. rewrite length_map in H.
    destruct H as (H1 & H2 & H3 & H4 & H5). repeat split; auto; lia.
  - intros Hne.
    destruct (mask_and_tokenize_closed self sequence g Hne) as (g' & Heq & _).
    cbn zeta in Heq. fold tk L in Heq.
    match type of Heq with
    | context [prepare_for_model tk true ?raw L] =>
        pose proof (prepare_for_model_layout tk raw L HL) as H;
        eexists _, g', (Z.to_nat (L - 2) `min` length raw + 2)%nat
    end.
    split; [exact Heq|]. cbn [fst].
    cbn zeta in H. destruct H as (H1 & H2 & H3 & H4 & H5).
    rewrite <- surjective_pairing. repeat split; auto; lia.
  - apply mask_and_tokenize_token_free.
Qed.

Lemma attention_mask_marks_padding_witness :
  ((DatasetClass.tokenize_sequence ds_wide pair_text).2
   = replicate 9 1 ++ replicate 3 0
   ∧ (DatasetClass.tokenize_sequence ds_wide pair_text).1 !! 8%nat = Some 3
   ∧ (DatasetClass.tokenize_sequence ds_wide pair_text).1 !! 9%nat = Some 0)
  ∧ (∃ r g' k,
       DatasetClass.mask_and_tokenize_sequence ds_wide pair_text g_zero = Ok (r, g')
       ∧ r.1.2 = replicate k 1 ++ replicate (12 - k) 0)
  ∧ DatasetClass.mask_and_tokenize_sequence ds_wide "" g_zero = Raise ValueError.
Proof.
  split; [|split].
  - destruct (attention_mask_marks_padding ds_wide pair_text g_zero)
      as [(_ & H2 & _ & H4 & H5) _]; [vm_compute; discriminate|].
    split; [exact H2|]. split; [exact H4|]. apply H5. vm_compute. lia.
  - destruct (attention_mask_marks_padding ds_wide pair_text g_zero)
      as (_ & H & _); [vm_compute; discriminate|].
    destruct H as (r & g' & k & Heq & _ & Hm & _); [vm_compute; discriminate|].
    exists r, g', k. split; [exact Heq | exact Hm].
  - destruct (attention_mask_marks_padding ds_wide "" g_zero)
      as (_ & _ & H); [vm_compute; discriminate|].
    apply H. reflexivity.
Defined.

(** ** The two channels of the pre-training dataset *)

Lemma prepare_unpadded_closed (tk : Tokenizer) (ids : list Z) (M : Z) :
  3 ≤ M →
  (prepare_for_model tk false ids M).1
  = cls_token_id tk :: take (Z.to_nat (M - 2)) ids ++ [sep_token_id tk].
Proof.
  intros HM. unfold prepare_for_model, num_special_tokens_to_add.
  destruct (Z.ltb_spec M (Z.of_nat (length ids) + 2)) as [Hlong|Hshort].
  - unfold truncate_sequences.
    destruct (Z.leb_spec (Z.of_nat (length ids) + 2 - M) 0) as [?|_]; [lia|].
    destruct (Z.ltb_spec (Z.of_nat (length ids) + 2 - M) (Z.of_nat (length ids)))
      as [_|?]; [|lia].
    replace (length ids - Z.to_nat (Z.of_nat (length ids) + 2 - M))%nat
      with (Z.to_nat (M - 2)) by lia.
    unfold pad, build_inputs_with_special_tokens. cbn [fst replicate].
    rewrite app_nil_r. reflexivity.
  - unfold pad, build_inputs_with_special_tokens. cbn [fst replicate].
    rewrite app_nil_r, take_ge by lia. reflexivity.
Qed.

(** X13.  With both modes on, the [local] ids of an example are the
    original ids of its [global_masked] channel, one place to the right
    behind the classifier id: at every position that survives the
    tokenizer's own limit, [input_ids_local[i+1]] is [input_ids[i]] of the
    masked channel where the label is -100 and is the label elsewhere.
    (Token ids are never -100.) *)
Theorem local_channel_holds_originals
    (self : PreTraining.ProteinInteractionDataset) (idx : Z) (g g' : Rng)
    (item : gmap string (list Z)) :
  let tk := PreTraining.tokenizer self in
  PreTraining.getitem self idx g = Ok (item, g') →
  "global_masked" ∈ PreTraining.modes self → "local" ∈ PreTraining.modes self →
  3 ≤ model_max_length tk →
  (∀ t, convert_tokens_to_ids tk t ≠ IGNORE) →
  ∃ gm lbl loc,
    item !! "input_ids_global_masked" = Some gm
    ∧ item !! "labels_global_masked" = Some lbl
    ∧ item !! "input_ids_local" = Some loc
    ∧ loc !! 0%nat = Some (cls_token_id tk)
    ∧ ∀ i x l, gm !! i = Some x → lbl !! i = Some l →
        Z.of_nat i + 3 ≤ model_max_length tk →
        loc !! S i = Some (if l =? IGNORE then x else l).
Proof.
  intros tk H Hg Hl HM Hids. unfold PreTraining.getitem in H.
  destruct (iloc _ idx) as [row|]; [|discriminate]. cbn [mbind result_bind] in H.
  rewrite (bool_decide_eq_true_2 _ Hg), (bool_decide_eq_true_2 _ Hl) in H.
  destruct (getitem_dict row "Sequence_A") as [sa|]; [|discriminate].
  cbn [mbind result_bind] in H.
  destruct (getitem_dict row "Sequence_B") as [sb|]; [|discriminate].
  cbn [mbind result_bind] in H.
  destruct (decide (2 < vocab_size tk)) as [HV|HV];
    [|rewrite random_mask_sequence_small_vocab in H by (fold tk; lia); discriminate].
  destruct (random_mask_sequence_spec self (render_pair sa sb) g HV)
    as (ids & lbl & g1 & Heq & Hn & Hlen & Hpos).
  rewrite Heq in H. cbn [mbind result_bind] in H.
  unfold PreTraining.tokenize_sequence, encode_plus in H. fold tk in H, Hpos, Hn, Hlen.
  set (ids0 := map (convert_tokens_to_ids tk) (tokenize tk (render_pair sa sb))) in *.
  pose proof (prepare_unpadded_closed tk ids0 (model_max_length tk) HM) as Hloc.
  destruct (prepare_for_model tk false ids0 (model_max_length tk)) as [loc am].
  cbn [fst] in Hloc. cbn [mbind result_bind] in H. injection H as <- <-.
  exists ids, lbl, loc. split; [reflexivity|]. split; [reflexivity|].
  split; [reflexivity|]. rewrite Hloc. split; [reflexivity|].
  intros i x l Hx Hli Hi.
  destruct (lookup_lt_is_Some_2 ids0 i) as [orig Horig].
  { rewrite <- Hn. eapply lookup_lt_Some. exact Hx. }
  destruct (Hpos i orig Horig) as (H1 & H2).
  rewrite lookup_cons_ne_0 by lia. cbn [Nat.pred]. rewrite lookup_app_l
    by (rewrite length_take; apply lookup_lt_Some in Horig; lia).
  rewrite lookup_take_lt by lia. rewrite Horig. f_equal.
  rewrite H1 in Hli. rewrite H2 in Hx. injection Hli as <-. injection Hx as <-.
  destruct (draw_below 24 (PreTraining.mask_probability self) g i).
  - destruct (Z.eqb_spec orig IGNORE) as [->|_]; [|reflexivity].
    apply list_elem_of_lookup_2, list_elem_of_fmap in Horig as (t & Ht & _).
    destruct (Hids t). symmetry. exact Ht.
  - rewrite Z.eqb_refl. reflexivity.
Qed.

Lemma prot_lookup_is_an_id (t : string) : prot_lookup t ≠ IGNORE.
Proof.
  unfold prot_lookup.
  destruct (list_find (λ e : string * Z, e.1 = t) prot_vocab) as [[j [s id]]|] eqn:E;
    [|discriminate].
  apply list_find_Some in E as (Hj & _ & _).
  apply list_elem_of_lookup_2 in Hj. unfold prot_vocab in Hj.
  rewrite !elem_of_cons in Hj.
  repeat (destruct Hj as [Hj|Hj]; [injection Hj as _ ->; discriminate|]).
  inversion Hj.
Qed.

Lemma local_channel_holds_originals_witness :
  ∃ loc, item_pt_both !! "input_ids_local" = Some loc
         ∧ loc !! 0%nat = Some 2 ∧ loc !! 1%nat = Some 30.
Proof.
  assert (Hok : is_okb (PreTraining.getitem pt_both 0 g_zero) = true)
    by (vm_compute; reflexivity).
  assert (Hgm : item_pt_both !! "input_ids_global_masked" = Some [4; 4; 4; 4; 4; 4; 4])
    by (vm_compute; reflexivity).
  assert (Hlb : item_pt_both !! "labels_global_masked" = Some [30; 21; 12; 3; 31; 5; 15])
    by (vm_compute; reflexivity).
  unfold item_pt_both in *.
  destruct (PreTraining.getitem pt_both 0 g_zero) as [[item g']|e] eqn:E;
    [|discriminate Hok].
  destruct (local_channel_holds_originals pt_both 0 g_zero g' item E)
    as (gm & lbl & loc & H1 & H2 & H3 & H4 & H5).
  - left.
  - right. left.
  - vm_compute. discriminate.
  - exact prot_lookup_is_an_id.
  - exists loc. split; [exact H3|]. split; [exact H4|].
    assert (gm = [4; 4; 4; 4; 4; 4; 4]) as -> by congruence.
    assert (lbl = [30; 21; 12; 3; 31; 5; 15]) as -> by congruence.
    apply (H5 0%nat 4 30); [reflexivity | reflexivity | vm_compute; discriminate].
Defined.
